(** * check_na.py: the BPS table processor, embedded and verified

    The development follows [src/check_na.py].  Python strings are
    modelled as [string] (sequences of 8-bit characters) with the ASCII
    case mapping and the ASCII character classes; on ASCII text (the
    column headers and region labels of the BPS tables) this is what
    [str.lower], [str.upper], [str.strip], [\s] and [\W] compute.
    pandas frames are column-major tables of scalar cells that live in a
    store of frame objects, so that [DataFrame.copy], boolean indexing
    and in-place assignment keep their aliasing behaviour. *)

From Stdlib Require Import ZArith Ascii String DecimalString.
From stdpp Require Import base tactics option list strings gmap.

Local Open Scope Z_scope.

(** ** Python [str] *)

Module Str.

Definition code (c : ascii) : N := N_of_ascii c.

Definition is_upper (c : ascii) : bool := ((65 <=? code c) && (code c <=? 90))%N.
Definition is_lower (c : ascii) : bool := ((97 <=? code c) && (code c <=? 122))%N.
Definition is_digit (c : ascii) : bool := ((48 <=? code c) && (code c <=? 57))%N.

(** [str.isspace] on ASCII: TAB, LF, VT, FF, CR, the separators
    FS, GS, RS, US and the space. *)
Definition is_space (c : ascii) : bool :=
  ((9 <=? code c) && (code c <=? 13) || (28 <=? code c) && (code c <=? 32))%N.

Definition is_alnum (c : ascii) : bool := is_upper c || is_lower c || is_digit c.

(** The class [\w]: letters, digits and the underscore. *)
Definition is_word (c : ascii) : bool := is_alnum c || Ascii.eqb c "_".

Definition lower_char (c : ascii) : ascii :=
  if is_upper c then ascii_of_N (code c + 32) else c.
Definition upper_char (c : ascii) : ascii :=
  if is_lower c then ascii_of_N (code c - 32) else c.

Fixpoint map (f : ascii → ascii) (s : string) : string :=
  match s with
  | EmptyString => EmptyString
  | String c s' => String (f c) (map f s')
  end.

(** [s.lower()] and [s.upper()]. *)
Definition lower : string → string := map lower_char.
Definition upper : string → string := map upper_char.

(** [s.capitalize()]. *)
Definition capitalize (s : string) : string :=
  match s with
  | EmptyString => EmptyString
  | String c s' => String (upper_char c) (lower s')
  end.

(** [s.startswith(p)]. *)
Definition startswith (s p : string) : bool := String.prefix p s.

(** [sub in s]. *)
Fixpoint contains (sub s : string) : bool :=
  String.prefix sub s ||
  match s with
  | EmptyString => false
  | String _ s' => contains sub s'
  end.

(** [s.split(sep)] for a one-character separator. *)
Fixpoint split (sep : ascii) (s : string) : list string :=
  match s with
  | EmptyString => [EmptyString]
  | String c s' =>
      if Ascii.eqb c sep then EmptyString :: split sep s'
      else match split sep s' with
           | [] => [String c EmptyString]
           | w :: ws => String c w :: ws
           end
  end.

(** [sep.join(l)]. *)
Definition join (sep : string) (l : list string) : string := String.concat sep l.

Fixpoint lstrip (s : string) : string :=
  match s with
  | EmptyString => EmptyString
  | String c s' => if is_space c then lstrip s' else s
  end.

Fixpoint rstrip (s : string) : string :=
  match s with
  | EmptyString => EmptyString
  | String c s' =>
      match rstrip s' with
      | EmptyString => if is_space c then EmptyString else String c EmptyString
      | r => String c r
      end
  end.

(** [s.strip()]. *)
Definition strip (s : string) : string := lstrip (rstrip s).

(** [s.replace(old, new)] for a non-empty [old]: occurrences are
    replaced from the left and do not overlap; [skip] counts the
    characters of the occurrence just replaced that are still to be
    passed over. *)
Fixpoint replace_from (skip : nat) (old new s : string) : string :=
  match s with
  | EmptyString => EmptyString
  | String c s' =>
      match skip with
      | S k => replace_from k old new s'
      | O =>
          if String.prefix old s
          then new +:+ replace_from (String.length old - 1) old new s'
          else String c (replace_from O old new s')
      end
  end.

Definition replace (old new s : string) : string := replace_from O old new s.

(** [any(p(c) for c in s)] and [all(p(c) for c in s)]. *)
Fixpoint any (p : ascii → bool) (s : string) : bool :=
  match s with
  | EmptyString => false
  | String c s' => p c || any p s'
  end.

Fixpoint all (p : ascii → bool) (s : string) : bool :=
  match s with
  | EmptyString => true
  | String c s' => p c && all p s'
  end.

(** The first character of [s] satisfies [p], or [s] is empty. *)
Definition starts (p : ascii → bool) (s : string) : bool :=
  match s with
  | EmptyString => true
  | String c _ => p c
  end.

(** The last character of [s] satisfies [p], or [s] is empty. *)
Fixpoint ends (p : ascii → bool) (s : string) : bool :=
  match s with
  | EmptyString => true
  | String c EmptyString => p c
  | String _ s' => ends p s'
  end.

Definition not_space (c : ascii) : bool := negb (is_space c).

(** [str(n)] for an [int]. *)
Definition of_Z (z : Z) : string := NilZero.string_of_int (Z.to_int z).

End Str.

(** ** The two regular expressions of [get_kabupaten_name] *)

Module Re.

Definition LF : ascii := ascii_of_N 10.

(** Does the text after a ["["] reach a ["]"] through characters that
    [.] matches (anything but a line feed)?  This is whether
    [\[.*?\]] matches at that ["["]. *)
Fixpoint closes (s : string) : bool :=
  match s with
  | EmptyString => false
  | String c s' =>
      if Ascii.eqb c "]" then true
      else if Ascii.eqb c LF then false
      else closes s'
  end.

(** The characters other than ["["], and those that [.*?] can take
    inside a bracket. *)
Definition not_open (c : ascii) : bool := negb (Ascii.eqb c "[").

(** Where the scan of [re.sub(r'\[.*?\]\s*', '', s)] stands: copying
    text, inside a matched bracket (up to the first ["]"], as [.*?] is
    lazy), or in the white space that [\s*] takes after it. *)
Inductive scan := Copy | InBracket | AfterBracket.

Fixpoint sub_bracketed_from (m : scan) (s : string) : string :=
  match s with
  | EmptyString => EmptyString
  | String c s' =>
      let copy :=
        if Ascii.eqb c "[" && closes s' then sub_bracketed_from InBracket s'
        else String c (sub_bracketed_from Copy s') in
      match m with
      | InBracket =>
          if Ascii.eqb c "]" then sub_bracketed_from AfterBracket s'
          else sub_bracketed_from InBracket s'
      | AfterBracket =>
          if Str.is_space c then sub_bracketed_from AfterBracket s' else copy
      | Copy => copy
      end
  end.

(** [re.sub(r'\[.*?\]\s*', '', s)]. *)
Definition sub_bracketed (s : string) : string := sub_bracketed_from Copy s.

(** [re.sub(r'\W+', '_', s)]: [in_run] tells that the run of non-word
    characters under the scan has already been given its underscore. *)
Fixpoint sub_nonword_from (in_run : bool) (s : string) : string :=
  match s with
  | EmptyString => EmptyString
  | String c s' =>
      if Str.is_word c then String c (sub_nonword_from false s')
      else if in_run then sub_nonword_from true s'
      else String "_" (sub_nonword_from true s')
  end.

Definition sub_nonword (s : string) : string := sub_nonword_from false s.

End Re.

(** ** The pure helpers of the script *)

(** [format_animal_name]. *)
Definition format_animal_name (name : string) : string :=
  Str.join " " (Str.capitalize <$> Str.split "_" name).

(** The cleaning that [get_kabupaten_name] applies to the [id_kab]
    label of the region. *)
Definition clean_kabupaten_name (full_name : string) : string :=
  let clean_name := Str.strip (Re.sub_bracketed full_name) in
  Re.sub_nonword clean_name.

(** ** Exceptions *)

Inductive error :=
  | KeyError (key : string)
  | IndexError
  | TypeError.

Inductive result (A : Type) :=
  | Ok (a : A)
  | Raise (e : error).
Arguments Ok {A} a.
Arguments Raise {A} e.

Definition is_Ok {A} (r : result A) : Prop := ∃ a, r = Ok a.

#[global] Instance result_ret : MRet result := λ A a, Ok a.
#[global] Instance result_bind : MBind result := λ A B f m,
  match m with
  | Ok a => f a
  | Raise e => Raise e
  end.
#[global] Instance result_fmap : FMap result := λ A B f m,
  match m with
  | Ok a => Ok (f a)
  | Raise e => Raise e
  end.

(** ** pandas values: cells, series, tables *)

(** A scalar of a sheet: a number, a text, or a missing value.  The
    numbers of the tables are counts of households and of animals and
    region codes, and are taken as integers; the script compares them
    and prints them, and computes nothing with them.  A column has the
    representation of its cells: it is textual when all of them are
    texts.  Headers are texts, and distinct within a sheet, as
    [pd.read_excel] returns them. *)
Inductive cell :=
  | Int (z : Z)
  | Text (s : string)
  | NaN.

#[global] Instance cell_eq_dec : EqDecision cell.
Proof. solve_decision. Defined.

Abbreviation series := (list cell).

(** A frame's content: its columns in order, each with its header. *)
Abbreviation table := (list (string * series)).

Module Pd.

(** [df.columns]. *)
Definition columns (t : table) : list string := t.*1.

(** [df[name]]. *)
Fixpoint getitem (t : table) (name : string) : result series :=
  match t with
  | [] => Raise (KeyError name)
  | (n, v) :: t' => if String.eqb n name then Ok v else getitem t' name
  end.

(** [df[name] = vals]: an existing column keeps its place, a new one
    is appended. *)
Fixpoint setitem (t : table) (name : string) (vals : series) : table :=
  match t with
  | [] => [(name, vals)]
  | (n, v) :: t' =>
      if String.eqb n name then (n, vals) :: t' else (n, v) :: setitem t' name vals
  end.

(** [s[mask]]: the entries of [s] at the rows where [mask] holds. *)
Fixpoint select (mask : list bool) (s : series) : series :=
  match mask, s with
  | b :: mask', x :: s' => if b then x :: select mask' s' else select mask' s'
  | _, _ => []
  end.

(** [df[mask]]. *)
Definition select_rows (mask : list bool) (t : table) : table :=
  prod_map id (select mask) <$> t.

(** [s == k] against an integer: texts and missing values differ from it. *)
Definition eq_int (k : Z) (c : cell) : bool :=
  match c with
  | Int v => v =? k
  | _ => false
  end.

(** One cell of [s > k] and [s < k]: a missing value compares false,
    a text cannot be compared with a number. *)
Definition cell_gt (k : Z) (c : cell) : result bool :=
  match c with
  | Int v => Ok (k <? v)
  | NaN => Ok false
  | Text _ => Raise TypeError
  end.

Definition cell_lt (k : Z) (c : cell) : result bool :=
  match c with
  | Int v => Ok (v <? k)
  | NaN => Ok false
  | Text _ => Raise TypeError
  end.

Fixpoint traverse {A B} (f : A → result B) (l : list A) : result (list B) :=
  match l with
  | [] => Ok []
  | x :: l' => y ← f x; ys ← traverse f l'; Ok (y :: ys)
  end.

(** [s > k], [s < k] and [a & b]. *)
Definition gt (s : series) (k : Z) : result (list bool) := traverse (cell_gt k) s.
Definition lt (s : series) (k : Z) : result (list bool) := traverse (cell_lt k) s.
Definition and (a b : list bool) : list bool := zip_with andb a b.

(** [str(x)] of a cell, as [astype(str)] applies it; a missing value
    becomes the text ["nan"]. *)
Definition cell_str (c : cell) : string :=
  match c with
  | Int z => Str.of_Z z
  | Text s => s
  | NaN => "nan"
  end.

(** [s.astype(str)]. *)
Definition astype_str (s : series) : series := (λ c, Text (cell_str c)) <$> s.

(** [s.isin(values)]; a missing value is found among missing values. *)
Definition isin (s values : series) : list bool :=
  (λ c, bool_decide (c ∈ values)) <$> s.

(** The column after [df.loc[mask, name] = value]. *)
Fixpoint assign (mask : list bool) (value : cell) (s : series) : series :=
  match mask, s with
  | b :: mask', x :: s' => (if b then value else x) :: assign mask' value s'
  | _, _ => s
  end.

(** [df.loc[mask, name]]. *)
Definition loc_getitem (t : table) (mask : list bool) (name : string) : result series :=
  select mask <$> getitem t name.

(** [df.loc[mask, name] = value]; a header the frame does not have
    yet becomes a new column, missing outside the mask. *)
Definition loc_setitem (t : table) (mask : list bool) (name : string) (value : cell) : table :=
  match getitem t name with
  | Ok s => setitem t name (assign mask value s)
  | Raise _ => setitem t name ((λ b : bool, if b then value else NaN) <$> mask)
  end.

(** [df.iloc[0]]: the first row, labelled by the headers. *)
Fixpoint iloc0 (t : table) : result (list (string * cell)) :=
  match t with
  | [] => Ok []
  | (n, v) :: t' =>
      match v with
      | [] => Raise IndexError
      | x :: _ => row ← iloc0 t'; Ok ((n, x) :: row)
      end
  end.

(** [row.get(label, default)]. *)
Fixpoint get (row : list (string * cell)) (label : string) (default : cell) : cell :=
  match row with
  | [] => default
  | (n, x) :: row' => if String.eqb n label then x else get row' label default
  end.

End Pd.

(** ** The store of frame objects and the effects of a run *)

(** A [DataFrame] variable holds a reference to a frame object. *)
Definition loc := nat.

(** A workbook: its sheets in the order they were written. *)
Abbreviation workbook := (list (string * table)).

Record world := World {
  frames : gmap loc table;            (* the frame objects *)
  book : workbook;                    (* the sheets of the open ExcelWriter *)
  files : list (string * workbook);   (* the workbooks saved, by path *)
  stdout : list string;               (* the lines printed *)
}.

Definition set_frames (f : gmap loc table → gmap loc table) (w : world) : world :=
  World (f (frames w)) (book w) (files w) (stdout w).
Definition set_book (f : workbook → workbook) (w : world) : world :=
  World (frames w) (f (book w)) (files w) (stdout w).
Definition set_files (f : list (string * workbook) → list (string * workbook)) (w : world) : world :=
  World (frames w) (book w) (f (files w)) (stdout w).
Definition set_stdout (f : list string → list string) (w : world) : world :=
  World (frames w) (book w) (files w) (f (stdout w)).

(** A computation runs in a world and either returns or raises; the
    world it leaves behind is kept in both cases. *)
Definition M (A : Type) : Type := world → result A * world.

#[global] Instance M_ret : MRet M := λ A a w, (Ok a, w).
#[global] Instance M_bind : MBind M := λ A B f m w,
  match m w with
  | (Ok a, w') => f a w'
  | (Raise e, w') => (Raise e, w')
  end.

Definition raise {A} (e : error) : M A := λ w, (Raise e, w).
Definition lift {A} (r : result A) : M A := λ w, (r, w).

Fixpoint for_ {A} (l : list A) (body : A → M unit) : M unit :=
  match l with
  | [] => mret ()
  | x :: l' => body x;; for_ l' body
  end.

Definition print (line : string) : M unit := λ w, (Ok (), set_stdout (λ o, o ++ [line]) w).

(** Frame objects: creation, reading through a reference, update in place. *)
Definition new_frame (t : table) : M loc := λ w,
  let l := fresh (dom (frames w)) in (Ok l, set_frames <[l:=t]> w).
Definition read (df : loc) : M table := λ w, (Ok (frames w !!! df), w).
Definition write (df : loc) (t : table) : M unit := λ w, (Ok (), set_frames <[df:=t]> w).

Definition frame_columns (df : loc) : M (list string) :=
  t ← read df; mret (Pd.columns t).
Definition frame_getitem (df : loc) (name : string) : M series :=
  t ← read df; lift (Pd.getitem t name).
Definition frame_setitem (df : loc) (name : string) (vals : series) : M unit :=
  t ← read df; write df (Pd.setitem t name vals).
Definition frame_loc_getitem (df : loc) (mask : list bool) (name : string) : M series :=
  t ← read df; lift (Pd.loc_getitem t mask name).
Definition frame_loc_setitem (df : loc) (mask : list bool) (name : string) (value : cell) : M unit :=
  t ← read df; write df (Pd.loc_setitem t mask name value).
Definition frame_iloc0 (df : loc) : M (list (string * cell)) :=
  t ← read df; lift (Pd.iloc0 t).

(** [df[mask]] and [df.copy()] make a new frame object. *)
Definition frame_select (df : loc) (mask : list bool) : M loc :=
  t ← read df; new_frame (Pd.select_rows mask t).
Definition frame_copy (df : loc) : M loc :=
  t ← read df; new_frame t.

(** [df.to_excel(writer, sheet_name=name, index=False)]. *)
Definition add_sheet (name : string) (t : table) : M unit := λ w,
  (Ok (), set_book (λ b, b ++ [(name, t)]) w).
Definition to_excel (df : loc) (name : string) : M unit :=
  t ← read df; add_sheet name t.

(** [with pd.ExcelWriter(path) as writer: body]: the writer is closed,
    and the workbook saved, on every way out of the block. *)
Definition with_writer {A} (path : string) (body : M A) : M A := λ w,
  let (r, w') := body (set_book (λ _, []) w) in
  (r, set_book (λ _, []) (set_files (λ fs, fs ++ [(path, book w')]) w')).

(** ** The script *)

(** [df[df['kab'] == kab_code]]: the row filter. *)
Definition filter_kab (df : loc) (kab_code : Z) : M loc :=
  kab ← frame_getitem df "kab";
  frame_select df (Pd.eq_int kab_code <$> kab).

Definition get_kabupaten_name (df : loc) (kab_code : Z) : M string :=
  rows ← filter_kab df kab_code;
  kab_row ← frame_iloc0 rows;
  let full_name := Pd.get kab_row "id_kab" (Text (Str.of_Z kab_code)) in
  match full_name with
  | Text s => mret (clean_kabupaten_name s)
  | _ => raise TypeError
  end.

(** The keywords that [get_column_keywords] returns for the option
    chosen and, under option 3, the line of custom keywords typed. *)
Definition get_column_keywords (choice keywords : string) : list string :=
  if String.eqb choice "1" then ["rerata"]
  else if String.eqb choice "2" then ["populasi"]
  else if String.eqb choice "3" then (λ k, Str.lower (Str.strip k)) <$> Str.split "," keywords
  else ["rerata"].

(** [animal in c and any(keyword in c.lower() for keyword in column_keywords)]. *)
Definition matches (animal : string) (column_keywords : list string) (c : string) : bool :=
  Str.contains animal c &&
  existsb (λ keyword, Str.contains keyword (Str.lower c)) column_keywords.

(** The animal of a family column: [ '_'.join(col.split('_')[4:]) ]. *)
Definition animal_of (col : string) : string :=
  Str.join "_" (drop 4 (Str.split "_" col)).

(** The row mask of a family column:
    [(df_ref_filtered[col] > 0) & (df_ref_filtered[col] < 3)]. *)
Definition rule_mask (df_ref_filtered : loc) (col : string) : M (list bool) :=
  a ← frame_getitem df_ref_filtered col;
  above ← lift (Pd.gt a 0);
  b ← frame_getitem df_ref_filtered col;
  below ← lift (Pd.lt b 3);
  mret (Pd.and above below).

(** The body of the inner loop: one matched column of the template. *)
Definition mask_column (df_ref_filtered df_template : loc) (col matching_col : string) : M unit :=
  s ← frame_getitem df_template matching_col;
  frame_setitem df_template matching_col (Pd.astype_str s);;
  mask ← rule_mask df_ref_filtered col;
  matched_kec ← frame_loc_getitem df_ref_filtered mask "kec";
  kec ← frame_getitem df_template "kec";
  frame_loc_setitem df_template (Pd.isin kec matched_kec) matching_col (Text "NA").

(** The matching columns of a family column, among the columns of the template:
    [[c for c in df_template.columns if animal in c and any(...)]]. *)
Definition matching_cols (animal : string) (column_keywords : list string)
    (template_columns : list string) : list string :=
  filter (λ c, matches animal column_keywords c) template_columns.

(** The body of the outer loop: one column of the reference frame. *)
Definition mask_family (df_ref_filtered df_template : loc) (column_keywords : list string)
    (col : string) : M unit :=
  if Str.startswith col "n_rtup_ternak_usaha_" then
    let animal := animal_of col in
    print ("Processing: " +:+ format_animal_name animal);;
    template_columns ← frame_columns df_template;
    let matching_cols := matching_cols animal column_keywords template_columns in
    for_ matching_cols (mask_column df_ref_filtered df_template col)
  else mret ().

(** The column matcher and masker: the [for col in df_ref_filtered.columns] loop. *)
Definition apply_rule (df_ref_filtered df_template : loc) (column_keywords : list string) : M unit :=
  cols ← frame_columns df_ref_filtered;
  for_ cols (mask_family df_ref_filtered df_template column_keywords).

(** The template sheet: a copy of the derived rows, put through the rule. *)
Definition build_template (df_ref_filtered df_derived_filtered : loc)
    (column_keywords : list string) : M loc :=
  df_template ← frame_copy df_derived_filtered;
  apply_rule df_ref_filtered df_template column_keywords;;
  mret df_template.

(** The name of the workbook:
    [output_file.replace('.xlsx', f'_{kab_name.upper()}.xlsx')]. *)
Definition output_name (output_file kab_name : string) : string :=
  Str.replace ".xlsx" ("_" +:+ Str.upper kab_name +:+ ".xlsx") output_file.

(** [process_excel_data], from the two sheets that [pd.read_excel]
    returned: [df_ref] and [df_derived] refer to them in the store.
    Returns the frames written as [riil] and as [template]. *)
Definition process_excel_data (df_ref df_derived : loc) (output_file : string)
    (kab_code : Z) (column_keywords : list string) : M (loc * loc) :=
  df_ref_filtered ← filter_kab df_ref kab_code;
  kab_name ← get_kabupaten_name df_ref kab_code;
  let output_file := output_name output_file kab_name in
  df_derived_filtered ← filter_kab df_derived kab_code;
  r ← with_writer output_file (
    to_excel df_ref_filtered "acuan";;
    to_excel df_derived_filtered "riil";;
    df_template ← build_template df_ref_filtered df_derived_filtered column_keywords;
    to_excel df_template "template";;
    mret (df_derived_filtered, df_template));
  print ("Processed data saved to " +:+ output_file);;
  mret r.

(** ** What the loop computes on the content of the frames

    The frame objects only carry the tables through the loop; the
    functions below are the same statements read on the contents, the
    reference table [ref] and the template table [tpl]. *)

Module Tab.

Definition rule_mask (ref : table) (col : string) : result (list bool) :=
  a ← Pd.getitem ref col;
  above ← Pd.gt a 0;
  b ← Pd.getitem ref col;
  below ← Pd.lt b 3;
  Ok (Pd.and above below).

(** [df_ref_filtered.loc[mask, 'kec']]: the masked set of a family column. *)
Definition matched_kec (ref : table) (col : string) : result series :=
  mask ← rule_mask ref col;
  Pd.loc_getitem ref mask "kec".

Definition mask_column (ref : table) (col : string) (tpl : table) (matching_col : string)
    : result table :=
  s ← Pd.getitem tpl matching_col;
  let tpl1 := Pd.setitem tpl matching_col (Pd.astype_str s) in
  matched ← matched_kec ref col;
  kec ← Pd.getitem tpl1 "kec";
  Ok (Pd.loc_setitem tpl1 (Pd.isin kec matched) matching_col (Text "NA")).

Fixpoint foldM {A} (f : table → A → result table) (l : list A) (t : table) : result table :=
  match l with
  | [] => Ok t
  | x :: l' => t' ← f t x; foldM f l' t'
  end.

Definition matching_cols (col : string) (column_keywords : list string) (tpl : table)
    : list string :=
  matching_cols (animal_of col) column_keywords (Pd.columns tpl).

Definition mask_family (ref : table) (column_keywords : list string) (tpl : table)
    (col : string) : result table :=
  if Str.startswith col "n_rtup_ternak_usaha_"
  then foldM (mask_column ref col) (matching_cols col column_keywords tpl) tpl
  else Ok tpl.

Definition apply_rule (ref : table) (column_keywords : list string) (tpl : table)
    : result table :=
  foldM (mask_family ref column_keywords) (Pd.columns ref) tpl.

(** The lines that the pass prints: one for each family column. *)
Definition family_line (col : string) : list string :=
  if Str.startswith col "n_rtup_ternak_usaha_"
  then ["Processing: " +:+ format_animal_name (animal_of col)]
  else [].

Definition processing_log (cols : list string) : list string := cols ≫= family_line.

End Tab.

(** A family column of the reference table. *)
Definition family (ref : table) (col : string) : Prop :=
  col ∈ Pd.columns ref ∧ Str.startswith col "n_rtup_ternak_usaha_" = true.

(** [sub] occurs in [s]. *)
Definition substring (sub s : string) : Prop := ∃ p q, s = p +:+ sub +:+ q.

(** All the frames of [w] are still there in [w'], with their contents,
    and so are the workbooks; only the frame at [df] may differ. *)
Definition only_frame (df : loc) (w w' : world) : Prop :=
  (∀ l, l ≠ df → frames w' !! l = frames w !! l) ∧
  book w' = book w ∧ files w' = files w.

(** What a step of the loop on the template frame [df] leaves: every
    other frame as it was, and in the template frame the content that
    the table-level function computes. *)
Definition steps_to (df : loc) (w : world) (r : result table) (w' : world) : Prop :=
  only_frame df w w' ∧
  match r with
  | Ok tpl' => frames w' !! df = Some tpl'
  | Raise _ => is_Some (frames w' !! df)
  end.

(** ** The vocabulary of the properties *)

(** The column [name] of the derived table is matched by a family
    column of the reference table. *)
Definition matched (ref : table) (column_keywords : list string) (name : string) : Prop :=
  ∃ col, family ref col ∧ matches (animal_of col) column_keywords name = true.

(** [k] is in the masked set of the column [col]: it is the sub-region
    code of a reference row whose value lies strictly between 0 and 3. *)
Definition in_masked_set (ref : table) (col : string) (k : cell) : Prop :=
  ∃ a kecs j v,
    Pd.getitem ref col = Ok a ∧ Pd.getitem ref "kec" = Ok kecs ∧
    a !! j = Some (Int v) ∧ 0 < v < 3 ∧ kecs !! j = Some k.

(** Row [i] of the derived table is masked: its sub-region code is in
    the masked set of a family column.  The code is the [kec] cell of
    the row; where the [kec] column is itself a matched column, which
    the pass coerces, the text of that cell stands for it as well. *)
Definition masked_row (ref : table) (column_keywords : list string) (der : table)
    (i : nat) : Prop :=
  ∃ col kecs k0 k,
    family ref col ∧ Pd.getitem der "kec" = Ok kecs ∧ kecs !! i = Some k0 ∧
    (k = k0 ∨ (matched ref column_keywords "kec" ∧ k = Text (Pd.cell_str k0))) ∧
    in_masked_set ref col k.

(** What the pass may leave in a cell that held [x], in row [i]: the
    text of [x], or the sentinel if the row is masked. *)
Definition coerced_or_masked (ref : table) (column_keywords : list string) (der : table)
    (i : nat) (x y : cell) : Prop :=
  y = Text (Pd.cell_str x) ∨ (y = Text "NA" ∧ masked_row ref column_keywords der i).

(** The column [s'] comes from the column [s] by coercion and masking. *)
Definition masked_column (ref : table) (column_keywords : list string) (der : table)
    (s s' : series) : Prop :=
  length s' = length s ∧
  ∀ i x, s !! i = Some x →
         ∃ y, s' !! i = Some y ∧ coerced_or_masked ref column_keywords der i x y.

(** A column in its textual representation. *)
Definition textual (s : series) : Prop := Pd.astype_str s = s.

(** The sub-region column of the derived table is not itself among the
    columns that a family matches. *)
Definition kec_unmatched (ref : table) (column_keywords : list string) : Prop :=
  ∀ col, family ref col → matches (animal_of col) column_keywords "kec" = false.

(** What holds of the template table [t] all along the pass over the
    derived table [der]: the columns are those of [der], and each is
    as it was or, if matched, comes from it by coercion and masking. *)
Definition pass_invariant (ref : table) (column_keywords : list string)
    (der t : table) : Prop :=
  Pd.columns t = Pd.columns der ∧
  ∀ name s, Pd.getitem der name = Ok s →
    ∃ s', Pd.getitem t name = Ok s' ∧
          (s' = s ∨ (matched ref column_keywords name ∧ masked_column ref column_keywords der s s')).

(** The column [name] of [t] is in its textual representation. *)
Definition column_textual (t : table) (name : string) : Prop :=
  ∃ s, Pd.getitem t name = Ok s ∧ textual s.

(** Every step of the family column [col] leaves the table [t] as it is. *)
Definition settled (ref : table) (column_keywords : list string)
    (col : string) (t : table) : Prop :=
  Str.startswith col "n_rtup_ternak_usaha_" = true →
  ∀ mc, mc ∈ Tab.matching_cols col column_keywords t →
        Tab.mask_column ref col t mc = Ok t.

(** ** The label normalization as the specification words it

    For comparison with [clean_kabupaten_name]: bracketed tokens
    stripped, white space trimmed, and every run of non-alphanumeric
    characters replaced by one underscore. *)



(** ** Containment without regard to case, as the specification words it

    For comparison with the keyword test of [matches].  Two characters
    are the same without regard to case when they are equal, or are
    the upper-case and the lower-case form of one letter: the letters
    [A] to [Z] have the codes 65 to 90, and each lower-case letter the
    code of its upper-case form plus 32. *)

Definition letter_pair (a b : ascii) : bool :=
  let x := N_of_ascii a in
  ((65 <=? x) && (x <=? 90) && (N_of_ascii b =? x + 32))%N.

Definition eq_ignore_case (a b : ascii) : bool :=
  Ascii.eqb a b || letter_pair a b || letter_pair b a.

Fixpoint prefix_ignore_case (p s : string) : bool :=
  match p, s with
  | EmptyString, _ => true
  | String a p', String b s' => eq_ignore_case a b && prefix_ignore_case p' s'
  | String _ _, EmptyString => false
  end.

(** [sub] occurs in [s], the case of the letters disregarded. *)
Fixpoint contains_ignore_case (sub s : string) : bool :=
  prefix_ignore_case sub s ||
  match s with
  | EmptyString => false
  | String _ s' => contains_ignore_case sub s'
  end.

(** ** Sample sheets *)

Module Example.

(** The store after [pd.read_excel] has returned the reference sheet
    and the derived sheet. *)
Definition df_ref : loc := 0%nat.
Definition df_derived : loc := 1%nat.
Definition sheets (ref der : table) : world :=
  World (<[df_derived:=der]> (<[df_ref:=ref]> ∅)) [] [] [].

(** Four sub-regions of one region, with their households keeping
    ayam kampung and the population of ayam kampung. *)
Definition ref_ayam : table :=
  [("kab", [Int 7205; Int 7205; Int 7205; Int 7205]);
   ("kec", [Text "A"; Text "B"; Text "C"; Text "D"]);
   ("id_kab", [Text "[7205] Kota Bandung"; Text "[7205] Kota Bandung";
               Text "[7205] Kota Bandung"; Text "[7205] Kota Bandung"]);
   ("n_rtup_ternak_usaha_ayam_kampung", [Int 0; Int 1; Int 2; Int 5])].

Definition der_ayam : table :=
  [("kab", [Int 7205; Int 7205; Int 7205; Int 7205]);
   ("kec", [Text "A"; Text "B"; Text "C"; Text "D"]);
   ("populasi_ayam_kampung", [Int 10; Int 20; Int 30; Int 40])].

(** A family column whose values are all outside the window. *)
Definition ref_none : table :=
  [("kec", [Text "A"; Text "B"]);
   ("n_rtup_ternak_usaha_ayam", [Int 0; Int 5])].

Definition der_none : table :=
  [("kec", [Text "A"; Text "B"]);
   ("populasi_ayam", [Int 10; Int 20])].

(** The sub-region column is itself matched (by the family [k] and the
    keyword [e]); the reference sheet holds the codes as text, the
    derived sheet as numbers. *)
Definition ref_codes : table :=
  [("kec", [Text "1"; Text "A"]);
   ("n_rtup_ternak_usaha_x", [Int 1; Int 0]);
   ("n_rtup_ternak_usaha_k", [Int 0; Int 0])].

Definition der_codes : table :=
  [("kec", [Int 1]);
   ("xe", [Int 10])].

(** The points at which the window is probed, and a missing value. *)
Definition probes : series :=
  [Int (-1); Int 0; Int 1; Int 2; Int 3; Int 4; NaN].

(** A reference sheet with no row of region 7205. *)
Definition ref_elsewhere : table :=
  [("kab", [Int 7201; Int 7201]);
   ("kec", [Text "A"; Text "B"]);
   ("id_kab", [Text "[7201] Banggai"; Text "[7201] Banggai"]);
   ("n_rtup_ternak_usaha_ayam_kampung", [Int 1; Int 2])].

(** A derived sheet with no row of region 7205. *)
Definition der_elsewhere : table :=
  [("kab", [Int 7201; Int 7201]);
   ("kec", [Text "A"; Text "B"]);
   ("populasi_ayam_kampung", [Int 10; Int 20])].

End Example.

(** ** The row filter and the label, on the content of a frame *)

(** All the columns of [t] have [n] rows. *)
Definition rectangular (t : table) (n : nat) : Prop :=
  Forall (λ c : string * series, length c.2 = n) t.

(** The content of the frame that [filter_kab] makes. *)
Definition filter_rows (t : table) (kab_code : Z) : result table :=
  kab ← Pd.getitem t "kab";
  Ok (Pd.select_rows (Pd.eq_int kab_code <$> kab) t).

(** What [get_kabupaten_name] returns for a frame of content [t]. *)
Definition kabupaten_name_of (t : table) (kab_code : Z) : result string :=
  rows ← filter_rows t kab_code;
  kab_row ← Pd.iloc0 rows;
  match Pd.get kab_row "id_kab" (Text (Str.of_Z kab_code)) with
  | Text s => Ok (clean_kabupaten_name s)
  | _ => Raise TypeError
  end.

(** Row [i] is the first row of region [kab_code]. *)
Definition first_row_of (kab : series) (kab_code : Z) (i : nat) : Prop :=
  kab !! i = Some (Int kab_code) ∧ ∀ j, (j < i)%nat → kab !! j ≠ Some (Int kab_code).

(** Row [i] of the derived table is masked for the column [name]: its
    sub-region code is in the masked set of a family column that
    matches [name]. *)
Definition masked_by (ref : table) (column_keywords : list string) (der : table)
    (name : string) (i : nat) : Prop :=
  ∃ col kecs k0,
    family ref col ∧ matches (animal_of col) column_keywords name = true ∧
    Pd.getitem der "kec" = Ok kecs ∧ kecs !! i = Some k0 ∧
    in_masked_set ref col k0.

(** The family column [col] has a column of [tpl] to mask. *)
Definition has_match (column_keywords : list string) (tpl : table) (col : string) : Prop :=
  ∃ c, c ∈ Pd.columns tpl ∧ matches (animal_of col) column_keywords c = true.

(** ** More sample sheets *)

Module Sample.

(** A reference sheet where a count was typed as a dash. *)
Definition ref_dash : table :=
  [("kab", [Int 7205; Int 7205]);
   ("kec", [Text "A"; Text "B"]);
   ("id_kab", [Text "[7205] Kota Bandung"; Text "[7205] Kota Bandung"]);
   ("n_rtup_ternak_usaha_ayam_kampung", [Int 1; Text "-"])].

Definition der_two : table :=
  [("kab", [Int 7205; Int 7205]);
   ("kec", [Text "A"; Text "B"]);
   ("populasi_ayam_kampung", [Int 10; Int 20]);
   ("rerata_sapi", [Int 3; Int 4])].

(** Two families that match the same derived column. *)
Definition ref_two : table :=
  [("kec", [Text "A"; Text "B"; Text "C"]);
   ("n_rtup_ternak_usaha_ayam", [Int 1; Int 0; Int 0]);
   ("n_rtup_ternak_usaha_ayam_kampung", [Int 0; Int 2; Int 0])].

Definition der_same : table :=
  [("kec", [Text "A"; Text "B"; Text "C"]);
   ("populasi_ayam_kampung", [Int 10; Int 20; Int 30])].

(** A family column with missing values; the sub-region [B] has two
    reference rows, one of them in the window. *)
Definition ref_missing : table :=
  [("kec", [Text "A"; Text "B"; Text "B"]);
   ("n_rtup_ternak_usaha_ayam", [NaN; Int 1; NaN])].

Definition der_missing : table :=
  [("kec", [Text "A"; Text "B"]);
   ("populasi_ayam", [Int 10; Int 20])].

(** The reference sheet holds the codes as text and the derived sheet
    as numbers; the family [k] matches the sub-region column under
    the keyword [e], the family [x] the column [xe]. *)
Definition ref_text_codes : table :=
  [("kec", [Text "1"]);
   ("n_rtup_ternak_usaha_k", [Int 0]);
   ("n_rtup_ternak_usaha_x", [Int 1])].

Definition der_number_codes : table :=
  [("kec", [Int 1]);
   ("xe", [Int 10])].

End Sample.

(** ** More vocabulary of the pass *)

(** A column of numbers and missing values. *)
Definition numeric (a : series) : Prop := Forall (λ c, ∀ s, c ≠ Text s) a.

(** What the pass needs of a family column that has a column to mask:
    a [kec] column in both tables, and no text in the family column. *)
Definition maskable (ref tpl : table) (col : string) : Prop :=
  "kec" ∈ Pd.columns ref ∧ "kec" ∈ Pd.columns tpl ∧
  ∀ a, Pd.getitem ref col = Ok a → numeric a.

(** In the column [name] of [t], every row whose sub-region code is in
    the masked set of [col] holds the sentinel. *)
Definition sentinel_where_masked (ref : table) (col : string) (t : table)
    (name : string) : Prop :=
  ∀ s kecs i k0,
    Pd.getitem t name = Ok s → Pd.getitem t "kec" = Ok kecs →
    (i < length s)%nat → kecs !! i = Some k0 → in_masked_set ref col k0 →
    s !! i = Some (Text "NA").

(** The invariant of the pass where the [kec] column is not matched:
    the columns and the [kec] column are those of [der], and a cell
    holds what it held, or the text of it, or the sentinel in a row
    masked for its column. *)
Definition pass_invariant_by (ref : table) (column_keywords : list string)
    (der t : table) : Prop :=
  Pd.columns t = Pd.columns der ∧
  Pd.getitem t "kec" = Pd.getitem der "kec" ∧
  ∀ name s, Pd.getitem der name = Ok s →
    ∃ s', Pd.getitem t name = Ok s' ∧ length s' = length s ∧
      ∀ i x, s !! i = Some x →
        ∃ y, s' !! i = Some y ∧
             (y = x ∨ y = Text (Pd.cell_str x) ∨
              (y = Text "NA" ∧ masked_by ref column_keywords der name i)).

(** ** The prompts

    [input] and [print] on a terminal: the lines still to be read, and
    what has been written, prompts and printed lines in order.
    Reading past the last line raises [EOFError]. *)

Module Console.

Record terminal := Terminal {
  stdin : list string;
  screen : list string;
}.

Inductive outcome (A : Type) :=
  | Returned (a : A)
  | EOFError.
Arguments Returned {A} a.
Arguments EOFError {A}.

Definition IO (A : Type) : Type := terminal → outcome A * terminal.

#[global] Instance IO_ret : MRet IO := λ A a t, (Returned a, t).
#[global] Instance IO_bind : MBind IO := λ A B f m t,
  match m t with
  | (Returned a, t') => f a t'
  | (EOFError, t') => (EOFError, t')
  end.

Definition print (line : string) : IO unit := λ t,
  (Returned (), Terminal (stdin t) (screen t ++ [line])).

Definition input (prompt : string) : IO string := λ t,
  match stdin t with
  | [] => (EOFError, Terminal [] (screen t ++ [prompt]))
  | line :: rest => (Returned line, Terminal rest (screen t ++ [prompt]))
  end.

(** A type to convert the input to: the conversion, which fails with
    [ValueError], the [__name__] of the type, and [str] on its values. *)
Record input_type (A : Type) := InputType {
  convert : string → option A;
  type_name : string;
  show : A → string;
}.
Arguments convert {A} _ _.
Arguments type_name {A} _.
Arguments show {A} _ _.

(** [str]: the conversion is the identity. *)
Definition str : input_type string := InputType string Some "str" id.

(** [int], its conversion of a line left as a parameter. *)
Definition int (of_string : string → option Z) : input_type Z :=
  InputType Z of_string "int" Str.of_Z.

(** The loop of [get_input_with_default], over the lines to be read:
    each turn writes the prompt and reads a line. *)
Fixpoint get_input_with_default_from {A} (prompt : string) (default : A)
    (ty : input_type A) (lines : list string) (scr : list string)
    : outcome A * terminal :=
  let scr := scr ++ [prompt +:+ " (default: " +:+ show ty default +:+ "): "] in
  match lines with
  | [] => (EOFError, Terminal [] scr)
  | user_input :: rest =>
      if String.eqb user_input "" then (Returned default, Terminal rest scr)
      else match convert ty user_input with
           | Some a => (Returned a, Terminal rest scr)
           | None =>
               get_input_with_default_from prompt default ty rest
                 (scr ++ ["Invalid input. Please enter a valid " +:+ type_name ty +:+ "."])
           end
  end.

Definition get_input_with_default {A} (prompt : string) (default : A)
    (ty : input_type A) : IO A := λ t,
  get_input_with_default_from prompt default ty (stdin t) (screen t).

(** [get_column_keywords], with its prompts. *)
Definition get_column_keywords : IO (list string) :=
  print "Enter keywords for columns in derived table (comma-separated):";;
  print "1. rerata";;
  print "2. populasi";;
  print "3. Other (specify)";;
  choice ← get_input_with_default "Choose option (1/2/3)" "1" str;
  if String.eqb choice "1" then mret ["rerata"]
  else if String.eqb choice "2" then mret ["populasi"]
  else if String.eqb choice "3" then
    keywords ← input "Enter custom keywords (comma-separated): ";
    mret ((λ k, Str.lower (Str.strip k)) <$> Str.split "," keywords)
  else
    print "Invalid choice. Using default 'rerata'.";;
    mret ["rerata"].

Definition get_user_input (of_string : string → option Z)
    : IO (Z * string * string * list string) :=
  kab_code ← get_input_with_default "Masukkan kode kabupaten (contoh: 7205): "
                7205 (int of_string);
  ref_table ← get_input_with_default "Masukkan kode tabel acuan (contoh: 6_06): "
                "6_06" str;
  derived_table ← get_input_with_default "Masukkan kode tabel turunan (contoh: 6_30): "
                "6_30" str;
  column_keywords ← get_column_keywords;
  mret (kab_code, ref_table, derived_table, column_keywords).

(** The line that a turn of the loop writes before it reads. *)
Definition prompt_line {A} (prompt : string) (default : A) (ty : input_type A) : string :=
  prompt +:+ " (default: " +:+ show ty default +:+ "): ".

Definition invalid_line {A} (ty : input_type A) : string :=
  "Invalid input. Please enter a valid " +:+ type_name ty +:+ ".".

(** What a line answers: nothing stands for the default. *)
Definition answer {A} (default : A) (ty : input_type A) (line : string) : option A :=
  if String.eqb line "" then Some default else convert ty line.

End Console.

(** The characters of an upper-cased label. *)
Definition label_char (c : ascii) : bool :=
  Str.is_upper c || Str.is_digit c || Ascii.eqb c "_".

(** * Lemmas *)

(** ** Strings: prefixes, substrings, splitting *)

Lemma app_cons_s x (a b : string) : String x a +:+ b = String x (a +:+ b).
Proof. reflexivity. Qed.

Lemma app_nil_s (b : string) : "" +:+ b = b.
Proof. reflexivity. Qed.

Lemma app_assoc_s (a b c : string) : (a +:+ b) +:+ c = a +:+ (b +:+ c).
Proof. induction a as [|x a IH]; [done|]. by rewrite !app_cons_s, IH. Qed.

Lemma app_nil_r_s (a : string) : a +:+ "" = a.
Proof. induction a as [|x a IH]; [done|]. by rewrite app_cons_s, IH. Qed.

Lemma prefix_spec p s : String.prefix p s = true ↔ ∃ q, s = p +:+ q.
Proof.
  revert s. induction p as [|a p IH]; intros s.
  - split; [intros _; by exists s|]. intros _. by destruct s.
  - destruct s as [|b s]; simpl.
    + split; [done|]. by intros [q [=]].
    + destruct (Ascii.ascii_dec a b) as [->|Hne].
      * rewrite IH. split; intros [q Hq]; exists q.
        -- by rewrite app_cons_s, Hq.
        -- rewrite app_cons_s in Hq. congruence.
      * split; [done|]. intros [q Hq]. rewrite app_cons_s in Hq. congruence.
Qed.

Lemma contains_nil sub : Str.contains sub "" = String.prefix sub "".
Proof. apply orb_false_r. Qed.

Lemma contains_cons sub c s :
  Str.contains sub (String c s) = String.prefix sub (String c s) || Str.contains sub s.
Proof. reflexivity. Qed.

Lemma contains_spec sub s : Str.contains sub s = true ↔ substring sub s.
Proof.
  unfold substring. induction s as [|c s IH].
  - rewrite contains_nil, prefix_spec. split.
    + intros [q Hq]. by exists "", q.
    + intros ([|? p] & q & Hq); [by exists q|done].
  - rewrite contains_cons, orb_true_iff, prefix_spec, IH. split.
    + intros [[q Hq]|(p & q & Hq)]; [by exists "", q|].
      exists (String c p), q. by rewrite app_cons_s, Hq.
    + intros ([|x p] & q & Hq); [left; by exists q|].
      right. exists p, q. rewrite app_cons_s in Hq. congruence.
Qed.

Lemma split_cons sep s : ∃ w ws, Str.split sep s = w :: ws.
Proof.
  induction s as [|c s (w & ws & IH)]; simpl; [by eauto|].
  destruct (Ascii.eqb c sep); [by eauto|]. rewrite IH. eauto.
Qed.

Lemma concat_cons2 sep x y l :
  String.concat sep (x :: y :: l) = x +:+ sep +:+ String.concat sep (y :: l).
Proof. reflexivity. Qed.

Lemma join_split sep s : Str.join (String sep "") (Str.split sep s) = s.
Proof.
  unfold Str.join. induction s as [|c s IH]; [done|].
  destruct (split_cons sep s) as (w & ws & E). simpl. rewrite E in IH |- *.
  destruct (Ascii.eqb_spec c sep) as [->|Hne].
  - by rewrite concat_cons2, IH.
  - destruct ws as [|w' ws]; [simpl in *; by subst|].
    rewrite concat_cons2 in IH |- *. by rewrite app_cons_s, IH.
Qed.

(** The animal of a family column is what follows the family prefix. *)
Lemma animal_of_family rest :
  animal_of ("n_rtup_ternak_usaha_" +:+ rest) = rest.
Proof.
  unfold animal_of. rewrite !app_cons_s, app_nil_s. simpl.
  destruct (split_cons "_" rest) as (w & ws & E). rewrite E. simpl.
  change (Str.join "_" (w :: ws) = rest). rewrite <-E. apply join_split.
Qed.

Lemma startswith_family col :
  Str.startswith col "n_rtup_ternak_usaha_" = true →
  col = "n_rtup_ternak_usaha_" +:+ animal_of col.
Proof.
  unfold Str.startswith. intros [q ->]%prefix_spec. by rewrite animal_of_family.
Qed.

(** ** Strings: case *)

Lemma lower_char_not_upper c : Str.is_upper (Str.lower_char c) = false.
Proof. by destruct c as [[] [] [] [] [] [] [] []]. Qed.

Lemma lower_char_idem c : Str.lower_char (Str.lower_char c) = Str.lower_char c.
Proof. by destruct c as [[] [] [] [] [] [] [] []]. Qed.

Lemma any_app p a b : Str.any p (a +:+ b) = Str.any p a || Str.any p b.
Proof. induction a as [|x a IH]; simpl; [done|]. by rewrite IH, orb_assoc. Qed.


Lemma lower_no_upper s : Str.any Str.is_upper (Str.lower s) = false.
Proof.
  unfold Str.lower. induction s as [|c s IH]; simpl; [done|].
  by rewrite lower_char_not_upper, IH.
Qed.

Lemma lower_idem s : Str.lower (Str.lower s) = Str.lower s.
Proof.
  unfold Str.lower. induction s as [|c s IH]; simpl; [done|].
  by rewrite lower_char_idem, IH.
Qed.

Lemma lower_fixed s : Str.lower s = s ↔ Str.any Str.is_upper s = false.
Proof.
  unfold Str.lower. induction s as [|c s IH]; simpl; [done|].
  rewrite orb_false_iff, <-IH. unfold Str.lower_char.
  destruct (Str.is_upper c) eqn:E.
  - split; [|by intros [? _]]. intros [= H _]. exfalso.
    pose proof (lower_char_not_upper c) as H'. unfold Str.lower_char in H'.
    rewrite E, H in H'. congruence.
  - split; [intros [= ?]; done|]. intros [_ H]. by rewrite H.
Qed.

(** A keyword with an upper-case letter occurs in no lower-cased name. *)
Lemma contains_lower_upper keyword c :
  Str.any Str.is_upper keyword = true →
  Str.contains keyword (Str.lower c) = false.
Proof.
  intros Hk. apply not_true_is_false. intros (p & q & H)%contains_spec.
  pose proof (lower_no_upper c) as Hc. rewrite H, !any_app, Hk in Hc.
  by rewrite orb_true_r in Hc.
Qed.

(** ** The regular expressions *)

Lemma sub_nonword_words b w rest :
  Str.all Str.is_word w = true → w ≠ "" ∨ b = false →
  Re.sub_nonword_from b (w +:+ rest) = w +:+ Re.sub_nonword_from false rest.
Proof.
  revert b. induction w as [|c w IH]; intros b Hw Hb.
  - by destruct Hb as [?| ->].
  - simpl in Hw. apply andb_true_iff in Hw as [Hc Hw].
    rewrite !app_cons_s. simpl. rewrite Hc. f_equal. apply IH; auto.
Qed.




Lemma sub_nonword_all_word b s :
  Str.all Str.is_word (Re.sub_nonword_from b s) = true.
Proof.
  revert b. induction s as [|c s IH]; intros b; simpl; [done|].
  destruct (Str.is_word c) eqn:Hc; simpl; [by rewrite Hc, IH|].
  destruct b; simpl; by rewrite IH.
Qed.

Lemma sub_bracketed_text pre x :
  Str.all Re.not_open pre = true →
  Re.sub_bracketed_from Re.Copy (pre +:+ x) = pre +:+ Re.sub_bracketed_from Re.Copy x.
Proof.
  induction pre as [|c pre IH]; intros Hp; [done|].
  simpl in Hp. apply andb_true_iff in Hp as [Hc Hp].
  rewrite !app_cons_s. simpl. apply negb_true_iff in Hc as ->. simpl.
  by rewrite IH.
Qed.






Lemma sub_bracketed_none s :
  Str.all Re.not_open s = true → Re.sub_bracketed s = s.
Proof.
  intros Hs. unfold Re.sub_bracketed.
  rewrite <-(app_nil_r_s s) at 1. rewrite sub_bracketed_text by done.
  apply app_nil_r_s.
Qed.

(** ** Trimming *)

Lemma lstrip_spec s :
  ∃ l, s = l +:+ Str.lstrip s ∧ Str.all Str.is_space l = true ∧
       Str.starts Str.not_space (Str.lstrip s) = true.
Proof.
  induction s as [|c s (l & E & Hl & Hs)]; simpl.
  - by exists "".
  - destruct (Str.is_space c) eqn:Hc.
    + exists (String c l). rewrite app_cons_s, <-E. simpl. by rewrite Hc, Hl.
    + exists "". simpl. unfold Str.not_space. by rewrite Hc.
Qed.

Lemma rstrip_spec s :
  ∃ r, s = Str.rstrip s +:+ r ∧ Str.all Str.is_space r = true ∧
       Str.ends Str.not_space (Str.rstrip s) = true.
Proof.
  induction s as [|c s (r & E & Hr & Hs)]; simpl.
  - by exists "".
  - destruct (Str.rstrip s) as [|c' s'] eqn:Es.
    + rewrite app_nil_s in E. subst r.
      destruct (Str.is_space c) eqn:Hc.
      * exists (String c s). rewrite app_nil_s. simpl. by rewrite Hc, Hr.
      * exists s. simpl. unfold Str.not_space. by rewrite Hc.
    + exists r. rewrite app_cons_s, <-E. done.
Qed.

Lemma lstrip_ends s :
  Str.ends Str.not_space s = true → Str.ends Str.not_space (Str.lstrip s) = true.
Proof.
  induction s as [|c s IH]; simpl; [done|].
  destruct s as [|c' s'].
  - unfold Str.not_space. intros Hc%negb_true_iff. by rewrite Hc; simpl; rewrite Hc.
  - intros H. destruct (Str.is_space c); [by apply IH|done].
Qed.

(** [strip] takes white space off both ends, and nothing else. *)
Lemma strip_spec s :
  ∃ l r, s = l +:+ Str.strip s +:+ r ∧
         Str.all Str.is_space l = true ∧ Str.all Str.is_space r = true ∧
         Str.starts Str.not_space (Str.strip s) = true ∧
         Str.ends Str.not_space (Str.strip s) = true.
Proof.
  unfold Str.strip.
  destruct (rstrip_spec s) as (r & Er & Hr & Hends).
  destruct (lstrip_spec (Str.rstrip s)) as (l & El & Hl & Hstarts).
  exists l, r. split_and!; [|done..|by apply lstrip_ends].
  by rewrite <-app_assoc_s, <-El.
Qed.

(** ** Running the frame operations *)

Lemma bind_run {A B} (m : M A) (f : A → M B) w :
  (m ≫= f) w = match m w with
               | (Ok a, w') => f a w'
               | (Raise e, w') => (Raise e, w')
               end.
Proof. reflexivity. Qed.

Lemma read_run w df t :
  frames w !! df = Some t → read df w = (Ok t, w).
Proof. intros H. unfold read. by rewrite (lookup_total_correct _ _ _ H). Qed.

Lemma frame_columns_run w df t :
  frames w !! df = Some t → frame_columns df w = (Ok (Pd.columns t), w).
Proof. intros H. unfold frame_columns. by rewrite bind_run, (read_run _ _ _ H). Qed.

Lemma frame_getitem_run w df t name :
  frames w !! df = Some t → frame_getitem df name w = (Pd.getitem t name, w).
Proof. intros H. unfold frame_getitem. by rewrite bind_run, (read_run _ _ _ H). Qed.

Lemma frame_loc_getitem_run w df t mask name :
  frames w !! df = Some t →
  frame_loc_getitem df mask name w = (Pd.loc_getitem t mask name, w).
Proof. intros H. unfold frame_loc_getitem. by rewrite bind_run, (read_run _ _ _ H). Qed.

Lemma frame_setitem_run w df t name vals :
  frames w !! df = Some t →
  frame_setitem df name vals w = (Ok (), set_frames <[df:=Pd.setitem t name vals]> w).
Proof. intros H. unfold frame_setitem. by rewrite bind_run, (read_run _ _ _ H). Qed.

Lemma frame_loc_setitem_run w df t mask name value :
  frames w !! df = Some t →
  frame_loc_setitem df mask name value w =
  (Ok (), set_frames <[df:=Pd.loc_setitem t mask name value]> w).
Proof. intros H. unfold frame_loc_setitem. by rewrite bind_run, (read_run _ _ _ H). Qed.

Lemma only_frame_refl df w : only_frame df w w.
Proof. done. Qed.

Lemma only_frame_trans df w1 w2 w3 :
  only_frame df w1 w2 → only_frame df w2 w3 → only_frame df w1 w3.
Proof.
  intros (F1 & B1 & S1) (F2 & B2 & S2). split_and!; [|congruence..].
  intros l Hl. rewrite F2, F1; done.
Qed.

Lemma only_frame_insert df t w : only_frame df w (set_frames <[df:=t]> w).
Proof. split_and!; [|done..]. intros l Hl. simpl. by rewrite lookup_insert_ne. Qed.

Lemma only_frame_stdout df f w : only_frame df w (set_stdout f w).
Proof. done. Qed.

Section runs.
Context (lr lt : loc) (ref : table) (Hne : lr ≠ lt).

Lemma rule_mask_run w col :
  frames w !! lr = Some ref →
  rule_mask lr col w = (Tab.rule_mask ref col, w).
Proof.
  intros Hr. unfold rule_mask, Tab.rule_mask.
  rewrite bind_run, (frame_getitem_run _ _ _ _ Hr).
  destruct (Pd.getitem ref col) as [a|e] eqn:Ea; simpl; [|done].
  rewrite bind_run. unfold lift.
  destruct (Pd.gt a 0) as [above|e]; simpl; [|done].
  rewrite bind_run, (frame_getitem_run _ _ _ _ Hr), Ea, bind_run.
  destruct (Pd.lt a 3) as [below|e]; simpl; done.
Qed.

Lemma mask_column_run w col mc tpl :
  frames w !! lr = Some ref → frames w !! lt = Some tpl →
  ∃ w', mask_column lr lt col mc w = ((λ _, ()) <$> Tab.mask_column ref col tpl mc, w') ∧
        steps_to lt w (Tab.mask_column ref col tpl mc) w' ∧ stdout w' = stdout w.
Proof.
  intros Hr Ht. unfold mask_column, Tab.mask_column, Tab.matched_kec, steps_to.
  rewrite bind_run, (frame_getitem_run _ _ _ _ Ht).
  destruct (Pd.getitem tpl mc) as [s|e]; simpl.
  2:{ exists w. split_and!; eauto using only_frame_refl. }
  rewrite bind_run, (frame_setitem_run _ _ _ _ _ Ht).
  set (tpl1 := Pd.setitem tpl mc (Pd.astype_str s)).
  set (w1 := set_frames _ w).
  assert (H1r : frames w1 !! lr = Some ref) by (simpl; by rewrite lookup_insert_ne).
  assert (H1t : frames w1 !! lt = Some tpl1) by (simpl; by rewrite lookup_insert_eq).
  assert (H1o : only_frame lt w w1) by apply only_frame_insert.
  rewrite bind_run, (rule_mask_run _ _ H1r).
  destruct (Tab.rule_mask ref col) as [mask|e]; simpl.
  2:{ exists w1. split_and!; eauto. }
  rewrite bind_run, (frame_loc_getitem_run _ _ _ _ _ H1r).
  destruct (Pd.loc_getitem ref mask "kec") as [matched|e]; simpl.
  2:{ exists w1. split_and!; eauto. }
  rewrite bind_run, (frame_getitem_run _ _ _ _ H1t).
  destruct (Pd.getitem tpl1 "kec") as [kec|e]; simpl.
  2:{ exists w1. split_and!; eauto. }
  rewrite (frame_loc_setitem_run _ _ _ _ _ _ H1t).
  eexists. split; [done|]. split_and!; [| |done].
  - eapply only_frame_trans; [done|apply only_frame_insert].
  - simpl. by rewrite lookup_insert_eq.
Qed.


Lemma for_run {A} (body : A → M unit) (f : table → A → result table)
    (out : A → list string) :
  (∀ x w tpl,
     frames w !! lr = Some ref → frames w !! lt = Some tpl →
     ∃ w', body x w = ((λ _, ()) <$> f tpl x, w') ∧ steps_to lt w (f tpl x) w' ∧
           (is_Ok (f tpl x) → stdout w' = stdout w ++ out x)) →
  ∀ l w tpl,
    frames w !! lr = Some ref → frames w !! lt = Some tpl →
    ∃ w', for_ l body w = ((λ _, ()) <$> Tab.foldM f l tpl, w') ∧
          steps_to lt w (Tab.foldM f l tpl) w' ∧
          (is_Ok (Tab.foldM f l tpl) → stdout w' = stdout w ++ (l ≫= out)).
Proof.
  intros Hbody l. induction l as [|x l IH]; intros w tpl Hr Ht; simpl.
  - exists w. split_and!; [done|by split|]. intros _. by rewrite app_nil_r.
  - destruct (Hbody x w tpl Hr Ht) as (w1 & E1 & [O1 T1] & L1).
    rewrite bind_run, E1.
    destruct (f tpl x) as [tpl1|e]; simpl.
    + assert (Hr1 : frames w1 !! lr = Some ref) by (destruct O1 as [F _]; by rewrite F).
      destruct (IH w1 tpl1 Hr1 T1) as (w2 & E2 & [O2 T2] & L2).
      exists w2. split_and!; [done| |].
      * split; [by eapply only_frame_trans|done].
      * intros Hok. rewrite (L2 Hok), (L1 (ex_intro _ _ eq_refl)), <-(assoc_L (++)); done.
    + exists w1. split_and!; [done|by split|]. by intros [].
Qed.

Lemma bind_no_lines {A} (l : list A) : l ≫= (λ _, @nil string) = [].
Proof. induction l as [|x l IH]; [done|]. by rewrite bind_cons, IH. Qed.

Lemma mask_family_run kws col w tpl :
  frames w !! lr = Some ref → frames w !! lt = Some tpl →
  ∃ w', mask_family lr lt kws col w = ((λ _, ()) <$> Tab.mask_family ref kws tpl col, w') ∧
        steps_to lt w (Tab.mask_family ref kws tpl col) w' ∧
        (is_Ok (Tab.mask_family ref kws tpl col) →
         stdout w' = stdout w ++ Tab.family_line col).
Proof.
  intros Hr Ht. unfold mask_family, Tab.mask_family, Tab.family_line.
  destruct (Str.startswith col "n_rtup_ternak_usaha_").
  - rewrite bind_run. unfold print at 1.
    set (w1 := set_stdout _ w).
    assert (Hr1 : frames w1 !! lr = Some ref) by done.
    assert (Ht1 : frames w1 !! lt = Some tpl) by done.
    rewrite bind_run, (frame_columns_run _ _ _ Ht1).
    destruct (for_run (mask_column lr lt col) (Tab.mask_column ref col) (λ _, [])) with
      (l := Tab.matching_cols col kws tpl) (w := w1) (tpl := tpl)
      as (w2 & E2 & [O2 T2] & L2); [|done..|].
    { intros x w' tpl' Hr' Ht'.
      destruct (mask_column_run w' col x tpl' Hr' Ht') as (w'' & E & S & L).
      exists w''. split_and!; [done..|]. intros _. by rewrite app_nil_r. }
    exists w2. split_and!; [done| |].
    + split; [|done]. eapply only_frame_trans; [|done]. apply only_frame_stdout.
    + intros Hok. rewrite (L2 Hok), bind_no_lines, app_nil_r. done.
  - exists w. split_and!; [done|by split|]. intros _. by rewrite app_nil_r.
Qed.

Lemma apply_rule_run kws w tpl :
  frames w !! lr = Some ref → frames w !! lt = Some tpl →
  ∃ w', apply_rule lr lt kws w = ((λ _, ()) <$> Tab.apply_rule ref kws tpl, w') ∧
        steps_to lt w (Tab.apply_rule ref kws tpl) w' ∧
        (is_Ok (Tab.apply_rule ref kws tpl) →
         stdout w' = stdout w ++ Tab.processing_log (Pd.columns ref)).
Proof.
  intros Hr Ht. unfold apply_rule, Tab.apply_rule.
  rewrite bind_run, (frame_columns_run _ _ _ Hr).
  apply for_run; [|done..].
  intros x w' tpl'. apply mask_family_run.
Qed.

End runs.

Lemma build_template_run lr ld ref der kws w :
  frames w !! lr = Some ref → frames w !! ld = Some der →
  let lt := fresh (dom (frames w)) in
  ∃ w', build_template lr ld kws w = ((λ _, lt) <$> Tab.apply_rule ref kws der, w') ∧
        frames w !! lt = None ∧
        only_frame lt w w' ∧
        (∀ tpl, Tab.apply_rule ref kws der = Ok tpl →
           frames w' !! lt = Some tpl ∧
           stdout w' = stdout w ++ Tab.processing_log (Pd.columns ref)).
Proof.
  intros Hr Hd lt.
  assert (Hfresh : frames w !! lt = None).
  { apply not_elem_of_dom. apply is_fresh. }
  assert (Hne : lr ≠ lt) by congruence.
  unfold build_template. rewrite bind_run. unfold frame_copy.
  rewrite bind_run, (read_run _ _ _ Hd). unfold new_frame. fold lt.
  set (w1 := set_frames _ w).
  assert (Hr1 : frames w1 !! lr = Some ref) by (simpl; by rewrite lookup_insert_ne).
  assert (Ht1 : frames w1 !! lt = Some der) by (simpl; by rewrite lookup_insert_eq).
  destruct (apply_rule_run lr lt ref Hne kws w1 der Hr1 Ht1) as (w2 & E & [O T] & L).
  rewrite bind_run, E.
  exists w2. split_and!.
  - by destruct (Tab.apply_rule ref kws der).
  - done.
  - eapply only_frame_trans; [apply only_frame_insert|done].
  - intros tpl Htpl. rewrite Htpl in T, L. split; [done|]. apply L. by eexists.
Qed.

(** ** Columns of a table *)

Lemma getitem_setitem_eq t name vals :
  Pd.getitem (Pd.setitem t name vals) name = Ok vals.
Proof.
  induction t as [|[n v] t IH]; simpl.
  - by rewrite String.eqb_refl.
  - destruct (String.eqb n name) eqn:E; simpl; by rewrite ?E.
Qed.

Lemma getitem_setitem_ne t name name' vals :
  name ≠ name' →
  Pd.getitem (Pd.setitem t name vals) name' = Pd.getitem t name'.
Proof.
  intros Hne. induction t as [|[n v] t IH]; simpl.
  - by apply String.eqb_neq in Hne as ->.
  - destruct (String.eqb n name) eqn:E; simpl.
    + apply String.eqb_eq in E as ->. by apply String.eqb_neq in Hne as ->.
    + by rewrite IH.
Qed.

Lemma setitem_id t name vals :
  Pd.getitem t name = Ok vals → Pd.setitem t name vals = t.
Proof.
  induction t as [|[n v] t IH]; simpl; [done|].
  destruct (String.eqb n name); [by intros [= ->]|]. intros H. by rewrite IH.
Qed.

Lemma setitem_setitem t name vals vals' :
  Pd.setitem (Pd.setitem t name vals) name vals' = Pd.setitem t name vals'.
Proof.
  induction t as [|[n v] t IH]; simpl.
  - by rewrite String.eqb_refl.
  - destruct (String.eqb n name) eqn:E; simpl; rewrite E; [done|]. by rewrite IH.
Qed.

Lemma columns_setitem t name vals vals' :
  Pd.getitem t name = Ok vals → Pd.columns (Pd.setitem t name vals') = Pd.columns t.
Proof.
  unfold Pd.columns. induction t as [|[n v] t IH]; simpl; [done|].
  destruct (String.eqb n name); [done|]. intros H. simpl. f_equal. by apply IH.
Qed.

Lemma getitem_columns t name :
  name ∈ Pd.columns t ↔ is_Ok (Pd.getitem t name).
Proof.
  unfold Pd.columns, is_Ok. induction t as [|[n v] t IH]; simpl.
  - split; [by intros ?%elem_of_nil|by intros [? [=]]].
  - rewrite elem_of_cons, IH. destruct (String.eqb_spec n name) as [->|Hne].
    + split; eauto.
    + split; [intros [?|?]; [congruence|done]|eauto].
Qed.

Lemma loc_setitem_present t mask name value s :
  Pd.getitem t name = Ok s →
  Pd.loc_setitem t mask name value = Pd.setitem t name (Pd.assign mask value s).
Proof. intros H. unfold Pd.loc_setitem. by rewrite H. Qed.

(** The cell of a column after [df.loc[mask, name] = value]. *)
Lemma assign_lookup (mask : list bool) value (s : list cell) i :
  Pd.assign mask value s !! i =
  (λ x, if decide (mask !! i = Some true) then value else x) <$> s !! i.
Proof.
  revert mask i. induction s as [|x s IH]; intros mask i.
  { by destruct mask. }
  destruct mask as [|b mask].
  - change (Pd.assign [] value (x :: s)) with (x :: s).
    simpl. by destruct (_ !! _).
  - destruct i as [|i]; simpl; [by destruct b|apply IH].
Qed.

Lemma assign_length mask value s : length (Pd.assign mask value s) = length s.
Proof.
  revert mask. induction s as [|x s IH]; intros [|b mask]; simpl; try done.
  by rewrite IH.
Qed.

Lemma isin_lookup (s values : list cell) i :
  Pd.isin s values !! i = Some true ↔ ∃ c, s !! i = Some c ∧ c ∈ values.
Proof.
  unfold Pd.isin. rewrite list_lookup_fmap. destruct (s !! i) as [c|]; simpl.
  - split.
    + intros [= H%bool_decide_eq_true]. eauto.
    + intros (c' & [= <-] & H). by rewrite bool_decide_eq_true_2.
  - split; [done|]. by intros (? & ? & _).
Qed.

Lemma astype_str_lookup (s : list cell) i :
  Pd.astype_str s !! i = (λ c, Text (Pd.cell_str c)) <$> s !! i.
Proof. apply list_lookup_fmap. Qed.

(** ** One step of the loop, on the tables *)

Lemma mask_column_eq ref col tpl mc :
  Tab.mask_column ref col tpl mc =
  s ← Pd.getitem tpl mc;
  matched ← Tab.matched_kec ref col;
  kec ← Pd.getitem (Pd.setitem tpl mc (Pd.astype_str s)) "kec";
  Ok (Pd.setitem tpl mc (Pd.assign (Pd.isin kec matched) (Text "NA") (Pd.astype_str s))).
Proof.
  unfold Tab.mask_column. destruct (Pd.getitem tpl mc) as [s|e]; simpl; [|done].
  destruct (Tab.matched_kec ref col) as [matched|e]; simpl; [|done].
  destruct (Pd.getitem _ "kec") as [kec|e]; simpl; [|done].
  rewrite (loc_setitem_present _ _ _ _ (Pd.astype_str s)) by apply getitem_setitem_eq.
  by rewrite setitem_setitem.
Qed.

Lemma mask_column_columns ref col tpl mc tpl' :
  Tab.mask_column ref col tpl mc = Ok tpl' → Pd.columns tpl' = Pd.columns tpl.
Proof.
  rewrite mask_column_eq. destruct (Pd.getitem tpl mc) as [s|e] eqn:Es; simpl; [|done].
  destruct (Tab.matched_kec ref col) as [matched|e]; simpl; [|done].
  destruct (Pd.getitem _ "kec") as [kec|e]; simpl; [|done].
  intros [= <-]. by eapply columns_setitem.
Qed.

(** ** Folding a fallible step over a list *)

Lemma foldM_inv {A} (f : table → A → result table) (P : A → Prop) (I : table → Prop) :
  (∀ t x t', P x → I t → f t x = Ok t' → I t') →
  ∀ l t t', Forall P l → I t → Tab.foldM f l t = Ok t' → I t'.
Proof.
  intros Hstep l. induction l as [|x l IH]; intros t t' Hl Ht; simpl.
  - by intros [= <-].
  - apply Forall_cons in Hl as [Hx Hl].
    destruct (f t x) as [t1|e] eqn:E; simpl; [|done]. eauto.
Qed.

Lemma foldM_each {A} (f : table → A → result table) (P : A → Prop) (Q : A → table → Prop) :
  (∀ t x t', P x → f t x = Ok t' → Q x t') →
  (∀ t x y t', P x → P y → Q y t → f t x = Ok t' → Q y t') →
  ∀ l t t', Forall P l → Tab.foldM f l t = Ok t' → ∀ x, x ∈ l → Q x t'.
Proof.
  intros Hown Hkeep l. induction l as [|x l IH]; intros t t' Hl; simpl.
  - intros _ y Hy. by apply elem_of_nil in Hy.
  - apply Forall_cons in Hl as [Hx Hl].
    destruct (f t x) as [t1|e] eqn:E; simpl; [|done].
    intros Hfold y [->|Hy]%elem_of_cons; [|by eapply IH].
    eapply (foldM_inv f P (Q x)); [|exact Hl| |exact Hfold]; eauto.
Qed.

Lemma foldM_fixed {A} (f : table → A → result table) l t :
  (∀ x, x ∈ l → f t x = Ok t) → Tab.foldM f l t = Ok t.
Proof.
  induction l as [|x l IH]; intros H; simpl; [done|].
  rewrite H by apply list_elem_of_here. simpl. apply IH.
  intros y Hy. apply H. by apply list_elem_of_further.
Qed.

(** ** The row mask and the masked set *)

Lemma traverse_spec {A B} (f : A → result B) l l' :
  Pd.traverse f l = Ok l' → Forall2 (λ x y, f x = Ok y) l l'.
Proof.
  revert l'. induction l as [|x l IH]; intros l'; simpl.
  - intros [= <-]. constructor.
  - destruct (f x) as [y|e] eqn:E; simpl; [|done].
    destruct (Pd.traverse f l) as [ys|e]; simpl; [|done].
    intros [= <-]. constructor; auto.
Qed.

Lemma traverse_total {A B} (f : A → result B) l :
  Forall (λ x, is_Ok (f x)) l → is_Ok (Pd.traverse f l).
Proof.
  induction 1 as [|x l [y Hy] _ [ys IH]]; simpl; [by eexists|].
  rewrite Hy, IH. by eexists.
Qed.

Lemma rule_mask_spec ref col mask :
  Tab.rule_mask ref col = Ok mask →
  ∃ a, Pd.getitem ref col = Ok a ∧ length mask = length a ∧
       ∀ i, mask !! i = Some true ↔ ∃ v, a !! i = Some (Int v) ∧ 0 < v < 3.
Proof.
  unfold Tab.rule_mask. destruct (Pd.getitem ref col) as [a|e]; simpl; [|done].
  destruct (Pd.gt a 0) as [above|e] eqn:Ea; simpl; [|done].
  destruct (Pd.lt a 3) as [below|e] eqn:Eb; simpl; [|done].
  intros [= <-]. exists a. split; [done|].
  apply traverse_spec in Ea, Eb.
  pose proof (Forall2_length _ _ _ Ea) as La.
  pose proof (Forall2_length _ _ _ Eb) as Lb.
  unfold Pd.and. split; [rewrite length_zip_with; lia|].
  intros i. rewrite lookup_zip_with. split.
  - intros H. destruct (above !! i) as [p|] eqn:Ep; simpl in H; [|done].
    destruct (below !! i) as [q|] eqn:Eq; simpl in H; [|done].
    injection H as H. apply andb_true_iff in H as [-> ->].
    destruct (Forall2_lookup_r _ _ _ _ _ Ea Ep) as (x & Hx & Hgt).
    destruct (Forall2_lookup_r _ _ _ _ _ Eb Eq) as (x' & Hx' & Hlt).
    assert (x' = x) as -> by congruence.
    destruct x as [v| |]; simpl in *; try done.
    exists v. split; [done|].
    injection Hgt as Hgt%Z.ltb_lt. injection Hlt as Hlt%Z.ltb_lt. lia.
  - intros (v & Hv & Hlo & Hhi).
    destruct (Forall2_lookup_l _ _ _ _ _ Ea Hv) as (p & -> & Hp).
    destruct (Forall2_lookup_l _ _ _ _ _ Eb Hv) as (q & -> & Hq).
    simpl in *. injection Hp as <-. injection Hq as <-.
    f_equal. apply andb_true_iff. split; by apply Z.ltb_lt.
Qed.

Lemma select_elem (mask : list bool) (s : list cell) k :
  k ∈ Pd.select mask s ↔ ∃ j, mask !! j = Some true ∧ s !! j = Some k.
Proof.
  revert s. induction mask as [|b mask IH]; intros [|x s]; simpl.
  - split; [by intros ?%elem_of_nil|]. by intros (? & ? & ?).
  - split; [by intros ?%elem_of_nil|]. by intros (? & ? & ?).
  - split; [by intros ?%elem_of_nil|]. by intros (? & ? & ?).
  - destruct b.
    + rewrite elem_of_cons, IH. split.
      * intros [->|(j & Hm & Hs)]; [by exists 0%nat|by exists (S j)].
      * intros ([|j] & Hm & Hs); simpl in *; [left; congruence|right; eauto].
    + rewrite IH. split.
      * intros (j & Hm & Hs). by exists (S j).
      * intros ([|j] & Hm & Hs); simpl in *; [done|eauto].
Qed.

Lemma matched_kec_spec ref col set k :
  Tab.matched_kec ref col = Ok set → k ∈ set ↔ in_masked_set ref col k.
Proof.
  unfold Tab.matched_kec, in_masked_set.
  destruct (Tab.rule_mask ref col) as [mask|e] eqn:Em; simpl; [|done].
  apply rule_mask_spec in Em as (a & Ha & _ & Hmask).
  unfold Pd.loc_getitem. destruct (Pd.getitem ref "kec") as [kecs|e]; simpl; [|done].
  intros [= <-]. rewrite select_elem. split.
  - intros (j & (v & Hv & Hr)%Hmask & Hk). by exists a, kecs, j, v.
  - intros (a' & kecs' & j & v & Ha' & [= <-] & Hv & Hr & Hk).
    exists j. split; [|done]. apply Hmask. exists v. split; [congruence|done].
Qed.

(** ** The pass keeps its invariant *)

Lemma cell_str_text c : Pd.cell_str (Text (Pd.cell_str c)) = Pd.cell_str c.
Proof. done. Qed.

Lemma astype_str_length (s : list cell) : length (Pd.astype_str s) = length s.
Proof. apply length_fmap. Qed.

Section pass.
Context (ref der : table) (kws : list string).

Lemma pass_invariant_start : pass_invariant ref kws der der.
Proof. split; [done|]. intros name s Hs. exists s. auto. Qed.

(** The sub-region cell of row [i] along the pass. *)
Lemma pass_invariant_kec t kec i c :
  pass_invariant ref kws der t →
  Pd.getitem t "kec" = Ok kec → kec !! i = Some c →
  ∃ kecs k0, Pd.getitem der "kec" = Ok kecs ∧ kecs !! i = Some k0 ∧
             (c = k0 ∨ (matched ref kws "kec" ∧ c = Text (Pd.cell_str k0)) ∨
              (c = Text "NA" ∧ masked_row ref kws der i)).
Proof.
  intros [Hcols Hinv] Hkec Hc.
  assert (is_Ok (Pd.getitem der "kec")) as [kecs Hkecs].
  { apply getitem_columns. rewrite <-Hcols. apply getitem_columns. by eexists. }
  destruct (Hinv _ _ Hkecs) as (s' & Hs' & Hrel).
  assert (s' = kec) as -> by congruence.
  exists kecs. destruct Hrel as [->|[Hm [Hlen Hcells]]]; [by eauto|].
  destruct (kecs !! i) as [k0|] eqn:Ek.
  - exists k0. split_and!; [done..|].
    destruct (Hcells _ _ Ek) as (y & Hy & Hrel). assert (y = c) as -> by congruence.
    destruct Hrel; auto.
  - apply lookup_ge_None in Ek. apply lookup_lt_Some in Hc. lia.
Qed.

Lemma mask_column_invariant col t mc t' :
  family ref col → matches (animal_of col) kws mc = true →
  pass_invariant ref kws der t →
  Tab.mask_column ref col t mc = Ok t' →
  pass_invariant ref kws der t'.
Proof.
  intros Hfam Hmatch Hinv. pose proof Hinv as [Hcols Hcells].
  rewrite mask_column_eq.
  destruct (Pd.getitem t mc) as [cur|e] eqn:Ecur; simpl; [|done].
  destruct (Tab.matched_kec ref col) as [set|e] eqn:Eset; simpl; [|done].
  destruct (Pd.getitem _ "kec") as [kec1|e] eqn:Ekec; simpl; [|done].
  intros [= <-]. split.
  { by rewrite (columns_setitem _ _ _ _ Ecur). }
  intros name s Hs. destruct (decide (mc = name)) as [->|Hne].
  2:{ rewrite getitem_setitem_ne by done. by apply Hcells. }
  rewrite getitem_setitem_eq. eexists. split; [done|]. right. split.
  { by exists col. }
  destruct (Hcells _ _ Hs) as (cur' & Hcur' & Hrel).
  assert (cur' = cur) as -> by congruence.
  assert (length cur = length s) as Hlen.
  { by destruct Hrel as [->|[_ [? _]]]. }
  split. { by rewrite assign_length, astype_str_length. }
  intros i x Hx.
  assert (∃ y0, cur !! i = Some y0 ∧
                (y0 = x ∨ coerced_or_masked ref kws der i x y0)) as (y0 & Hy0 & Hrel0).
  { destruct Hrel as [->|[_ [_ Hc]]]; [by eauto|].
    destruct (Hc _ _ Hx) as (y & ? & ?). eauto. }
  rewrite assign_lookup, astype_str_lookup, Hy0. simpl. eexists. split; [done|].
  destruct (decide (Pd.isin kec1 set !! i = Some true)) as [Hin|Hout].
  - right. split; [done|].
    apply isin_lookup in Hin as (c & Hc & Hcset).
    apply (matched_kec_spec _ _ _ _ Eset) in Hcset.
    (* the sub-region cell that the test read *)
    assert (∃ kecs k0, Pd.getitem der "kec" = Ok kecs ∧ kecs !! i = Some k0 ∧
              (c = k0 ∨ (matched ref kws "kec" ∧ c = Text (Pd.cell_str k0)) ∨
               (c = Text "NA" ∧ masked_row ref kws der i)))
      as (kecs & k0 & Hkecs & Hk0 & Hck).
    { destruct (decide (name = "kec")) as [->|Hnk].
      - rewrite getitem_setitem_eq in Ekec. injection Ekec as <-.
        rewrite astype_str_lookup, Hy0 in Hc. injection Hc as <-.
        destruct (pass_invariant_kec _ _ _ _ Hinv Ecur Hy0)
          as (kecs & k0 & ? & ? & Hck).
        exists kecs, k0. split_and!; [done..|].
        assert (matched ref kws "kec") by (by exists col).
        destruct Hck as [->|[[_ ->]|[-> ?]]]; auto.
      - rewrite getitem_setitem_ne in Ekec by done.
        apply (pass_invariant_kec _ _ _ _ Hinv Ekec Hc). }
    destruct Hck as [->|[[? ->]|[_ ?]]]; [| |done].
    + exists col, kecs, k0, k0. split_and!; auto.
    + exists col, kecs, k0, (Text (Pd.cell_str k0)). split_and!; auto.
  - destruct Hrel0 as [->|[->|[-> ?]]].
    + by left.
    + by left.
    + right. done.
Qed.

Lemma matching_cols_match col t :
  Forall (λ mc, matches (animal_of col) kws mc = true) (Tab.matching_cols col kws t).
Proof.
  unfold Tab.matching_cols, matching_cols. apply Forall_forall. intros mc [H _]%list_elem_of_filter.
  by apply Is_true_true.
Qed.

Lemma mask_family_invariant col t t' :
  col ∈ Pd.columns ref →
  pass_invariant ref kws der t →
  Tab.mask_family ref kws t col = Ok t' →
  pass_invariant ref kws der t'.
Proof.
  intros Hcol Hinv. unfold Tab.mask_family.
  destruct (Str.startswith col "n_rtup_ternak_usaha_") eqn:Hfam; [|by intros [= <-]].
  apply (foldM_inv _ (λ mc, matches (animal_of col) kws mc = true)); [| |done].
  - intros t1 mc t2 Hmc Ht1. by apply mask_column_invariant.
  - apply matching_cols_match.
Qed.

Lemma apply_rule_invariant t' :
  Tab.apply_rule ref kws der = Ok t' → pass_invariant ref kws der t'.
Proof.
  apply (foldM_inv _ (λ col, col ∈ Pd.columns ref)).
  - intros t1 col t2 Hcol Ht1. by apply mask_family_invariant.
  - by apply Forall_forall.
  - apply pass_invariant_start.
Qed.

End pass.

(** ** Matched columns end up textual *)

Lemma astype_str_textual (s : list cell) : textual (Pd.astype_str s).
Proof.
  unfold textual, Pd.astype_str. rewrite <-list_fmap_compose.
  by apply list_fmap_ext.
Qed.

Lemma assign_textual mask (s : list cell) :
  textual s → textual (Pd.assign mask (Text "NA") s).
Proof.
  unfold textual. intros Hs. apply list_eq. intros i.
  rewrite astype_str_lookup, assign_lookup.
  rewrite <-Hs at 2. rewrite astype_str_lookup.
  destruct (s !! i) as [x|]; simpl; [|done]. by case_decide.
Qed.

Lemma mask_column_columns_inv ref col (C : list string) t mc t' :
  Pd.columns t = C → Tab.mask_column ref col t mc = Ok t' → Pd.columns t' = C.
Proof. intros <- H. by eapply mask_column_columns. Qed.

Lemma mask_family_columns ref kws t col t' :
  Tab.mask_family ref kws t col = Ok t' → Pd.columns t' = Pd.columns t.
Proof.
  unfold Tab.mask_family. destruct (Str.startswith _ _); [|by intros [= <-]].
  apply (foldM_inv _ (λ _, True) (λ t1, Pd.columns t1 = Pd.columns t)); [| |done].
  - intros t1 mc t2 _. apply mask_column_columns_inv.
  - by apply Forall_forall.
Qed.

Lemma mask_column_textual_own ref col t mc t' :
  Tab.mask_column ref col t mc = Ok t' → column_textual t' mc.
Proof.
  rewrite mask_column_eq.
  destruct (Pd.getitem t mc) as [cur|e]; simpl; [|done].
  destruct (Tab.matched_kec ref col) as [set|e]; simpl; [|done].
  destruct (Pd.getitem _ "kec") as [kec1|e]; simpl; [|done].
  intros [= <-]. eexists. split; [apply getitem_setitem_eq|].
  apply assign_textual, astype_str_textual.
Qed.

Lemma mask_column_textual_keep ref col t mc t' name :
  column_textual t name → Tab.mask_column ref col t mc = Ok t' →
  column_textual t' name.
Proof.
  intros Hname H. destruct (decide (mc = name)) as [->|Hne].
  { by eapply mask_column_textual_own. }
  revert H. rewrite mask_column_eq.
  destruct (Pd.getitem t mc) as [cur|e]; simpl; [|done].
  destruct (Tab.matched_kec ref col) as [set|e]; simpl; [|done].
  destruct (Pd.getitem _ "kec") as [kec1|e]; simpl; [|done].
  intros [= <-]. unfold column_textual. by rewrite getitem_setitem_ne.
Qed.

Lemma mask_family_textual_keep ref kws t col t' name :
  column_textual t name → Tab.mask_family ref kws t col = Ok t' →
  column_textual t' name.
Proof.
  intros Hname. unfold Tab.mask_family.
  destruct (Str.startswith _ _); [|by intros [= <-]].
  apply (foldM_inv _ (λ _, True) (λ t1, column_textual t1 name)); [| |done].
  - intros t1 mc t2 _ H1 H2. by eapply mask_column_textual_keep.
  - by apply Forall_forall.
Qed.

Lemma mask_family_textual_own ref kws t col t' name :
  Str.startswith col "n_rtup_ternak_usaha_" = true →
  name ∈ Pd.columns t → matches (animal_of col) kws name = true →
  Tab.mask_family ref kws t col = Ok t' → column_textual t' name.
Proof.
  intros Hfam Hname Hmatch. unfold Tab.mask_family. rewrite Hfam. intros Hfold.
  refine (foldM_each _ (λ _, True) (λ mc t1, column_textual t1 mc)
            _ _ _ _ _ _ Hfold name _).
  - intros t1 mc t2 _. apply mask_column_textual_own.
  - intros t1 mc y t2 _ _ Hy H. by eapply mask_column_textual_keep.
  - by apply Forall_forall.
  - apply list_elem_of_filter. split; [by apply Is_true_true|done].
Qed.

Lemma apply_rule_textual ref kws der t' name :
  Tab.apply_rule ref kws der = Ok t' →
  matched ref kws name → name ∈ Pd.columns der → column_textual t' name.
Proof.
  intros Hrun (col & [Hcol Hfam] & Hmatch) Hname.
  pose proof (apply_rule_invariant _ _ _ _ Hrun) as [Hcols _].
  refine (foldM_each _ (λ _, True)
            (λ c t, Str.startswith c "n_rtup_ternak_usaha_" = true →
                    matches (animal_of c) kws name = true →
                    name ∈ Pd.columns t → column_textual t name)
            _ _ _ _ _ _ Hrun col Hcol Hfam Hmatch _).
  - intros t1 c t2 _ H12 Hc Hm Hn. eapply mask_family_textual_own; [done| |done..].
    by rewrite <-(mask_family_columns _ _ _ _ _ H12).
  - intros t1 c y t2 _ _ Hy H12 Hc Hm Hn. eapply mask_family_textual_keep; [|done].
    apply Hy; [done..|]. by rewrite <-(mask_family_columns _ _ _ _ _ H12).
  - by apply Forall_forall.
  - by rewrite Hcols.
Qed.

(** A matched column after the pass: each cell holds the text of the
    value it had or, in a masked row, the sentinel. *)
Lemma apply_rule_matched ref kws der t' name s :
  Tab.apply_rule ref kws der = Ok t' →
  matched ref kws name → Pd.getitem der name = Ok s →
  ∃ s', Pd.getitem t' name = Ok s' ∧ masked_column ref kws der s s'.
Proof.
  intros Hrun Hm Hs.
  destruct (apply_rule_invariant _ _ _ _ Hrun) as [_ Hinv].
  destruct (Hinv _ _ Hs) as (s' & Hs' & [->|[_ ?]]); [|by eauto].
  exists s. split; [done|]. split; [done|]. intros i x Hx. exists x. split; [done|].
  left. destruct (apply_rule_textual _ _ _ _ name Hrun Hm) as (s0 & Hs0 & Htext).
  { apply getitem_columns. by eexists. }
  assert (s0 = s) as -> by congruence.
  unfold textual in Htext. rewrite <-Htext in Hx.
  rewrite astype_str_lookup in Hx.
  destruct (s !! i) as [x0|] eqn:E; simpl in Hx; [|done].
  injection Hx as <-. by rewrite cell_str_text.
Qed.

Lemma getitem_raise t name e : Pd.getitem t name = Raise e → e = KeyError name.
Proof.
  induction t as [|[n v] t IH]; simpl; [by intros [= <-]|].
  by destruct (String.eqb n name).
Qed.

(** A column that no family matches is as it was. *)
Lemma apply_rule_unmatched ref kws der t' name :
  Tab.apply_rule ref kws der = Ok t' →
  ¬ matched ref kws name → Pd.getitem t' name = Pd.getitem der name.
Proof.
  intros Hrun Hm.
  destruct (apply_rule_invariant _ _ _ _ Hrun) as [Hcols Hinv].
  destruct (Pd.getitem der name) as [s|e] eqn:Hs.
  - destruct (Hinv _ _ Hs) as (s' & Hs' & [->|[? _]]); done.
  - destruct (Pd.getitem t' name) as [s'|e'] eqn:Hs'.
    + assert (is_Ok (Pd.getitem der name)) as [? ?]; [|congruence].
      apply getitem_columns. rewrite <-Hcols. apply getitem_columns. by eexists.
    + apply getitem_raise in Hs as ->. by apply getitem_raise in Hs' as ->.
Qed.

(** ** A second pass changes nothing *)

Lemma coerce_mask_lookup (R : list bool) (s : list cell) i :
  Pd.assign R (Text "NA") (Pd.astype_str s) !! i =
  (λ c, if decide (R !! i = Some true) then Text "NA" else Text (Pd.cell_str c)) <$> s !! i.
Proof.
  rewrite assign_lookup, astype_str_lookup. by destruct (s !! i).
Qed.

Lemma coerce_mask_idem (R : list bool) (s : list cell) :
  let g := λ s, Pd.assign R (Text "NA") (Pd.astype_str s) in g (g s) = g s.
Proof.
  intros g. apply list_eq. intros i. unfold g.
  rewrite !coerce_mask_lookup. destruct (s !! i); simpl; [|done]. by case_decide.
Qed.

Lemma coerce_mask_comm (R R' : list bool) (s : list cell) :
  Pd.assign R (Text "NA") (Pd.astype_str (Pd.assign R' (Text "NA") (Pd.astype_str s))) =
  Pd.assign R' (Text "NA") (Pd.astype_str (Pd.assign R (Text "NA") (Pd.astype_str s))).
Proof.
  apply list_eq. intros i.
  rewrite !coerce_mask_lookup. destruct (s !! i); simpl; [|done].
  by repeat case_decide.
Qed.

Lemma mask_column_eq_other ref col t mc :
  mc ≠ "kec" →
  Tab.mask_column ref col t mc =
  s ← Pd.getitem t mc;
  set ← Tab.matched_kec ref col;
  kec ← Pd.getitem t "kec";
  Ok (Pd.setitem t mc (Pd.assign (Pd.isin kec set) (Text "NA") (Pd.astype_str s))).
Proof.
  intros Hne. rewrite mask_column_eq.
  destruct (Pd.getitem t mc) as [s|e]; simpl; [|done].
  by rewrite getitem_setitem_ne.
Qed.

Section second_pass.
Context (ref : table) (kws : list string).

Lemma mask_column_settled_own col t mc t' :
  mc ≠ "kec" →
  Tab.mask_column ref col t mc = Ok t' → Tab.mask_column ref col t' mc = Ok t'.
Proof.
  intros Hne. rewrite !mask_column_eq_other by done.
  destruct (Pd.getitem t mc) as [s|e] eqn:Es; simpl; [|done].
  destruct (Tab.matched_kec ref col) as [set|e]; simpl; [|done].
  destruct (Pd.getitem t "kec") as [kec|e] eqn:Ek; simpl; [|done].
  intros [= <-]. rewrite getitem_setitem_eq. simpl.
  rewrite getitem_setitem_ne, Ek by done. simpl.
  by rewrite setitem_setitem, (coerce_mask_idem (Pd.isin kec set) s).
Qed.

Lemma mask_column_settled_keep col mc col' mc' t t' :
  mc ≠ "kec" → mc' ≠ "kec" →
  Tab.mask_column ref col t mc = Ok t →
  Tab.mask_column ref col' t mc' = Ok t' →
  Tab.mask_column ref col t' mc = Ok t'.
Proof.
  intros Hne Hne'. rewrite !mask_column_eq_other by done.
  destruct (Pd.getitem t mc) as [s|e] eqn:Es; simpl; [|done].
  destruct (Tab.matched_kec ref col) as [set|e]; simpl; [|done].
  destruct (Pd.getitem t "kec") as [kec|e] eqn:Ek; simpl; [|done].
  intros [= Hfix].
  assert (Pd.assign (Pd.isin kec set) (Text "NA") (Pd.astype_str s) = s) as Hs.
  { pose proof (getitem_setitem_eq t mc
      (Pd.assign (Pd.isin kec set) (Text "NA") (Pd.astype_str s))) as H.
    rewrite Hfix in H. congruence. }
  destruct (Pd.getitem t mc') as [s'|e] eqn:Es'; simpl; [|done].
  destruct (Tab.matched_kec ref col') as [set'|e]; simpl; [|done].
  intros [= <-].
  rewrite (getitem_setitem_ne _ _ "kec"), Ek by done.
  destruct (decide (mc' = mc)) as [->|Hmc].
  - assert (s' = s) as -> by congruence.
    rewrite getitem_setitem_eq. simpl.
    by rewrite setitem_setitem, coerce_mask_comm, Hs.
  - rewrite getitem_setitem_ne, Es by done. simpl. rewrite Hs.
    f_equal. apply setitem_id. by rewrite getitem_setitem_ne.
Qed.

Context (Hkec : kec_unmatched ref kws).

Lemma matching_cols_other col t mc :
  family ref col → mc ∈ Tab.matching_cols col kws t → mc ≠ "kec".
Proof.
  intros Hfam [Hm%Is_true_true _]%list_elem_of_filter ->.
  rewrite (Hkec _ Hfam) in Hm. done.
Qed.

Lemma matching_cols_columns col t t' :
  Pd.columns t' = Pd.columns t →
  Tab.matching_cols col kws t' = Tab.matching_cols col kws t.
Proof. unfold Tab.matching_cols, matching_cols. by intros ->. Qed.

Lemma mask_family_settled_own col t t' :
  col ∈ Pd.columns ref →
  Tab.mask_family ref kws t col = Ok t' → settled ref kws col t'.
Proof.
  intros Hcol Hrun Hfam mc.
  rewrite (matching_cols_columns _ _ _ (mask_family_columns _ _ _ _ _ Hrun)).
  revert Hrun. unfold Tab.mask_family. rewrite Hfam. intros Hfold.
  refine (foldM_each _ (λ mc, mc ≠ "kec") (λ mc t1, Tab.mask_column ref col t1 mc = Ok t1)
            _ _ _ _ _ _ Hfold mc).
  - intros t1 x t2. apply mask_column_settled_own.
  - intros t1 x y t2 Hx Hy. by apply mask_column_settled_keep.
  - apply Forall_forall. intros x. by apply matching_cols_other.
Qed.

Lemma mask_family_settled_keep col col' t t' :
  col ∈ Pd.columns ref → col' ∈ Pd.columns ref →
  settled ref kws col t → Tab.mask_family ref kws t col' = Ok t' → settled ref kws col t'.
Proof.
  intros Hcol Hcol' Hset Hrun Hfam mc.
  rewrite (matching_cols_columns _ _ _ (mask_family_columns _ _ _ _ _ Hrun)).
  intros Hmc. specialize (Hset Hfam mc Hmc).
  revert Hrun. unfold Tab.mask_family.
  destruct (Str.startswith col' "n_rtup_ternak_usaha_") eqn:Hfam';
    [|by intros [= <-]].
  apply (foldM_inv _ (λ x, x ≠ "kec") (λ t1, Tab.mask_column ref col t1 mc = Ok t1));
    [| |done].
  - intros t1 x t2 Hx. apply mask_column_settled_keep; [|done].
    by apply (matching_cols_other col t mc).
  - apply Forall_forall. intros x. by apply matching_cols_other.
Qed.

Lemma apply_rule_settled t t' :
  Tab.apply_rule ref kws t = Ok t' → Tab.apply_rule ref kws t' = Ok t'.
Proof.
  intros Hrun. unfold Tab.apply_rule. apply foldM_fixed. intros col Hcol.
  assert (settled ref kws col t') as Hset.
  { refine (foldM_each _ (λ c, c ∈ Pd.columns ref) (settled ref kws) _ _ _ _ _ _ Hrun col Hcol).
    - intros t1 x t2. apply mask_family_settled_own.
    - intros t1 x y t2 Hx Hy. by apply mask_family_settled_keep.
    - by apply Forall_forall. }
  unfold Tab.mask_family.
  destruct (Str.startswith col "n_rtup_ternak_usaha_") eqn:Hfam; [|done].
  apply foldM_fixed. by apply Hset.
Qed.

End second_pass.

(** ** Columns of numbers *)

Lemma traverse_gt_numeric a : is_Ok (Pd.gt a 0) ↔ numeric a.
Proof.
  unfold numeric, Pd.gt. split.
  - intros [l Hl%traverse_spec]. induction Hl as [|x y a l Hx _ IH]; constructor; [|done].
    intros s ->. done.
  - intros H. apply traverse_total. eapply Forall_impl; [exact H|].
    intros [v|s|] Hc; simpl; [by eexists| |by eexists]. by destruct (Hc s).
Qed.

Lemma traverse_lt_numeric a : numeric a → is_Ok (Pd.lt a 3).
Proof.
  intros H. apply traverse_total. eapply Forall_impl; [exact H|].
  intros [v|s|] Hc; simpl; [by eexists| |by eexists]. by destruct (Hc s).
Qed.

Lemma matched_kec_ok ref col :
  col ∈ Pd.columns ref →
  is_Ok (Tab.matched_kec ref col) ↔
  "kec" ∈ Pd.columns ref ∧ ∀ a, Pd.getitem ref col = Ok a → numeric a.
Proof.
  intros [a Ha]%getitem_columns. unfold Tab.matched_kec, Tab.rule_mask, Pd.loc_getitem.
  rewrite Ha. simpl. split.
  - destruct (Pd.gt a 0) as [above|e] eqn:Eg; simpl; [|by intros [? ?]].
    destruct (Pd.lt a 3) as [below|e]; simpl; [|by intros [? ?]].
    destruct (Pd.getitem ref "kec") as [kecs|e] eqn:Ek; simpl; [|by intros [? ?]].
    intros _. split; [apply getitem_columns; by eexists|].
    intros a' [= <-]. apply traverse_gt_numeric. by eexists.
  - intros [[kecs Hk]%getitem_columns Hnum]. specialize (Hnum a eq_refl).
    destruct (proj2 (traverse_gt_numeric a) Hnum) as [above ->].
    destruct (traverse_lt_numeric a Hnum) as [below ->]. simpl.
    rewrite Hk. by eexists.
Qed.

(** ** The invariant where the sub-region column is not matched *)

Section exact.
Context (ref der : table) (kws : list string) (Hkec : kec_unmatched ref kws).

Lemma matched_not_kec col mc :
  family ref col → matches (animal_of col) kws mc = true → mc ≠ "kec".
Proof. intros Hfam Hm ->. by rewrite (Hkec _ Hfam) in Hm. Qed.

Lemma pass_invariant_by_start : pass_invariant_by ref kws der der.
Proof.
  split_and!; [done..|]. intros name s Hs. exists s. split_and!; [done..|].
  intros i x Hx. exists x. auto.
Qed.

Lemma mask_column_invariant_by col t mc t' :
  family ref col → matches (animal_of col) kws mc = true →
  pass_invariant_by ref kws der t →
  Tab.mask_column ref col t mc = Ok t' →
  pass_invariant_by ref kws der t'.
Proof.
  intros Hfam Hmatch (Hcols & Hkecs & Hcells).
  pose proof (matched_not_kec _ _ Hfam Hmatch) as Hne.
  rewrite mask_column_eq_other by done.
  destruct (Pd.getitem t mc) as [cur|e] eqn:Ecur; simpl; [|done].
  destruct (Tab.matched_kec ref col) as [set|e] eqn:Eset; simpl; [|done].
  destruct (Pd.getitem t "kec") as [kec|e] eqn:Ekec; simpl; [|done].
  intros [= <-]. split_and!.
  - by rewrite (columns_setitem _ _ _ _ Ecur).
  - by rewrite getitem_setitem_ne, Ekec.
  - intros name s Hs. destruct (decide (mc = name)) as [->|Hother].
    2:{ rewrite getitem_setitem_ne by done. by apply Hcells. }
    rewrite getitem_setitem_eq.
    destruct (Hcells _ _ Hs) as (cur' & Hcur' & Hlen & Hrel).
    assert (cur' = cur) as -> by congruence.
    eexists. split; [done|]. split.
    { by rewrite assign_length, astype_str_length. }
    intros i x Hx. destruct (Hrel _ _ Hx) as (y0 & Hy0 & Hrel0).
    rewrite coerce_mask_lookup, Hy0. simpl. eexists. split; [done|].
    case_decide as Hin.
    + right; right. split; [done|].
      apply isin_lookup in Hin as (c & Hc & Hcset).
      apply (matched_kec_spec _ _ _ _ Eset) in Hcset.
      exists col, kec, c. split_and!; first [done|by rewrite <-Hkecs].
    + destruct Hrel0 as [->|[->|[-> ?]]]; auto.
Qed.

Lemma apply_rule_invariant_by t' :
  Tab.apply_rule ref kws der = Ok t' → pass_invariant_by ref kws der t'.
Proof.
  apply (foldM_inv _ (λ col, col ∈ Pd.columns ref)).
  - intros t1 col t2 Hcol Ht1. unfold Tab.mask_family.
    destruct (Str.startswith col "n_rtup_ternak_usaha_") eqn:Hfam; [|by intros [= <-]].
    apply (foldM_inv _ (λ mc, matches (animal_of col) kws mc = true)); [| |done].
    + intros t3 mc t4 Hmc Ht3. by apply mask_column_invariant_by.
    + apply matching_cols_match.
  - by apply Forall_forall.
  - apply pass_invariant_by_start.
Qed.

Lemma mask_column_sentinel_own col t mc t' :
  mc ≠ "kec" →
  Tab.mask_column ref col t mc = Ok t' → sentinel_where_masked ref col t' mc.
Proof.
  intros Hne. rewrite mask_column_eq_other by done.
  destruct (Pd.getitem t mc) as [cur|e] eqn:Ecur; simpl; [|done].
  destruct (Tab.matched_kec ref col) as [set|e] eqn:Eset; simpl; [|done].
  destruct (Pd.getitem t "kec") as [kec|e] eqn:Ekec; simpl; [|done].
  intros [= <-] s kecs i k0. rewrite getitem_setitem_eq, getitem_setitem_ne by done.
  intros [= <-] Hk Hi Hk0 Hin.
  assert (kecs = kec) as -> by congruence.
  rewrite assign_length, astype_str_length in Hi.
  destruct (lookup_lt_is_Some_2 cur i Hi) as [x Hx].
  rewrite coerce_mask_lookup, Hx. simpl. rewrite decide_True; [done|].
  apply isin_lookup. exists k0. split; [done|].
  by apply (matched_kec_spec _ _ _ _ Eset).
Qed.

Lemma mask_column_sentinel_keep col0 name col t mc t' :
  mc ≠ "kec" →
  sentinel_where_masked ref col0 t name →
  Tab.mask_column ref col t mc = Ok t' →
  sentinel_where_masked ref col0 t' name.
Proof.
  intros Hne Hsent. rewrite mask_column_eq_other by done.
  destruct (Pd.getitem t mc) as [cur|e] eqn:Ecur; simpl; [|done].
  destruct (Tab.matched_kec ref col) as [set|e] eqn:Eset; simpl; [|done].
  destruct (Pd.getitem t "kec") as [kec|e] eqn:Ekec; simpl; [|done].
  intros [= <-] s kecs i k0. rewrite (getitem_setitem_ne _ _ "kec") by done.
  destruct (decide (mc = name)) as [->|Hother].
  - rewrite getitem_setitem_eq. intros [= <-] Hk Hi Hk0 Hin.
    rewrite assign_length, astype_str_length in Hi.
    rewrite coerce_mask_lookup.
    rewrite (Hsent cur kecs i k0 Ecur Hk Hi Hk0 Hin). simpl. by case_decide.
  - rewrite getitem_setitem_ne by done. apply Hsent.
Qed.

Lemma mask_family_sentinel_keep col0 name col t t' :
  family ref col ∨ Str.startswith col "n_rtup_ternak_usaha_" = false →
  col ∈ Pd.columns ref →
  sentinel_where_masked ref col0 t name →
  Tab.mask_family ref kws t col = Ok t' →
  sentinel_where_masked ref col0 t' name.
Proof.
  intros _ Hcol Hsent. unfold Tab.mask_family.
  destruct (Str.startswith col "n_rtup_ternak_usaha_") eqn:Hfam; [|by intros [= <-]].
  apply (foldM_inv _ (λ mc, mc ≠ "kec") (λ t1, sentinel_where_masked ref col0 t1 name));
    [| |done].
  - intros t1 mc t2 Hmc H1. by apply mask_column_sentinel_keep.
  - apply Forall_forall. intros mc. by apply (matching_cols_other ref kws Hkec col t).
Qed.

Lemma mask_family_sentinel_own col t t' name :
  family ref col → name ∈ Pd.columns t →
  matches (animal_of col) kws name = true →
  Tab.mask_family ref kws t col = Ok t' →
  sentinel_where_masked ref col t' name.
Proof.
  intros Hfam Hname Hmatch. unfold Tab.mask_family.
  destruct Hfam as [Hcol Hfam]. rewrite Hfam. intros Hfold.
  refine (foldM_each _ (λ mc, mc ≠ "kec") (λ mc t1, sentinel_where_masked ref col t1 mc)
            _ _ _ _ _ _ Hfold name _).
  - intros t1 mc t2. apply mask_column_sentinel_own.
  - intros t1 mc y t2 Hmc _ Hy. by apply mask_column_sentinel_keep.
  - apply Forall_forall. intros mc.
    by apply (matching_cols_other ref kws Hkec col t).
  - apply list_elem_of_filter. split; [by apply Is_true_true|done].
Qed.

Lemma apply_rule_sentinel t' col name :
  Tab.apply_rule ref kws der = Ok t' →
  family ref col → name ∈ Pd.columns der →
  matches (animal_of col) kws name = true →
  sentinel_where_masked ref col t' name.
Proof.
  intros Hrun Hfam Hname Hmatch.
  pose proof (apply_rule_invariant _ _ _ _ Hrun) as [Hcols _].
  pose proof Hfam as [Hcol Hstart].
  refine (foldM_each _ (λ c, c ∈ Pd.columns ref)
            (λ c t, family ref c → matches (animal_of c) kws name = true →
                    name ∈ Pd.columns t → sentinel_where_masked ref c t name)
            _ _ _ _ _ _ Hrun col Hcol Hfam Hmatch _).
  - intros t1 c t2 _ H12 Hc Hm Hn. eapply mask_family_sentinel_own; [done| |done..].
    by rewrite <-(mask_family_columns _ _ _ _ _ H12).
  - intros t1 c y t2 Hc _ Hy H12 Hfy Hm Hn.
    eapply mask_family_sentinel_keep; [|exact Hc| |exact H12].
    + destruct (Str.startswith c "n_rtup_ternak_usaha_") eqn:E; [left; by split|by right].
    + apply Hy; [done..|]. by rewrite <-(mask_family_columns _ _ _ _ _ H12).
  - by apply Forall_forall.
  - by rewrite Hcols.
Qed.

End exact.

(** ** The keyword test and the case of the letters *)

Lemma ascii_all (P : ascii → bool) :
  forallb (λ n, P (ascii_of_nat n)) (seq 0 256) = true → ∀ a, P a = true.
Proof.
  intros H a. rewrite forallb_forall in H.
  rewrite <-(ascii_nat_embedding a). apply H, in_seq.
  pose proof (nat_ascii_bounded a). lia.
Qed.

Lemma eqb_lower_char a b :
  Ascii.eqb a (Str.lower_char b) = negb (Str.is_upper a) && eq_ignore_case a b.
Proof.
  apply Bool.eqb_prop. revert b.
  apply (ascii_all (λ b, Bool.eqb (Ascii.eqb a (Str.lower_char b))
                           (negb (Str.is_upper a) && eq_ignore_case a b))).
  revert a.
  apply (ascii_all (λ a, forallb (λ n,
           Bool.eqb (Ascii.eqb a (Str.lower_char (ascii_of_nat n)))
                    (negb (Str.is_upper a) && eq_ignore_case a (ascii_of_nat n)))
           (seq 0 256))).
  by vm_compute.
Qed.

Lemma prefix_lower k c :
  String.prefix k (Str.lower c) =
  negb (Str.any Str.is_upper k) && prefix_ignore_case k c.
Proof.
  revert c. induction k as [|a k IH]; intros c; [by destruct c|].
  destruct c as [|b c]; simpl.
  { by rewrite andb_false_r. }
  destruct (ascii_dec a (Str.lower_char b)) as [E|E].
  - apply Ascii.eqb_eq in E. rewrite eqb_lower_char in E.
    apply andb_true_iff in E as [E1%negb_true_iff E2]. rewrite E1, E2. simpl. apply IH.
  - apply Ascii.eqb_neq in E. rewrite eqb_lower_char in E.
    destruct (Str.is_upper a); simpl in *; [done|]. rewrite E. simpl.
    by rewrite andb_false_r.
Qed.

(** The keyword test of [matches]: the keyword has no upper-case
    letter and occurs in the name, the case of the name's letters
    disregarded. *)
Lemma contains_lower k c :
  Str.contains k (Str.lower c) =
  negb (Str.any Str.is_upper k) && contains_ignore_case k c.
Proof.
  induction c as [|b c IH].
  - change (Str.lower "") with "". simpl.
    rewrite !orb_false_r. apply (prefix_lower k "").
  - change (Str.lower (String b c)) with (String (Str.lower_char b) (Str.lower c)).
    rewrite contains_cons, IH.
    change (String (Str.lower_char b) (Str.lower c)) with (Str.lower (String b c)).
    rewrite prefix_lower. simpl.
    by destruct (Str.any Str.is_upper k), (prefix_ignore_case k (String b c)).
Qed.

(** * The properties of the script *)

(** ** The row mask *)

(** C1, as the code has it: the row mask of a family column, and what
    it does to the cells.  On a column of numbers and missing values
    the mask is computed, and whenever it is computed row [i] is in it
    exactly when the cell holds a number [v] with [0 < v] and [v < 3];
    a missing value is never in it.  At the probes -1, 0, 1, 2, 3, 4
    and a missing value the mask is false, false, true, true, false,
    false, false.  The step that uses the mask on a column [mc] of
    the template, other than the sub-region column, returns and
    leaves no cell of [mc] untouched: a row whose sub-region code is
    the code of a reference row in the mask holds the sentinel, and
    every other row holds the text of its former value. *)
Theorem rule_mask_open_interval w df ref col a :
  frames w !! df = Some ref →
  Pd.getitem ref col = Ok a →
  (numeric a → ∃ mask, rule_mask df col w = (Ok mask, w)) ∧
  (∀ mask w', rule_mask df col w = (Ok mask, w') →
     length mask = length a ∧
     ∀ i, mask !! i = Some true ↔ ∃ v, a !! i = Some (Int v) ∧ 0 < v < 3) ∧
  Tab.rule_mask [(col, Example.probes)] col =
    Ok [false; false; true; true; false; false; false] ∧
  (∀ df_template tpl mc s kecs,
     df ≠ df_template → frames w !! df_template = Some tpl →
     numeric a → "kec" ∈ Pd.columns ref → mc ≠ "kec" →
     Pd.getitem tpl mc = Ok s → Pd.getitem tpl "kec" = Ok kecs →
     ∃ w' tpl' s',
       mask_column df df_template col mc w = (Ok (), w') ∧
       frames w' !! df_template = Some tpl' ∧
       Pd.getitem tpl' mc = Ok s' ∧ length s' = length s ∧
       ∀ i x k, s !! i = Some x → kecs !! i = Some k →
         (in_masked_set ref col k → s' !! i = Some (Text "NA")) ∧
         (¬ in_masked_set ref col k → s' !! i = Some (Text (Pd.cell_str x)))).
Proof.
  intros Hw Ha. split_and!.
  - intros Hnum. rewrite (rule_mask_run _ _ _ _ Hw).
    unfold Tab.rule_mask. rewrite Ha. simpl.
    destruct (proj2 (traverse_gt_numeric a) Hnum) as [above ->].
    destruct (traverse_lt_numeric a Hnum) as [below ->]. simpl. by eexists.
  - intros mask w' Hrun. rewrite (rule_mask_run _ _ _ _ Hw) in Hrun.
    injection Hrun as Hrun _.
    apply rule_mask_spec in Hrun as (a' & Ha' & Hlen & Hmask).
    assert (a' = a) as -> by congruence. done.
  - unfold Tab.rule_mask. simpl. rewrite String.eqb_refl. done.
  - intros lt tpl mc s kecs Hne Ht Hnum Hkec Hmc Hs Hkecs.
    destruct (mask_column_run _ _ _ Hne w col mc tpl Hw Ht) as (w' & Hrun & [_ Hstep] & _).
    assert (is_Ok (Tab.matched_kec ref col)) as [set Hset].
    { apply matched_kec_ok; [apply getitem_columns; by eexists|].
      split; [done|]. intros a' Ha'. by assert (a' = a) as -> by congruence. }
    rewrite mask_column_eq_other, Hs, Hset, Hkecs in Hrun, Hstep by done.
    simpl in Hrun, Hstep.
    eexists w', _, _. split_and!; [exact Hrun|exact Hstep|apply getitem_setitem_eq|..].
    { by rewrite assign_length, astype_str_length. }
    intros i x k Hx Hk. rewrite coerce_mask_lookup, Hx. simpl.
    rewrite <-(matched_kec_spec _ _ _ k Hset). split; intros Hin.
    + rewrite decide_True; [done|]. apply isin_lookup. by exists k.
    + rewrite decide_False; [done|]. intros (k' & Hk' & Hin')%isin_lookup.
      apply Hin. congruence.
Qed.

Lemma rule_mask_open_interval_witness :
  let w := Example.sheets Example.ref_ayam Example.der_ayam in
  let col := "n_rtup_ternak_usaha_ayam_kampung" in
  let mc := "populasi_ayam_kampung" in
  let a := [Int 0; Int 1; Int 2; Int 5] in
  (∃ mask, rule_mask Example.df_ref col w = (Ok mask, w)) ∧
  (∀ mask w', rule_mask Example.df_ref col w = (Ok mask, w') →
     length mask = length a ∧
     ∀ i, mask !! i = Some true ↔ ∃ v, a !! i = Some (Int v) ∧ 0 < v < 3) ∧
  ∃ w' tpl' s',
    mask_column Example.df_ref Example.df_derived col mc w = (Ok (), w') ∧
    frames w' !! Example.df_derived = Some tpl' ∧
    Pd.getitem tpl' mc = Ok s' ∧
    ∀ i x k, [Int 10; Int 20; Int 30; Int 40] !! i = Some x →
             [Text "A"; Text "B"; Text "C"; Text "D"] !! i = Some k →
      (in_masked_set Example.ref_ayam col k → s' !! i = Some (Text "NA")) ∧
      (¬ in_masked_set Example.ref_ayam col k → s' !! i = Some (Text (Pd.cell_str x))).
Proof.
  intros w col mc a.
  assert (numeric a) as Hnum by (repeat constructor; by intros s).
  destruct (rule_mask_open_interval w Example.df_ref Example.ref_ayam col a)
    as (Htotal & Hmask & _ & Hcells); [reflexivity..|].
  split_and!; [by apply Htotal|exact Hmask|].
  destruct (Hcells Example.df_derived Example.der_ayam mc
              [Int 10; Int 20; Int 30; Int 40] [Text "A"; Text "B"; Text "C"; Text "D"])
    as (w' & tpl' & s' & Hrun & Htpl & Hs' & _ & Hrows); try done.
  - unfold Pd.columns. simpl. apply list_elem_of_further, list_elem_of_here.
  - by exists w', tpl', s'.
Defined.

(** C1, as the claim has it, fails: a missing value does not leave
    the cell untouched.  The reference rows of [A] and the second of
    [B] hold no value and are not in the mask; the cell of [A] comes
    out as a text, and the cell of [B] holds the sentinel, its
    sub-region having another reference row in the mask. *)
Lemma missing_value_cell_touched :
  let w := Example.sheets Sample.ref_missing Sample.der_missing in
  let out := build_template Example.df_ref Example.df_derived ["populasi"] w in
  Pd.getitem Sample.ref_missing "kec" = Ok [Text "A"; Text "B"; Text "B"] ∧
  Pd.getitem Sample.ref_missing "n_rtup_ternak_usaha_ayam" = Ok [NaN; Int 1; NaN] ∧
  Tab.rule_mask Sample.ref_missing "n_rtup_ternak_usaha_ayam" = Ok [false; true; false] ∧
  Pd.getitem Sample.der_missing "kec" = Ok [Text "A"; Text "B"] ∧
  Pd.getitem Sample.der_missing "populasi_ayam" = Ok [Int 10; Int 20] ∧
  ∃ df_template, fst out = Ok df_template ∧
    Pd.getitem (frames (snd out) !!! df_template) "populasi_ayam" =
      Ok [Text "10"; Text "NA"].
Proof. split_and!; [reflexivity..|]. exists 2%nat. by vm_compute. Qed.

(** ** The column matcher *)

(** C10: a keyword with an upper-case letter matches no column.  The
    name of the column is lower-cased before the test and the keyword
    is taken as it is, so the test fails for every column, and the
    keyword adds nothing to a list of keywords. *)
Theorem upper_case_keyword_never_matches keyword :
  Str.any Str.is_upper keyword = true →
  (∀ c, Str.contains keyword (Str.lower c) = false) ∧
  (∀ animal c, matches animal [keyword] c = false) ∧
  (∀ animal kws c, matches animal (keyword :: kws) c = matches animal kws c).
Proof.
  intros Hup.
  assert (∀ c, Str.contains keyword (Str.lower c) = false) as H.
  { intros c. by apply contains_lower_upper. }
  split_and!; [done|..].
  - intros animal c. unfold matches. simpl. rewrite H. apply andb_false_r.
  - intros animal kws c. unfold matches. simpl. by rewrite H.
Qed.

Lemma upper_case_keyword_never_matches_witness :
  (∀ c, Str.contains "Populasi" (Str.lower c) = false) ∧
  (∀ animal c, matches animal ["Populasi"] c = false) ∧
  (∀ animal kws c, matches animal ("Populasi" :: kws) c = matches animal kws c).
Proof. apply (upper_case_keyword_never_matches "Populasi"). reflexivity. Defined.

(** The keywords that the prompt returns are lower-cased. *)
Lemma get_column_keywords_lower choice line :
  Forall (λ k, Str.lower k = k) (get_column_keywords choice line).
Proof.
  unfold get_column_keywords.
  repeat (destruct (String.eqb choice _); [by repeat constructor|]).
  destruct (String.eqb choice _); [|by repeat constructor].
  apply Forall_fmap, Forall_forall. intros k _. apply lower_idem.
Qed.

Lemma existsb_elem {A} (f : A → bool) (l : list A) :
  existsb f l = true ↔ ∃ x, x ∈ l ∧ f x = true.
Proof.
  rewrite existsb_exists. by setoid_rewrite list_elem_of_In.
Qed.

(** C6, as the code has it: the derived columns that a family column
    matches.  The animal of a family column is the rest of its name
    after the family prefix, that is, after its fourth
    underscore-delimited segment.  A column of the template is among
    the matching columns exactly when its name contains the animal
    and, the case of the name's letters disregarded, one of the
    keywords that has no upper-case letter: the comparison disregards
    the case of the name only, and the keyword is taken as typed. *)
Theorem matching_cols_spec col kws template_columns c :
  Str.startswith col "n_rtup_ternak_usaha_" = true →
  col = "n_rtup_ternak_usaha_" +:+ animal_of col ∧
  (c ∈ matching_cols (animal_of col) kws template_columns ↔
   c ∈ template_columns ∧ substring (animal_of col) c ∧
   ∃ k, k ∈ kws ∧ Str.any Str.is_upper k = false ∧ contains_ignore_case k c = true).
Proof.
  intros Hfam. split; [by apply startswith_family|].
  unfold matching_cols. rewrite list_elem_of_filter, Is_true_true.
  unfold matches. rewrite andb_true_iff, contains_spec, existsb_elem.
  split.
  - intros [[Ha (k & Hk & Hc)] Hc'].
    rewrite contains_lower, andb_true_iff, negb_true_iff in Hc.
    split_and!; [done..|]. exists k. tauto.
  - intros (Hc' & Ha & k & Hk & Hup & Hc). split_and!; [done| |done].
    exists k. split; [done|]. by rewrite contains_lower, Hup, Hc.
Qed.

Lemma matching_cols_spec_witness :
  let col := "n_rtup_ternak_usaha_ayam_kampung" in
  let kws := ["Rerata"; "populasi"] in
  let template_columns := ["kec"; "Populasi_ayam_kampung"; "RERATA_ayam_kampung"] in
  let c := "Populasi_ayam_kampung" in
  col = "n_rtup_ternak_usaha_" +:+ animal_of col ∧
  (c ∈ matching_cols (animal_of col) kws template_columns ↔
   c ∈ template_columns ∧ substring (animal_of col) c ∧
   ∃ k, k ∈ kws ∧ Str.any Str.is_upper k = false ∧ contains_ignore_case k c = true).
Proof.
  intros col kws template_columns c.
  by apply (matching_cols_spec col kws template_columns c).
Defined.

(** C6, as the claim has it, fails: the keyword is compared as it was
    typed.  The two names below contain the animal and, without
    regard to case, the keyword, the second of them letter for
    letter, and neither is a matching column. *)
Lemma keyword_compared_as_typed :
  let cols := ["populasi_ayam"; "Populasi_ayam"] in
  animal_of "n_rtup_ternak_usaha_ayam" = "ayam" ∧
  Forall (λ c, substring "ayam" c ∧ contains_ignore_case "Populasi" c = true) cols ∧
  substring "Populasi" "Populasi_ayam" ∧
  matching_cols (animal_of "n_rtup_ternak_usaha_ayam") ["Populasi"] cols = [].
Proof.
  split_and!; [reflexivity| |by exists "", "_ayam"|reflexivity].
  repeat constructor; first [by exists "populasi_", ""|by exists "Populasi_", ""].
Qed.

(** ** The pass over the template *)

Lemma matches_no_keyword animal c : matches animal [] c = false.
Proof. unfold matches. simpl. apply andb_false_r. Qed.

Lemma matching_cols_no_keyword col tpl : Tab.matching_cols col [] tpl = [].
Proof.
  unfold Tab.matching_cols, matching_cols. induction (Pd.columns tpl) as [|c l IH]; [done|].
  rewrite filter_cons, IH, matches_no_keyword. by case_decide.
Qed.

Lemma apply_rule_no_keyword ref tpl : Tab.apply_rule ref [] tpl = Ok tpl.
Proof.
  unfold Tab.apply_rule. apply foldM_fixed. intros col _.
  unfold Tab.mask_family. rewrite matching_cols_no_keyword.
  by destruct (Str.startswith _ _).
Qed.

(** C7: with no keyword no column matches, the pass raises nothing,
    and the template it returns has the content of the unmodified
    derived rows, which are still in place. *)
Theorem empty_keywords_leave_template w df_ref_filtered df_derived_filtered ref der :
  frames w !! df_ref_filtered = Some ref →
  frames w !! df_derived_filtered = Some der →
  (∀ animal c, matches animal [] c = false) ∧
  ∃ df_template w',
    build_template df_ref_filtered df_derived_filtered [] w = (Ok df_template, w') ∧
    frames w' !! df_template = Some der ∧
    frames w' !! df_derived_filtered = Some der.
Proof.
  intros Hr Hd. split; [apply matches_no_keyword|].
  destruct (build_template_run _ _ _ _ [] _ Hr Hd) as (w' & Hrun & Hfresh & Honly & Hok).
  rewrite apply_rule_no_keyword in Hrun, Hok. simpl in Hrun.
  eexists _, w'. split; [exact Hrun|].
  split; [by apply Hok|].
  destruct Honly as [Hframes _]. rewrite Hframes; [done|]. congruence.
Qed.

Lemma empty_keywords_leave_template_witness :
  let w := Example.sheets Example.ref_ayam Example.der_ayam in
  (∀ animal c, matches animal [] c = false) ∧
  ∃ df_template w',
    build_template Example.df_ref Example.df_derived [] w = (Ok df_template, w') ∧
    frames w' !! df_template = Some Example.der_ayam ∧
    frames w' !! Example.df_derived = Some Example.der_ayam.
Proof.
  intros w.
  apply (empty_keywords_leave_template w Example.df_ref Example.df_derived
           Example.ref_ayam Example.der_ayam); reflexivity.
Defined.

(** The template frame that [build_template] returns holds what the
    pass computes from the derived rows. *)
Lemma build_template_returns w lr ld ref der kws lt w' :
  frames w !! lr = Some ref → frames w !! ld = Some der →
  build_template lr ld kws w = (Ok lt, w') →
  ∃ tpl, Tab.apply_rule ref kws der = Ok tpl ∧ frames w' !! lt = Some tpl ∧
         frames w !! lt = None ∧ only_frame lt w w'.
Proof.
  intros Hr Hd Hrun.
  destruct (build_template_run _ _ _ _ kws _ Hr Hd) as (w1 & Hrun1 & Hfresh & Honly & Hok).
  rewrite Hrun in Hrun1.
  destruct (Tab.apply_rule ref kws der) as [tpl|e]; simpl in Hrun1; [|done].
  injection Hrun1 as -> ->. exists tpl. split_and!; [done| |done..].
  by apply Hok.
Qed.

(** C2, as the code has it: every matched column is coerced, whether
    or not the mask selects one of its rows: after the pass each of its
    cells holds the text of the value it had, or the sentinel.  A
    column that no family column matches is as it was. *)
Theorem matched_columns_coerced w df_ref_filtered df_derived_filtered ref der kws
    df_template w' :
  frames w !! df_ref_filtered = Some ref →
  frames w !! df_derived_filtered = Some der →
  build_template df_ref_filtered df_derived_filtered kws w = (Ok df_template, w') →
  ∃ tpl, frames w' !! df_template = Some tpl ∧
    ∀ name s, Pd.getitem der name = Ok s →
      (matched ref kws name →
       ∃ s', Pd.getitem tpl name = Ok s' ∧
             Forall2 (λ x y, y = Text (Pd.cell_str x) ∨ y = Text "NA") s s') ∧
      (¬ matched ref kws name → Pd.getitem tpl name = Ok s).
Proof.
  intros Hr Hd Hrun.
  destruct (build_template_returns _ _ _ _ _ _ _ _ Hr Hd Hrun) as (tpl & Hpass & Htpl & _).
  exists tpl. split; [done|]. intros name s Hs. split.
  - intros Hm. destruct (apply_rule_matched _ _ _ _ _ _ Hpass Hm Hs) as (s' & Hs' & Hlen & Hcells).
    exists s'. split; [done|]. apply Forall2_same_length_lookup_2; [done|].
    intros i x y Hx Hy. destruct (Hcells _ _ Hx) as (y' & Hy' & Hrel).
    assert (y' = y) as -> by congruence. destruct Hrel as [?|[? _]]; auto.
  - intros Hm. by rewrite (apply_rule_unmatched _ _ _ _ _ Hpass Hm).
Qed.

Lemma matched_columns_coerced_witness :
  let w := Example.sheets Example.ref_none Example.der_none in
  ∃ df_template w' tpl,
    build_template Example.df_ref Example.df_derived ["populasi"] w = (Ok df_template, w') ∧
    frames w' !! df_template = Some tpl ∧
    ∀ name s, Pd.getitem Example.der_none name = Ok s →
      (matched Example.ref_none ["populasi"] name →
       ∃ s', Pd.getitem tpl name = Ok s' ∧
             Forall2 (λ x y, y = Text (Pd.cell_str x) ∨ y = Text "NA") s s') ∧
      (¬ matched Example.ref_none ["populasi"] name → Pd.getitem tpl name = Ok s).
Proof.
  intros w.
  destruct (build_template Example.df_ref Example.df_derived ["populasi"] w)
    as [r w'] eqn:Hrun.
  assert (∃ lt, r = Ok lt) as [lt ->].
  { exists 2%nat. by vm_compute in Hrun; injection Hrun as <- _. }
  destruct (matched_columns_coerced w Example.df_ref Example.df_derived
              Example.ref_none Example.der_none ["populasi"] lt w')
    as (tpl & Htpl & Hcols); [reflexivity..|exact Hrun|].
  by exists lt, w', tpl.
Defined.

(** C2, as the claim has it, fails: the family column below selects no
    row, no cell of the matched column receives the sentinel, and yet
    the column comes out in text. *)
Lemma coercion_without_overwrite :
  let w := Example.sheets Example.ref_none Example.der_none in
  let out := build_template Example.df_ref Example.df_derived ["populasi"] w in
  Tab.matched_kec Example.ref_none "n_rtup_ternak_usaha_ayam" = Ok [] ∧
  matches (animal_of "n_rtup_ternak_usaha_ayam") ["populasi"] "populasi_ayam" = true ∧
  Pd.getitem Example.der_none "populasi_ayam" = Ok [Int 10; Int 20] ∧
  ∃ df_template, fst out = Ok df_template ∧
    Pd.getitem (frames (snd out) !!! df_template) "populasi_ayam" =
      Ok [Text "10"; Text "20"].
Proof. split_and!; [reflexivity..|]. exists 2%nat. by vm_compute. Qed.

(** C4, as the code has it: in the scenario of the four sub-regions
    the run returns, and the column of the template sheet is
    ["10"; "NA"; "NA"; "40"], all four in text. *)
Theorem scenario_template_column :
  let w := Example.sheets Example.ref_ayam Example.der_ayam in
  let out := process_excel_data Example.df_ref Example.df_derived
               "output/PROCESSED_6_30.xlsx" 7205 ["populasi"] w in
  ∃ riil template sheets,
    fst out = Ok (riil, template) ∧
    files (snd out) = [("output/PROCESSED_6_30_KOTA_BANDUNG.xlsx", sheets)] ∧
    sheets.*1 = ["acuan"; "riil"; "template"] ∧
    sheets !! 2%nat = Some ("template", frames (snd out) !!! template) ∧
    Pd.getitem (frames (snd out) !!! template) "populasi_ayam_kampung" =
      Ok [Text "10"; Text "NA"; Text "NA"; Text "40"] ∧
    Pd.getitem (frames (snd out) !!! riil) "populasi_ayam_kampung" =
      Ok [Int 10; Int 20; Int 30; Int 40].
Proof. intros w out. eexists 4%nat, 5%nat, _. by vm_compute. Qed.

(** C4, as the claim has it, fails: the cells outside the mask do not
    hold the numbers 10 and 40. *)
Lemma scenario_template_not_numbers :
  let w := Example.sheets Example.ref_ayam Example.der_ayam in
  let out := process_excel_data Example.df_ref Example.df_derived
               "output/PROCESSED_6_30.xlsx" 7205 ["populasi"] w in
  ∃ riil template,
    fst out = Ok (riil, template) ∧
    Pd.getitem (frames (snd out) !!! template) "populasi_ayam_kampung" ≠
      Ok [Int 10; Text "NA"; Text "NA"; Int 40].
Proof. intros w out. exists 4%nat, 5%nat. by vm_compute. Qed.

(** C5, as the code has it: provided the sub-region column [kec] of
    the derived rows is not itself a matched column, the pass is
    idempotent: run again on the template it has produced, with the
    same reference rows and keywords, it returns and leaves every
    frame as the first run left it. *)
Theorem apply_rule_idempotent w df_ref_filtered df_template ref tpl kws w1 :
  df_ref_filtered ≠ df_template →
  frames w !! df_ref_filtered = Some ref →
  frames w !! df_template = Some tpl →
  kec_unmatched ref kws →
  apply_rule df_ref_filtered df_template kws w = (Ok (), w1) →
  ∃ w2, apply_rule df_ref_filtered df_template kws w1 = (Ok (), w2) ∧
        frames w2 = frames w1.
Proof.
  intros Hne Hr Ht Hkec Hrun.
  destruct (apply_rule_run _ _ _ Hne kws _ _ Hr Ht) as (w1' & Hrun1 & [Honly1 Htpl1] & _).
  rewrite Hrun in Hrun1.
  destruct (Tab.apply_rule ref kws tpl) as [tpl1|e] eqn:Hpass; simpl in Hrun1; [|done].
  injection Hrun1 as <-.
  assert (Hr1 : frames w1 !! df_ref_filtered = Some ref).
  { destruct Honly1 as [H _]. by rewrite H. }
  destruct (apply_rule_run _ _ _ Hne kws _ _ Hr1 Htpl1) as (w2 & Hrun2 & [Honly2 Htpl2] & _).
  rewrite (apply_rule_settled _ _ Hkec _ _ Hpass) in Hrun2, Htpl2.
  exists w2. split; [done|]. apply map_eq. intros l.
  destruct (decide (l = df_template)) as [->|Hl]; [congruence|].
  destruct Honly2 as [H _]. by apply H.
Qed.

Lemma apply_rule_idempotent_witness :
  let w := Example.sheets Example.ref_ayam Example.der_ayam in
  ∃ w1 w2,
    apply_rule Example.df_ref Example.df_derived ["populasi"] w = (Ok (), w1) ∧
    apply_rule Example.df_ref Example.df_derived ["populasi"] w1 = (Ok (), w2) ∧
    frames w2 = frames w1.
Proof.
  intros w.
  destruct (apply_rule Example.df_ref Example.df_derived ["populasi"] w)
    as [r w1] eqn:Hrun.
  assert (r = Ok ()) as ->.
  { by vm_compute in Hrun; injection Hrun as <- _. }
  destruct (apply_rule_idempotent w Example.df_ref Example.df_derived
              Example.ref_ayam Example.der_ayam ["populasi"] w1)
    as (w2 & Hrun2 & Hframes); [done|reflexivity|reflexivity| |exact Hrun|].
  - intros col [Hcol _]. unfold Pd.columns in Hcol. simpl in Hcol.
    repeat (apply elem_of_cons in Hcol as [->|Hcol]; [reflexivity|]).
    by apply elem_of_nil in Hcol.
  - by exists w1, w2.
Defined.

(** C5, as the claim has it, fails: where the sub-region column is
    itself matched, the first pass coerces it, the codes then compare
    equal to those of the reference, and the second pass writes a
    sentinel that the first did not. *)
Lemma second_pass_differs :
  let w := Example.sheets Example.ref_codes Example.der_codes in
  let once := apply_rule Example.df_ref Example.df_derived ["e"] w in
  let twice := apply_rule Example.df_ref Example.df_derived ["e"] (snd once) in
  fst once = Ok () ∧ fst twice = Ok () ∧
  frames (snd once) !! Example.df_derived =
    Some [("kec", [Text "1"]); ("xe", [Text "10"])] ∧
  frames (snd twice) !! Example.df_derived =
    Some [("kec", [Text "1"]); ("xe", [Text "NA"])].
Proof. by vm_compute. Qed.

(** ** The template is a copy *)

(** C8, as the code has it: masking works on a copy.  Whatever the
    pass does, the derived rows and every other frame that existed
    are left as they were.  When it returns, the template is a new
    frame with the columns of the derived rows and as many rows; a
    column that no family column matches is as it was; and where the
    sub-region column is not itself a matched column, each cell of a
    matched column holds the text of what the derived cell holds, or
    the sentinel, the last only in a row whose sub-region code is in
    the masked set of a family column that matches this very
    column. *)
Theorem masking_on_copy w df_ref_filtered df_derived_filtered ref der kws r w' :
  frames w !! df_ref_filtered = Some ref →
  frames w !! df_derived_filtered = Some der →
  build_template df_ref_filtered df_derived_filtered kws w = (r, w') →
  (∀ l t, frames w !! l = Some t → frames w' !! l = Some t) ∧
  ∀ df_template, r = Ok df_template →
    frames w !! df_template = None ∧
    ∃ tpl, frames w' !! df_template = Some tpl ∧
      Pd.columns tpl = Pd.columns der ∧
      ∀ name s, Pd.getitem der name = Ok s →
        ∃ s', Pd.getitem tpl name = Ok s' ∧ length s' = length s ∧
          (¬ matched ref kws name → s' = s) ∧
          (kec_unmatched ref kws → matched ref kws name →
           ∀ i x y, s !! i = Some x → s' !! i = Some y →
             y = Text (Pd.cell_str x) ∨
             (y = Text "NA" ∧ masked_by ref kws der name i)).
Proof.
  intros Hr Hd Hrun.
  destruct (build_template_run _ _ _ _ kws _ Hr Hd) as (w1 & Hrun1 & Hfresh & Honly & Hok).
  rewrite Hrun in Hrun1. injection Hrun1 as -> ->. split.
  - intros l t Hl. destruct Honly as [H _]. rewrite H; [done|]. congruence.
  - intros lt Hlt.
    destruct (Tab.apply_rule ref kws der) as [tpl|e] eqn:Hpass; simpl in Hlt; [|done].
    injection Hlt as <-. split; [done|].
    exists tpl. split; [by apply Hok|].
    destruct (apply_rule_invariant _ _ _ _ Hpass) as [Hcols Hinv].
    split; [done|]. intros name s Hs.
    destruct (Hinv _ _ Hs) as (s' & Hs' & Hrel). exists s'. split; [done|].
    split_and!.
    + destruct Hrel as [->|[_ [Hlen _]]]; done.
    + intros Hno. pose proof (apply_rule_unmatched _ _ _ _ name Hpass Hno). congruence.
    + intros Hkec Hmatched i x y Hx Hy.
      destruct (apply_rule_invariant_by _ _ _ Hkec _ Hpass) as (_ & _ & Hcells).
      destruct (Hcells _ _ Hs) as (s2 & Hs2 & _ & Hrows).
      assert (s2 = s') as -> by congruence.
      destruct (Hrows _ _ Hx) as (y' & Hy' & Hcase).
      assert (y' = y) as -> by congruence.
      destruct Hcase as [->|[->|[-> ?]]]; [|by left|by right].
      left. destruct (apply_rule_textual _ _ _ _ name Hpass Hmatched) as (s0 & Hs0 & Htext).
      { apply getitem_columns. by eexists. }
      assert (s0 = s') as -> by congruence.
      unfold textual in Htext. rewrite <-Htext, astype_str_lookup in Hy.
      destruct (s' !! i) as [y0|] eqn:E; simpl in Hy; [|done].
      injection Hy as <-. by rewrite cell_str_text.
Qed.

Lemma masking_on_copy_witness :
  let w := Example.sheets Example.ref_ayam Example.der_ayam in
  let out := build_template Example.df_ref Example.df_derived ["populasi"] w in
  (∀ l t, frames w !! l = Some t → frames (snd out) !! l = Some t) ∧
  ∀ df_template, fst out = Ok df_template →
    frames w !! df_template = None ∧
    ∃ tpl, frames (snd out) !! df_template = Some tpl ∧
      Pd.columns tpl = Pd.columns Example.der_ayam ∧
      ∀ name s, Pd.getitem Example.der_ayam name = Ok s →
        ∃ s', Pd.getitem tpl name = Ok s' ∧ length s' = length s ∧
          (¬ matched Example.ref_ayam ["populasi"] name → s' = s) ∧
          (matched Example.ref_ayam ["populasi"] name →
           ∀ i x y, s !! i = Some x → s' !! i = Some y →
             y = Text (Pd.cell_str x) ∨
             (y = Text "NA" ∧
              masked_by Example.ref_ayam ["populasi"] Example.der_ayam name i)).
Proof.
  intros w out.
  assert (kec_unmatched Example.ref_ayam ["populasi"]) as Hkec.
  { intros col [Hcol _]. unfold Pd.columns in Hcol. simpl in Hcol.
    repeat (apply elem_of_cons in Hcol as [->|Hcol]; [reflexivity|]).
    by apply elem_of_nil in Hcol. }
  destruct (masking_on_copy w Example.df_ref Example.df_derived
              Example.ref_ayam Example.der_ayam ["populasi"] (fst out) (snd out))
    as [Hkeep Hnew]; [reflexivity|reflexivity|apply surjective_pairing|].
  split; [exact Hkeep|]. intros df_template Hout.
  destruct (Hnew df_template Hout) as (Hfresh & tpl & Htpl & Hcols & Hcells).
  split; [exact Hfresh|]. exists tpl. split_and!; [done..|].
  intros name s Hs. destruct (Hcells name s Hs) as (s' & Hs' & Hlen & Hun & Hm).
  exists s'. split_and!; [done..|]. by apply Hm.
Defined.

(** C8, as the claim has it, fails where the sub-region column is
    itself matched.  The derived row below has the code 1, a number,
    which is in no masked set of the reference rows, whose code is
    the text 1; the family [k] has the sub-region column coerced to
    text, after which the family [x] finds the code in its masked set
    and the row receives the sentinel. *)
Lemma sentinel_outside_masked_set :
  let w := Example.sheets Sample.ref_text_codes Sample.der_number_codes in
  let out := build_template Example.df_ref Example.df_derived ["e"] w in
  Pd.getitem Sample.der_number_codes "kec" = Ok [Int 1] ∧
  Pd.getitem Sample.der_number_codes "xe" = Ok [Int 10] ∧
  (∀ col, ¬ in_masked_set Sample.ref_text_codes col (Int 1)) ∧
  ∃ df_template, fst out = Ok df_template ∧
    Pd.getitem (frames (snd out) !!! df_template) "xe" = Ok [Text "NA"].
Proof.
  split_and!; [reflexivity..| |exists 2%nat; by vm_compute].
  intros col (a & kecs & j & v & _ & Hk & _ & _ & Hj).
  injection Hk as <-. by destruct j as [|[|j]].
Qed.

(** ** The row filter and the region label *)

Lemma select_none (mask : list bool) (s : list cell) :
  Forall (λ b, b = false) mask → Pd.select mask s = [].
Proof.
  intros H. revert s. induction H as [|b mask -> _ IH]; intros [|x s]; simpl; auto.
Qed.

Lemma iloc0_no_rows t kab (kab_code : Z) :
  Pd.getitem t "kab" = Ok kab →
  Forall (λ c, Pd.eq_int kab_code c = false) kab →
  Pd.iloc0 (Pd.select_rows (Pd.eq_int kab_code <$> kab) t) = Raise IndexError.
Proof.
  intros Hkab Hnone. destruct t as [|[n v] t]; [done|]. simpl.
  rewrite select_none; [done|]. by apply Forall_fmap.
Qed.

Lemma filter_kab_run w df t kab (kab_code : Z) :
  frames w !! df = Some t → Pd.getitem t "kab" = Ok kab →
  let l := fresh (dom (frames w)) in
  filter_kab df kab_code w =
    (Ok l, set_frames <[l:=Pd.select_rows (Pd.eq_int kab_code <$> kab) t]> w) ∧
  frames w !! l = None.
Proof.
  intros Hdf Hkab l. split; [|apply not_elem_of_dom, is_fresh].
  unfold filter_kab. rewrite bind_run, (frame_getitem_run _ _ _ _ Hdf), Hkab.
  unfold frame_select. by rewrite bind_run, (read_run _ _ _ Hdf).
Qed.

Lemma frame_iloc0_run w df t :
  frames w !! df = Some t → frame_iloc0 df w = (Pd.iloc0 t, w).
Proof. intros H. unfold frame_iloc0. by rewrite bind_run, (read_run _ _ _ H). Qed.

(** C3 fails on the code for the reference sheet: when none of its rows
    has the region code, [get_kabupaten_name] takes the first row of an
    empty selection, the run raises [IndexError] before the writer is
    opened, and no workbook is saved. *)
Theorem empty_reference_filter_raises w df_ref df_derived output_file kab_code
    column_keywords ref kab :
  frames w !! df_ref = Some ref →
  Pd.getitem ref "kab" = Ok kab →
  Forall (λ c, Pd.eq_int kab_code c = false) kab →
  ∃ w', process_excel_data df_ref df_derived output_file kab_code column_keywords w =
          (Raise IndexError, w') ∧
        files w' = files w.
Proof.
  intros Hdf Hkab Hnone. unfold process_excel_data.
  destruct (filter_kab_run w df_ref ref kab kab_code Hdf Hkab) as [Hrun1 Hfresh1].
  rewrite bind_run, Hrun1. set (w1 := set_frames _ w).
  assert (Hdf1 : frames w1 !! df_ref = Some ref).
  { simpl. rewrite lookup_insert_ne; [done|]. congruence. }
  unfold get_kabupaten_name.
  destruct (filter_kab_run w1 df_ref ref kab kab_code Hdf1 Hkab) as [Hrun2 Hfresh2].
  rewrite !bind_run, Hrun2. set (w2 := set_frames _ w1).
  rewrite bind_run, (frame_iloc0_run w2 _ (Pd.select_rows (Pd.eq_int kab_code <$> kab) ref)).
  2:{ simpl. by rewrite lookup_insert_eq. }
  rewrite (iloc0_no_rows _ _ _ Hkab Hnone). by exists w2.
Qed.

Lemma empty_reference_filter_raises_witness :
  let w := Example.sheets Example.ref_elsewhere Example.der_ayam in
  ∃ w', process_excel_data Example.df_ref Example.df_derived
          "output/PROCESSED_6_30.xlsx" 7205 ["populasi"] w = (Raise IndexError, w') ∧
        files w' = files w.
Proof.
  intros w.
  apply (empty_reference_filter_raises w Example.df_ref Example.df_derived
           "output/PROCESSED_6_30.xlsx" 7205 ["populasi"]
           Example.ref_elsewhere [Int 7201; Int 7201]); [reflexivity..|].
  by repeat constructor.
Defined.

(** The derived sheet is treated as the claim says: with none of its
    rows in the region, the run returns and writes empty [riil] and
    [template] sheets. *)
Lemma empty_derived_filter_runs :
  let w := Example.sheets Example.ref_ayam Example.der_elsewhere in
  let out := process_excel_data Example.df_ref Example.df_derived
               "output/PROCESSED_6_30.xlsx" 7205 ["populasi"] w in
  let empty := [("kab", []); ("kec", []); ("populasi_ayam_kampung", [])] in
  ∃ riil template acuan,
    fst out = Ok (riil, template) ∧
    files (snd out) =
      [("output/PROCESSED_6_30_KOTA_BANDUNG.xlsx",
        [("acuan", acuan); ("riil", empty); ("template", empty)])].
Proof. intros w out empty. eexists 4%nat, 5%nat, _. by vm_compute. Qed.

Lemma lstrip_id s : Str.starts Str.not_space s = true → Str.lstrip s = s.
Proof. destruct s as [|c s]; [done|]. simpl. by intros ->%negb_true_iff. Qed.

Lemma rstrip_id s : Str.ends Str.not_space s = true → Str.rstrip s = s.
Proof.
  induction s as [|c s IH]; [done|]. simpl. destruct s as [|c' s'].
  - by intros ->%negb_true_iff.
  - intros H. by rewrite (IH H).
Qed.

Lemma strip_id s :
  Str.starts Str.not_space s = true → Str.ends Str.not_space s = true →
  Str.strip s = s.
Proof. intros Hs He. unfold Str.strip. by rewrite rstrip_id, lstrip_id. Qed.

Lemma word_not_space c : Str.is_word c = true → Str.not_space c = true.
Proof. by destruct c as [[] [] [] [] [] [] [] []]. Qed.

Lemma word_not_open c : Str.is_word c = true → Re.not_open c = true.
Proof. by destruct c as [[] [] [] [] [] [] [] []]. Qed.

Lemma all_impl (p q : ascii → bool) s :
  (∀ c, p c = true → q c = true) → Str.all p s = true → Str.all q s = true.
Proof.
  intros Hpq. induction s as [|c s IH]; simpl; [done|].
  intros [Hc Hs]%andb_true_iff. by rewrite (Hpq _ Hc), IH.
Qed.



Lemma all_starts p s : Str.all p s = true → Str.starts p s = true.
Proof. destruct s; simpl; [done|]. by intros [? _]%andb_true_iff. Qed.

Lemma all_ends p s : Str.all p s = true → Str.ends p s = true.
Proof.
  induction s as [|c s IH]; simpl; [done|].
  intros [Hc Hs]%andb_true_iff. destruct s; auto.
Qed.

Lemma sub_nonword_id w : Str.all Str.is_word w = true → Re.sub_nonword w = w.
Proof.
  intros Hw. unfold Re.sub_nonword. rewrite <-(app_nil_r_s w) at 1.
  rewrite sub_nonword_words by auto. apply app_nil_r_s.
Qed.





(** * Further properties *)

(** ** The row filter *)

Lemma columns_select_rows mask t : Pd.columns (Pd.select_rows mask t) = Pd.columns t.
Proof.
  unfold Pd.columns, Pd.select_rows. rewrite <-list_fmap_compose.
  apply list_fmap_ext. by intros _ [n v] _.
Qed.

Lemma getitem_select_rows mask t name :
  Pd.getitem (Pd.select_rows mask t) name = Pd.select mask <$> Pd.getitem t name.
Proof.
  induction t as [|[n v] t IH]; simpl; [done|].
  by destruct (String.eqb n name).
Qed.

Lemma select_sublist (mask : list bool) (s : list cell) : Pd.select mask s `sublist_of` s.
Proof.
  revert s. induction mask as [|b mask IH]; intros [|x s]; simpl;
    try apply sublist_nil_l.
  destruct b; [by apply sublist_skip|by apply sublist_cons].
Qed.

Lemma eq_int_true k c : Pd.eq_int k c = true ↔ c = Int k.
Proof.
  destruct c as [v| |]; simpl; [|done..].
  rewrite Z.eqb_eq. split; congruence.
Qed.

Lemma select_kab (kab : list cell) k :
  Pd.select (Pd.eq_int k <$> kab) kab = filter (λ c, c = Int k) kab.
Proof.
  induction kab as [|c kab IH]; [done|].
  rewrite fmap_cons, filter_cons. simpl. rewrite IH.
  destruct (Pd.eq_int k c) eqn:E.
  - apply eq_int_true in E. by rewrite decide_True.
  - rewrite decide_False; [done|]. intros H%eq_int_true. congruence.
Qed.

Lemma select_length (mask : list bool) (s : list cell) :
  length s = length mask →
  length (Pd.select mask s) = length (filter (λ b, b = true) mask).
Proof.
  revert s. induction mask as [|b mask IH]; intros [|x s]; simpl; try done.
  intros [= Hlen]. destruct b.
  - rewrite filter_cons_True by done. simpl. by rewrite IH.
  - rewrite filter_cons_False by done. by apply IH.
Qed.

Lemma select_nil_r (mask : list bool) : Pd.select mask (@nil cell) = [].
Proof. by destruct mask. Qed.

Lemma select_again (f : cell → bool) (kab s : list cell) :
  Pd.select (f <$> Pd.select (f <$> kab) kab) (Pd.select (f <$> kab) s) =
  Pd.select (f <$> kab) s.
Proof.
  revert s. induction kab as [|k kab IH]; intros s.
  { by destruct s. }
  destruct s as [|x s].
  { by rewrite !select_nil_r. }
  simpl. destruct (f k) eqn:E; simpl; [|apply IH].
  rewrite E. by rewrite IH.
Qed.

Lemma select_other (kab s : list cell) k k' :
  k ≠ k' →
  Pd.select (Pd.eq_int k' <$> Pd.select (Pd.eq_int k <$> kab) kab)
            (Pd.select (Pd.eq_int k <$> kab) s) = [].
Proof.
  intros Hne. apply select_none. rewrite select_kab.
  apply Forall_fmap, Forall_forall. intros c [-> _]%list_elem_of_filter.
  simpl. apply Z.eqb_neq. congruence.
Qed.

Lemma filter_kab_content w df t kab_code :
  frames w !! df = Some t →
  let l := fresh (dom (frames w)) in
  frames w !! l = None ∧
  filter_kab df kab_code w =
    match filter_rows t kab_code with
    | Ok t' => (Ok l, set_frames <[l:=t']> w)
    | Raise e => (Raise e, w)
    end.
Proof.
  intros Hdf l. split; [apply not_elem_of_dom, is_fresh|].
  unfold filter_kab, filter_rows.
  rewrite bind_run, (frame_getitem_run _ _ _ _ Hdf).
  destruct (Pd.getitem t "kab") as [kab|e]; simpl; [|done].
  unfold frame_select. by rewrite bind_run, (read_run _ _ _ Hdf).
Qed.

Lemma select_zip (kab s : list cell) k :
  Pd.select (Pd.eq_int k <$> kab) s = (filter (λ p, p.1 = Int k) (zip kab s)).*2.
Proof.
  revert s. induction kab as [|c kab IH]; intros [|x s]; try done.
  rewrite fmap_cons. simpl. rewrite filter_cons. simpl. rewrite IH.
  destruct (Pd.eq_int k c) eqn:E.
  - apply eq_int_true in E. by rewrite decide_True.
  - rewrite decide_False; [done|]. intros H%eq_int_true. congruence.
Qed.

(** The row filter makes a new frame and leaves the frames there are
    as they were.  The new frame has the headers of the sheet, in
    order, and each of its columns holds exactly the cells of the
    rows whose [kab] is the region code, in their order: the column
    read side by side with [kab], the pairs whose [kab] is the code,
    and of these the cells.  Its [kab] column holds nothing but the
    code, and it has as many rows as the sheet has cells of [kab]
    equal to the code. *)
Theorem filter_kab_rows w df t kab kab_code :
  frames w !! df = Some t →
  Pd.getitem t "kab" = Ok kab →
  ∃ l w' t',
    filter_kab df kab_code w = (Ok l, w') ∧
    frames w !! l = None ∧ frames w' !! l = Some t' ∧
    (∀ l0 t0, frames w !! l0 = Some t0 → frames w' !! l0 = Some t0) ∧
    Pd.columns t' = Pd.columns t ∧
    Pd.getitem t' "kab" = Ok (filter (λ c, c = Int kab_code) kab) ∧
    ∀ name s, Pd.getitem t name = Ok s →
      ∃ s', Pd.getitem t' name = Ok s' ∧
            s' = (filter (λ p, p.1 = Int kab_code) (zip kab s)).*2 ∧
            s' `sublist_of` s ∧
            (length s = length kab →
             length s' = length (filter (λ c, c = Int kab_code) kab) ∧
             ∀ x, x ∈ s' ↔ ∃ i, kab !! i = Some (Int kab_code) ∧ s !! i = Some x).
Proof.
  intros Hdf Hkab.
  destruct (filter_kab_content w df t kab_code Hdf) as [Hfresh Hrun].
  unfold filter_rows in Hrun. rewrite Hkab in Hrun. simpl in Hrun.
  eexists _, _, _. split; [exact Hrun|]. split_and!.
  - done.
  - simpl. apply lookup_insert_eq.
  - intros l0 t0 H0. simpl. rewrite lookup_insert_ne; [done|]. congruence.
  - apply columns_select_rows.
  - by rewrite getitem_select_rows, Hkab, <-select_kab.
  - intros name s Hs. rewrite getitem_select_rows, Hs. simpl.
    eexists. split; [done|]. split; [apply select_zip|].
    split; [apply select_sublist|].
    intros Hlen. split.
    + rewrite <-select_kab, !select_length by (by rewrite ?length_fmap).
      done.
    + intros x. rewrite select_elem. split.
      * intros (i & Hm & Hx). exists i. split; [|done].
        rewrite list_lookup_fmap in Hm.
        destruct (kab !! i) as [c|]; simpl in Hm; [|done].
        injection Hm as Hm%eq_int_true. by subst.
      * intros (i & Hk & Hx). exists i. split; [|done].
        rewrite list_lookup_fmap, Hk. simpl. by rewrite Z.eqb_refl.
Qed.

Lemma filter_kab_rows_witness :
  let w := Example.sheets Example.ref_ayam Example.der_ayam in
  ∃ l w' t',
    filter_kab Example.df_ref 7205 w = (Ok l, w') ∧
    frames w !! l = None ∧ frames w' !! l = Some t' ∧
    Pd.columns t' = Pd.columns Example.ref_ayam ∧
    Pd.getitem t' "kec" = Ok [Text "A"; Text "B"; Text "C"; Text "D"].
Proof.
  intros w.
  destruct (filter_kab_rows w Example.df_ref Example.ref_ayam
              [Int 7205; Int 7205; Int 7205; Int 7205] 7205)
    as (l & w' & t' & Hrun & Hfresh & Ht' & _ & Hcols & _ & Hcells); [reflexivity..|].
  destruct (Hcells "kec" [Text "A"; Text "B"; Text "C"; Text "D"] eq_refl)
    as (s' & Hs' & -> & _).
  by exists l, w', t'.
Defined.

(** Filtering twice by the same region code gives the rows of the
    first filter again; filtering the result by another code gives a
    frame with the same headers and no row. *)
Theorem filter_kab_again w df t kab kab_code l w' :
  frames w !! df = Some t →
  Pd.getitem t "kab" = Ok kab →
  filter_kab df kab_code w = (Ok l, w') →
  (∃ l2 w2, filter_kab l kab_code w' = (Ok l2, w2) ∧
            frames w2 !! l2 = frames w' !! l) ∧
  ∀ other, other ≠ kab_code →
    ∃ l3 w3 t3, filter_kab l other w' = (Ok l3, w3) ∧ frames w3 !! l3 = Some t3 ∧
                Pd.columns t3 = Pd.columns t ∧ Forall (λ c, c.2 = []) t3.
Proof.
  intros Hdf Hkab Hrun.
  destruct (filter_kab_content w df t kab_code Hdf) as [Hfresh Hrun1].
  rewrite Hrun in Hrun1. unfold filter_rows in Hrun1. rewrite Hkab in Hrun1.
  simpl in Hrun1. injection Hrun1 as -> ->.
  set (t1 := Pd.select_rows (Pd.eq_int kab_code <$> kab) t).
  set (w1 := set_frames _ w).
  assert (Hl : frames w1 !! fresh (dom (frames w)) = Some t1).
  { simpl. apply lookup_insert_eq. }
  assert (Hkab1 : Pd.getitem t1 "kab" = Ok (Pd.select (Pd.eq_int kab_code <$> kab) kab)).
  { unfold t1. by rewrite getitem_select_rows, Hkab. }
  split.
  - destruct (filter_kab_content w1 _ t1 kab_code Hl) as [_ Hrun2].
    unfold filter_rows in Hrun2. rewrite Hkab1 in Hrun2. simpl in Hrun2.
    eexists _, _. split; [exact Hrun2|]. rewrite Hl. simpl. rewrite lookup_insert_eq.
    f_equal. unfold t1, Pd.select_rows.
    rewrite <-list_fmap_compose. apply list_fmap_ext. intros _ [n v] _. simpl.
    unfold prod_map. simpl. f_equal. apply select_again.
  - intros other Hother.
    destruct (filter_kab_content w1 _ t1 other Hl) as [_ Hrun3].
    unfold filter_rows in Hrun3. rewrite Hkab1 in Hrun3. simpl in Hrun3.
    eexists _, _, _. split; [exact Hrun3|]. split_and!.
    + simpl. apply lookup_insert_eq.
    + unfold t1. by rewrite !columns_select_rows.
    + unfold t1, Pd.select_rows. rewrite <-list_fmap_compose.
      apply Forall_fmap, Forall_forall. intros [n v] _. simpl.
      by apply select_other.
Qed.

Lemma filter_kab_again_witness :
  let w := Example.sheets Example.ref_ayam Example.der_ayam in
  ∃ l w' l2 w2,
    filter_kab Example.df_ref 7205 w = (Ok l, w') ∧
    filter_kab l 7205 w' = (Ok l2, w2) ∧
    frames w2 !! l2 = frames w' !! l.
Proof.
  intros w.
  destruct (filter_kab Example.df_ref 7205 w) as [r w'] eqn:Hrun.
  assert (∃ l, r = Ok l) as [l ->].
  { exists 2%nat. by vm_compute in Hrun; injection Hrun as <- _. }
  destruct (filter_kab_again w Example.df_ref Example.ref_ayam
              [Int 7205; Int 7205; Int 7205; Int 7205] 7205 l w')
    as [(l2 & w2 & Hrun2 & Hsame) _]; [reflexivity..|exact Hrun|].
  by exists l, w', l2, w2.
Defined.

(** ** The region label *)

Lemma select_first (mask : list bool) (s : list cell) i :
  mask !! i = Some true → (∀ j, (j < i)%nat → mask !! j ≠ Some true) →
  head (Pd.select mask s) = s !! i.
Proof.
  revert mask s. induction i as [|i IH]; intros [|b mask] s Hi Hlt; try done.
  - simpl in Hi. injection Hi as ->. by destruct s.
  - destruct s as [|x s]; [by rewrite select_nil_r|]. simpl.
    destruct b.
    + by destruct (Hlt 0%nat); [lia|].
    + apply IH; [done|]. intros j Hj. apply (Hlt (S j)). lia.
Qed.

Lemma iloc0_select mask t i n :
  rectangular t n → (i < n)%nat →
  mask !! i = Some true → (∀ j, (j < i)%nat → mask !! j ≠ Some true) →
  Pd.iloc0 (Pd.select_rows mask t) =
  Ok ((λ c : string * series, (c.1, default NaN (c.2 !! i))) <$> t).
Proof.
  intros Hrect Hi Hm Hlt. induction Hrect as [|[name v] t Hv _ IH]; [done|].
  simpl in *. pose proof (select_first mask v i Hm Hlt) as Hhead.
  destruct (lookup_lt_is_Some_2 v i) as [x Hx]; [lia|].
  rewrite Hx in Hhead. destruct (Pd.select mask v) as [|y ys]; [done|].
  injection Hhead as ->. simpl. rewrite IH. simpl. by rewrite Hx.
Qed.

Lemma get_row (f : series → cell) t name d :
  Pd.get ((λ c : string * series, (c.1, f c.2)) <$> t) name d =
  match Pd.getitem t name with
  | Ok v => f v
  | Raise _ => d
  end.
Proof.
  induction t as [|[n v] t IH]; simpl; [done|].
  by destruct (String.eqb n name).
Qed.

Lemma first_row_mask kab kab_code i :
  first_row_of kab kab_code i →
  (Pd.eq_int kab_code <$> kab) !! i = Some true ∧
  ∀ j, (j < i)%nat → (Pd.eq_int kab_code <$> kab) !! j ≠ Some true.
Proof.
  intros [Hi Hlt]. split.
  - rewrite list_lookup_fmap, Hi. simpl. by rewrite Z.eqb_refl.
  - intros j Hj. rewrite list_lookup_fmap. specialize (Hlt j Hj).
    destruct (kab !! j) as [c|]; simpl; [|done].
    intros [= H%eq_int_true]. congruence.
Qed.

Lemma kabupaten_name_of_first t n kab kab_code i :
  rectangular t n → Pd.getitem t "kab" = Ok kab → first_row_of kab kab_code i →
  kabupaten_name_of t kab_code =
  match Pd.getitem t "id_kab" with
  | Ok idk =>
      match default NaN (idk !! i) with
      | Text s => Ok (clean_kabupaten_name s)
      | _ => Raise TypeError
      end
  | Raise _ => Ok (clean_kabupaten_name (Str.of_Z kab_code))
  end.
Proof.
  intros Hrect Hkab Hfirst. unfold kabupaten_name_of, filter_rows.
  rewrite Hkab. simpl.
  destruct (first_row_mask _ _ _ Hfirst) as [Hm Hlt].
  assert (i < n)%nat as Hi.
  { destruct Hfirst as [Hi _]. apply lookup_lt_Some in Hi.
    assert (length kab = n) as <-; [|done].
    clear -Hrect Hkab. induction Hrect as [|[m v] t Hv _ IH]; simpl in *; [done|].
    destruct (String.eqb m "kab"); [congruence|auto]. }
  rewrite (iloc0_select _ _ _ _ Hrect Hi Hm Hlt). simpl.
  rewrite (get_row (λ v, default NaN (v !! i))).
  by destruct (Pd.getitem t "id_kab").
Qed.

Lemma get_kabupaten_name_run w df t kab_code :
  frames w !! df = Some t →
  ∃ w', get_kabupaten_name df kab_code w = (kabupaten_name_of t kab_code, w') ∧
        (∀ l0 t0, frames w !! l0 = Some t0 → frames w' !! l0 = Some t0) ∧
        book w' = book w ∧ files w' = files w ∧ stdout w' = stdout w.
Proof.
  intros Hdf. unfold get_kabupaten_name, kabupaten_name_of.
  destruct (filter_kab_content w df t kab_code Hdf) as [Hfresh Hrun].
  rewrite bind_run, Hrun.
  destruct (filter_rows t kab_code) as [rows|e]; simpl.
  2:{ by exists w. }
  set (w1 := set_frames _ w).
  rewrite bind_run, (frame_iloc0_run w1 _ rows) by (simpl; apply lookup_insert_eq).
  exists w1.
  assert (∀ l0 t0, frames w !! l0 = Some t0 → frames w1 !! l0 = Some t0) as Hkeep.
  { intros l0 t0 H0. simpl. rewrite lookup_insert_ne; [done|]. congruence. }
  destruct (Pd.iloc0 rows) as [row|e]; simpl; [|done].
  by destruct (Pd.get row "id_kab" _).
Qed.

(** The label comes from the first row of the region.  On a sheet
    where row [i] is the first whose [kab] is the region code, the
    label is the cleaned [id_kab] cell of row [i] if that cell is a
    text, and [get_kabupaten_name] raises [TypeError] if it is a number
    or missing. *)
Theorem get_kabupaten_name_first_row w df t n kab idk kab_code i c :
  frames w !! df = Some t →
  rectangular t n →
  Pd.getitem t "kab" = Ok kab →
  first_row_of kab kab_code i →
  Pd.getitem t "id_kab" = Ok idk →
  idk !! i = Some c →
  fst (get_kabupaten_name df kab_code w) =
  match c with
  | Text s => Ok (clean_kabupaten_name s)
  | _ => Raise TypeError
  end.
Proof.
  intros Hdf Hrect Hkab Hfirst Hidk Hc.
  destruct (get_kabupaten_name_run w df t kab_code Hdf) as (w' & -> & _).
  simpl. rewrite (kabupaten_name_of_first _ _ _ _ _ Hrect Hkab Hfirst), Hidk, Hc.
  done.
Qed.

Lemma get_kabupaten_name_first_row_witness :
  let w := Example.sheets Example.ref_ayam Example.der_ayam in
  fst (get_kabupaten_name Example.df_ref 7205 w) =
  Ok (clean_kabupaten_name "[7205] Kota Bandung").
Proof.
  intros w.
  apply (get_kabupaten_name_first_row w Example.df_ref Example.ref_ayam 4
           [Int 7205; Int 7205; Int 7205; Int 7205]
           [Text "[7205] Kota Bandung"; Text "[7205] Kota Bandung";
            Text "[7205] Kota Bandung"; Text "[7205] Kota Bandung"]
           7205 0 (Text "[7205] Kota Bandung")); try reflexivity.
  - by repeat constructor.
  - split; [reflexivity|]. intros j Hj. lia.
Defined.

Lemma of_uint_digits d : Str.all Str.is_digit (NilEmpty.string_of_uint d) = true.
Proof. induction d; simpl; by rewrite ?IHd. Qed.

Lemma of_Z_digits z : 0 ≤ z → Str.all Str.is_digit (Str.of_Z z) = true.
Proof.
  intros Hz. unfold Str.of_Z. destruct z as [|p|p]; [done| |lia].
  simpl. unfold NilZero.string_of_uint.
  pose proof (of_uint_digits (Pos.to_uint p)) as H.
  by destruct (Pos.to_uint p).
Qed.

Lemma digit_word c : Str.is_digit c = true → Str.is_word c = true.
Proof. by destruct c as [[] [] [] [] [] [] [] []]. Qed.

Lemma clean_words s :
  Str.all Str.is_word s = true → clean_kabupaten_name s = s.
Proof.
  intros Hs. unfold clean_kabupaten_name.
  rewrite sub_bracketed_none by (by apply (all_impl _ _ _ word_not_open)).
  rewrite strip_id.
  - by apply sub_nonword_id.
  - by apply all_starts, (all_impl _ _ _ word_not_space).
  - by apply all_ends, (all_impl _ _ _ word_not_space).
Qed.

(** Without an [id_kab] column the label falls back to the region code:
    on a sheet that has a row of the region and no [id_kab] column,
    [get_kabupaten_name] returns the decimal digits of the code. *)
Theorem get_kabupaten_name_fallback w df t n kab kab_code i :
  frames w !! df = Some t →
  rectangular t n →
  Pd.getitem t "kab" = Ok kab →
  first_row_of kab kab_code i →
  "id_kab" ∉ Pd.columns t →
  0 ≤ kab_code →
  fst (get_kabupaten_name df kab_code w) = Ok (Str.of_Z kab_code).
Proof.
  intros Hdf Hrect Hkab Hfirst Hno Hcode.
  destruct (get_kabupaten_name_run w df t kab_code Hdf) as (w' & -> & _).
  simpl. rewrite (kabupaten_name_of_first _ _ _ _ _ Hrect Hkab Hfirst).
  destruct (Pd.getitem t "id_kab") as [idk|e] eqn:E.
  - destruct Hno. apply getitem_columns. by eexists.
  - f_equal. apply clean_words.
    by apply (all_impl _ _ _ digit_word), of_Z_digits.
Qed.

Lemma get_kabupaten_name_fallback_witness :
  let w := Example.sheets Example.der_ayam Example.der_ayam in
  fst (get_kabupaten_name Example.df_ref 7205 w) = Ok (Str.of_Z 7205).
Proof.
  intros w.
  apply (get_kabupaten_name_fallback w Example.df_ref Example.der_ayam 4
           [Int 7205; Int 7205; Int 7205; Int 7205] 7205 0); try reflexivity.
  - by repeat constructor.
  - split; [reflexivity|]. intros j Hj. lia.
  - unfold Pd.columns. simpl. intros H.
    repeat (apply elem_of_cons in H as [H|H]; [discriminate H|]).
    by apply elem_of_nil in H.
  - lia.
Defined.

(** ** The name of the workbook *)

Lemma prefix_shorten p a b :
  String.prefix p (a +:+ b) = true → (String.length p ≤ String.length a)%nat →
  String.prefix p a = true.
Proof.
  revert a. induction p as [|x p IH]; intros a.
  - intros _ _. by destruct a.
  - destruct a as [|y a]; [simpl; lia|]. rewrite app_cons_s. simpl.
    destruct (Ascii.ascii_dec x y); [|done]. intros H Hlen. apply IH; [done|lia].
Qed.

Lemma length_app_s a b :
  String.length (a +:+ b) = (String.length a + String.length b)%nat.
Proof. induction a as [|x a IH]; [done|]. rewrite app_cons_s. simpl. by rewrite IH. Qed.

Lemma contains_cons_false sub c s :
  Str.contains sub (String c s) = false →
  String.prefix sub (String c s) = false ∧ Str.contains sub s = false.
Proof. rewrite contains_cons. apply orb_false_iff. Qed.

Lemma replace_xlsx_end new stem :
  Str.contains ".xlsx" (stem +:+ ".xls") = false →
  Str.replace ".xlsx" new (stem +:+ ".xlsx") = stem +:+ new.
Proof.
  unfold Str.replace. induction stem as [|c stem IH]; intros Hno.
  - rewrite !app_nil_s. simpl. by rewrite app_nil_r_s.
  - rewrite app_cons_s in Hno. apply contains_cons_false in Hno as [Hp Hc].
    rewrite !app_cons_s.
    change (Str.replace_from 0 ".xlsx" new (String c (stem +:+ ".xlsx")))
      with (if String.prefix ".xlsx" (String c (stem +:+ ".xlsx"))
            then new +:+ Str.replace_from (String.length ".xlsx" - 1) ".xlsx" new
                           (stem +:+ ".xlsx")
            else String c (Str.replace_from 0 ".xlsx" new (stem +:+ ".xlsx"))).
    destruct (String.prefix ".xlsx" (String c (stem +:+ ".xlsx"))) eqn:E.
    + exfalso. apply not_true_iff_false in Hp. apply Hp; clear Hp.
      apply (prefix_shorten _ _ "x").
      * by rewrite app_cons_s, app_assoc_s.
      * simpl. rewrite length_app_s. simpl. lia.
    + by rewrite IH.
Qed.

Lemma replace_absent old new s :
  Str.contains old s = false → Str.replace old new s = s.
Proof.
  unfold Str.replace. induction s as [|c s IH]; intros Hno; [done|].
  apply contains_cons_false in Hno as [Hp Hc]. simpl.
  change (match old with
          | "" => true
          | String a s1' =>
              if Ascii.ascii_dec a c then String.prefix s1' s else false
          end) with (String.prefix old (String c s)).
  rewrite Hp. by rewrite IH.
Qed.

(** The label goes before the extension.  For a base name that ends
    in [.xlsx] and holds [.xlsx] nowhere else, the name of the workbook
    is the base name with an underscore and the upper-cased label put
    in before the extension.  A base name that does not hold [.xlsx],
    in this very case, is left as it is: the label is dropped. *)
Theorem output_name_extension kab_name :
  (∀ stem, Str.contains ".xlsx" (stem +:+ ".xls") = false →
     output_name (stem +:+ ".xlsx") kab_name =
     stem +:+ "_" +:+ Str.upper kab_name +:+ ".xlsx") ∧
  (∀ output_file, Str.contains ".xlsx" output_file = false →
     output_name output_file kab_name = output_file).
Proof.
  unfold output_name. split.
  - intros stem Hno. by apply replace_xlsx_end.
  - intros output_file Hno. by apply replace_absent.
Qed.

Lemma output_name_extension_witness :
  output_name ("/CheckNA/output/PROCESSED_tabel_6_30" +:+ ".xlsx") "Kota_Bandung" =
    "/CheckNA/output/PROCESSED_tabel_6_30" +:+ "_" +:+ Str.upper "Kota_Bandung" +:+ ".xlsx" ∧
  output_name "/CheckNA/output/PROCESSED_tabel_6_30.XLSX" "Kota_Bandung" =
    "/CheckNA/output/PROCESSED_tabel_6_30.XLSX".
Proof.
  destruct (output_name_extension "Kota_Bandung") as [Hext Hnone]. split.
  - by apply Hext.
  - by apply Hnone.
Defined.

(** ** The whole run *)

Lemma to_excel_run w df t name :
  frames w !! df = Some t →
  to_excel df name w = (Ok (), set_book (λ b, b ++ [(name, t)]) w).
Proof. intros H. unfold to_excel. by rewrite bind_run, (read_run _ _ _ H). Qed.

(** What the block under the writer leaves, from a world whose open
    book is empty. *)
Lemma writer_block_run w lr ld ref der kws :
  frames w !! lr = Some ref → frames w !! ld = Some der → book w = [] →
  ∃ r w',
    (to_excel lr "acuan";;
     to_excel ld "riil";;
     df_template ← build_template lr ld kws;
     to_excel df_template "template";;
     mret (ld, df_template)) w = (r, w') ∧
    (∀ l0 t0, frames w !! l0 = Some t0 → frames w' !! l0 = Some t0) ∧
    files w' = files w ∧
    match Tab.apply_rule ref kws der with
    | Ok tpl =>
        ∃ lt, r = Ok (ld, lt) ∧ frames w !! lt = None ∧ frames w' !! lt = Some tpl ∧
              book w' = [("acuan", ref); ("riil", der); ("template", tpl)] ∧
              stdout w' = stdout w ++ Tab.processing_log (Pd.columns ref)
    | Raise e => r = Raise e ∧ book w' = [("acuan", ref); ("riil", der)]
    end.
Proof.
  intros Hr Hd Hbook.
  rewrite bind_run, (to_excel_run _ _ _ _ Hr). set (w1 := set_book _ w).
  rewrite bind_run, (to_excel_run w1 _ _ _ Hd). set (w2 := set_book _ w1).
  assert (Hb2 : book w2 = [("acuan", ref); ("riil", der)]).
  { simpl. by rewrite Hbook. }
  destruct (build_template_run lr ld ref der kws w2 Hr Hd)
    as (w3 & Hrun & Hfresh & [Hframes [Hbook3 Hfiles3]] & Hok).
  rewrite bind_run, Hrun.
  assert (∀ l0 t0, frames w !! l0 = Some t0 → frames w3 !! l0 = Some t0) as Hkeep.
  { intros l0 t0 H0. rewrite Hframes; [done|]. intros ->. simpl in *. congruence. }
  destruct (Tab.apply_rule ref kws der) as [tpl|e]; simpl.
  - destruct (Hok tpl eq_refl) as [Htpl Hout].
    rewrite bind_run, (to_excel_run _ _ _ _ Htpl).
    eexists _, _. split; [done|]. split; [done|]. split; [done|].
    exists (fresh (dom (frames w2))). split; [done|]. split; [done|].
    split; [done|]. split; [|done].
    simpl. by rewrite Hbook3, Hb2.
  - eexists _, _. split; [done|]. split; [done|]. split; [done|].
    split; [done|]. by rewrite Hbook3.
Qed.

Lemma process_excel_data_run w df_ref df_derived output_file kab_code kws ref der :
  frames w !! df_ref = Some ref →
  frames w !! df_derived = Some der →
  ∃ r w',
    process_excel_data df_ref df_derived output_file kab_code kws w = (r, w') ∧
    (∀ l0 t0, frames w !! l0 = Some t0 → frames w' !! l0 = Some t0) ∧
    match filter_rows ref kab_code with
    | Raise e => r = Raise e ∧ files w' = files w
    | Ok ref_f =>
      match kabupaten_name_of ref kab_code with
      | Raise e => r = Raise e ∧ files w' = files w
      | Ok label =>
        match filter_rows der kab_code with
        | Raise e => r = Raise e ∧ files w' = files w
        | Ok der_f =>
          let name := output_name output_file label in
          match Tab.apply_rule ref_f kws der_f with
          | Raise e =>
              r = Raise e ∧
              files w' = files w ++ [(name, [("acuan", ref_f); ("riil", der_f)])]
          | Ok tpl =>
              ∃ riil template,
                r = Ok (riil, template) ∧
                frames w' !! riil = Some der_f ∧ frames w' !! template = Some tpl ∧
                files w' = files w ++
                  [(name, [("acuan", ref_f); ("riil", der_f); ("template", tpl)])] ∧
                stdout w' = stdout w ++ Tab.processing_log (Pd.columns ref_f) ++
                  ["Processed data saved to " +:+ name]
          end
        end
      end
    end.
Proof.
  intros Hr Hd. unfold process_excel_data.
  destruct (filter_kab_content w df_ref ref kab_code Hr) as [Hfresh1 Hrun1].
  rewrite bind_run, Hrun1.
  destruct (filter_rows ref kab_code) as [ref_f|e]; simpl.
  2:{ by exists (Raise e), w. }
  set (l1 := fresh (dom (frames w))) in *. set (w1 := set_frames _ w).
  assert (K1 : ∀ l0 t0, frames w !! l0 = Some t0 → frames w1 !! l0 = Some t0).
  { intros l0 t0 H0. simpl. rewrite lookup_insert_ne; [done|]. congruence. }
  assert (H1 : frames w1 !! l1 = Some ref_f) by (simpl; apply lookup_insert_eq).
  destruct (get_kabupaten_name_run w1 df_ref ref kab_code (K1 _ _ Hr))
    as (w2 & Hrun2 & K2 & Hb2 & Hf2 & Ho2).
  rewrite bind_run, Hrun2.
  destruct (kabupaten_name_of ref kab_code) as [label|e]; simpl.
  2:{ exists (Raise e), w2. split_and!; [done| |done|done]. auto. }
  destruct (filter_kab_content w2 df_derived der kab_code (K2 _ _ (K1 _ _ Hd)))
    as [Hfresh3 Hrun3].
  rewrite bind_run, Hrun3.
  destruct (filter_rows der kab_code) as [der_f|e]; simpl.
  2:{ exists (Raise e), w2. split_and!; [done| |done|done]. auto. }
  set (l3 := fresh (dom (frames w2))) in *. set (w3 := set_frames _ w2).
  assert (K3 : ∀ l0 t0, frames w2 !! l0 = Some t0 → frames w3 !! l0 = Some t0).
  { intros l0 t0 H0. simpl. rewrite lookup_insert_ne; [done|]. congruence. }
  assert (H3 : frames w3 !! l3 = Some der_f) by (simpl; apply lookup_insert_eq).
  rewrite bind_run. unfold with_writer.
  destruct (writer_block_run (set_book (λ _, []) w3) l1 l3 ref_f der_f kws)
    as (r & w4 & Hrun4 & K4 & Hf4 & Hcase); [by apply K3, K2|done|done|].
  rewrite Hrun4.
  assert (K : ∀ l0 t0, frames w !! l0 = Some t0 → frames w4 !! l0 = Some t0).
  { intros l0 t0 H0. by apply K4, K3, K2, K1. }
  destruct (Tab.apply_rule ref_f kws der_f) as [tpl|e].
  - destruct Hcase as (lt & -> & Hlt & Htpl & Hb4 & Ho4). simpl.
    eexists _, _. split; [done|]. split; [done|].
    exists l3, lt. split_and!; [done| |done| |].
    + simpl. by apply K4.
    + simpl. rewrite Hb4, Hf4. simpl. by rewrite Hf2.
    + simpl. rewrite Ho4. simpl. rewrite Ho2. simpl. by rewrite <-(assoc_L (++)).
  - destruct Hcase as [-> Hb4]. simpl.
    eexists _, _. split; [done|]. split; [done|]. split; [done|].
    simpl. rewrite Hb4, Hf4. simpl. by rewrite Hf2.
Qed.

(** When the run returns, it has saved one workbook more, under the
    name made from the label, with the sheets [acuan], [riil] and
    [template] in this order: the rows of the region of the reference
    sheet, those of the derived sheet, and what the pass makes of the
    latter.  It has printed a line for each family column and the
    closing line, and left every frame that existed as it was. *)
Theorem process_excel_data_workbook w df_ref df_derived output_file kab_code kws
    ref der riil template w' :
  frames w !! df_ref = Some ref →
  frames w !! df_derived = Some der →
  process_excel_data df_ref df_derived output_file kab_code kws w =
    (Ok (riil, template), w') →
  ∃ label ref_f der_f tpl,
    kabupaten_name_of ref kab_code = Ok label ∧
    filter_rows ref kab_code = Ok ref_f ∧
    filter_rows der kab_code = Ok der_f ∧
    Tab.apply_rule ref_f kws der_f = Ok tpl ∧
    frames w' !! riil = Some der_f ∧ frames w' !! template = Some tpl ∧
    files w' = files w ++
      [(output_name output_file label,
        [("acuan", ref_f); ("riil", der_f); ("template", tpl)])] ∧
    stdout w' = stdout w ++ Tab.processing_log (Pd.columns ref_f) ++
      ["Processed data saved to " +:+ output_name output_file label] ∧
    ∀ l0 t0, frames w !! l0 = Some t0 → frames w' !! l0 = Some t0.
Proof.
  intros Hr Hd Hrun.
  destruct (process_excel_data_run w df_ref df_derived output_file kab_code kws
              ref der Hr Hd) as (r & w1 & Hrun1 & Hkeep & Hcase).
  rewrite Hrun in Hrun1. injection Hrun1 as <- <-.
  destruct (filter_rows ref kab_code) as [ref_f|e] eqn:E1; [|by destruct Hcase].
  destruct (kabupaten_name_of ref kab_code) as [label|e] eqn:E2; [|by destruct Hcase].
  destruct (filter_rows der kab_code) as [der_f|e] eqn:E3; [|by destruct Hcase].
  simpl in Hcase.
  destruct (Tab.apply_rule ref_f kws der_f) as [tpl|e] eqn:E4; [|by destruct Hcase].
  destruct Hcase as (riil' & template' & [= <- <-] & H1 & H2 & H3 & H4).
  exists label, ref_f, der_f, tpl. split_and!; done.
Qed.

Lemma process_excel_data_workbook_witness :
  let w := Example.sheets Example.ref_ayam Example.der_ayam in
  ∃ riil template w' label ref_f der_f tpl,
    process_excel_data Example.df_ref Example.df_derived
      "output/PROCESSED_6_30.xlsx" 7205 ["populasi"] w = (Ok (riil, template), w') ∧
    files w' = files w ++
      [(output_name "output/PROCESSED_6_30.xlsx" label,
        [("acuan", ref_f); ("riil", der_f); ("template", tpl)])].
Proof.
  intros w.
  destruct (process_excel_data Example.df_ref Example.df_derived
              "output/PROCESSED_6_30.xlsx" 7205 ["populasi"] w) as [r w'] eqn:Hrun.
  assert (∃ riil template, r = Ok (riil, template)) as (riil & template & ->).
  { exists 4%nat, 5%nat. by vm_compute in Hrun; injection Hrun as <- _. }
  destruct (process_excel_data_workbook w Example.df_ref Example.df_derived
              "output/PROCESSED_6_30.xlsx" 7205 ["populasi"]
              Example.ref_ayam Example.der_ayam riil template w')
    as (label & ref_f & der_f & tpl & _ & _ & _ & _ & _ & _ & Hfiles & _);
    [reflexivity..|exact Hrun|].
  by exists riil, template, w', label, ref_f, der_f, tpl.
Defined.

(** When the pass raises under the open writer, the run raises the
    same exception, and the writer, closed on the way out, has saved a
    workbook with the sheets [acuan] and [riil] and no [template]. *)
Theorem process_excel_data_partial_workbook w df_ref df_derived output_file kab_code
    kws ref der label ref_f der_f e :
  frames w !! df_ref = Some ref →
  frames w !! df_derived = Some der →
  filter_rows ref kab_code = Ok ref_f →
  kabupaten_name_of ref kab_code = Ok label →
  filter_rows der kab_code = Ok der_f →
  Tab.apply_rule ref_f kws der_f = Raise e →
  ∃ w', process_excel_data df_ref df_derived output_file kab_code kws w =
          (Raise e, w') ∧
        files w' = files w ++
          [(output_name output_file label, [("acuan", ref_f); ("riil", der_f)])].
Proof.
  intros Hr Hd Href Hlabel Hder Hpass.
  destruct (process_excel_data_run w df_ref df_derived output_file kab_code kws
              ref der Hr Hd) as (r & w' & Hrun & _ & Hcase).
  rewrite Href, Hlabel, Hder in Hcase. simpl in Hcase. rewrite Hpass in Hcase.
  destruct Hcase as [-> Hfiles]. by exists w'.
Qed.

Lemma process_excel_data_partial_workbook_witness :
  let w := Example.sheets Sample.ref_dash Sample.der_two in
  ∃ w', process_excel_data Example.df_ref Example.df_derived
          "output/PROCESSED_6_30.xlsx" 7205 ["populasi"] w = (Raise TypeError, w') ∧
        files w' = files w ++
          [(output_name "output/PROCESSED_6_30.xlsx" "Kota_Bandung",
            [("acuan", Sample.ref_dash); ("riil", Sample.der_two)])].
Proof.
  intros w.
  apply (process_excel_data_partial_workbook w Example.df_ref Example.df_derived
           "output/PROCESSED_6_30.xlsx" 7205 ["populasi"]
           Sample.ref_dash Sample.der_two "Kota_Bandung"
           Sample.ref_dash Sample.der_two TypeError); reflexivity.
Defined.

(** A sheet without a [kab] column stops the run before the writer is
    opened: the run raises [KeyError] for [kab] and saves nothing, be
    it the reference sheet that lacks the column or, the label once
    computed, the derived sheet. *)
Theorem process_excel_data_missing_kab w df_ref df_derived output_file kab_code
    kws ref der :
  frames w !! df_ref = Some ref →
  frames w !! df_derived = Some der →
  ("kab" ∉ Pd.columns ref) ∨
  (("kab" ∉ Pd.columns der) ∧ is_Ok (kabupaten_name_of ref kab_code)) →
  ∃ w', process_excel_data df_ref df_derived output_file kab_code kws w =
          (Raise (KeyError "kab"), w') ∧
        files w' = files w.
Proof.
  intros Hr Hd Hmiss.
  assert (∀ t, "kab" ∉ Pd.columns t → ∀ k, filter_rows t k = Raise (KeyError "kab"))
    as Hraise.
  { intros t Ht k. unfold filter_rows.
    destruct (Pd.getitem t "kab") as [kab|e] eqn:E; simpl.
    - destruct Ht. apply getitem_columns. by eexists.
    - by apply getitem_raise in E as ->. }
  destruct (process_excel_data_run w df_ref df_derived output_file kab_code kws
              ref der Hr Hd) as (r & w' & Hrun & _ & Hcase).
  exists w'. destruct Hmiss as [Href|[Hder [label Hlabel]]].
  - rewrite (Hraise _ Href) in Hcase. by destruct Hcase as [-> ?].
  - rewrite Hlabel in Hcase.
    assert (is_Ok (filter_rows ref kab_code)) as [ref_f Href].
    { unfold kabupaten_name_of in Hlabel.
      destruct (filter_rows ref kab_code); [by eexists|done]. }
    rewrite Href, (Hraise _ Hder) in Hcase. by destruct Hcase as [-> ?].
Qed.

Lemma process_excel_data_missing_kab_witness :
  let w := Example.sheets Example.ref_ayam Example.der_none in
  ∃ w', process_excel_data Example.df_ref Example.df_derived
          "output/PROCESSED_6_30.xlsx" 7205 ["populasi"] w =
          (Raise (KeyError "kab"), w') ∧
        files w' = files w.
Proof.
  intros w.
  apply (process_excel_data_missing_kab w Example.df_ref Example.df_derived
           "output/PROCESSED_6_30.xlsx" 7205 ["populasi"]
           Example.ref_ayam Example.der_none); [reflexivity..|].
  right. split; [|by eexists].
  unfold Pd.columns. simpl. intros H.
  repeat (apply elem_of_cons in H as [H|H]; [discriminate H|]).
  by apply elem_of_nil in H.
Defined.

(** ** When the pass returns *)

Lemma foldM_total {A} (f : table → A → result table) (I : table → Prop) l :
  (∀ x t, x ∈ l → I t → ∃ t', f t x = Ok t' ∧ I t') →
  ∀ t, I t → ∃ t', Tab.foldM f l t = Ok t' ∧ I t'.
Proof.
  induction l as [|x l IH]; intros Hstep t Ht; simpl; [by eauto|].
  destruct (Hstep x t) as (t1 & -> & H1); [apply list_elem_of_here|done|]. simpl.
  apply IH; [|done]. intros y t2 Hy. apply Hstep. by apply list_elem_of_further.
Qed.

Lemma mask_column_ok ref col t mc :
  mc ∈ Pd.columns t →
  is_Ok (Tab.mask_column ref col t mc) ↔
  is_Ok (Tab.matched_kec ref col) ∧ "kec" ∈ Pd.columns t.
Proof.
  intros [s Hs]%getitem_columns. rewrite mask_column_eq, Hs. simpl.
  assert (Pd.columns (Pd.setitem t mc (Pd.astype_str s)) = Pd.columns t) as Hcols
    by by eapply columns_setitem.
  rewrite <-Hcols, (getitem_columns _ "kec").
  destruct (Tab.matched_kec ref col) as [set|e]; simpl.
  - destruct (Pd.getitem _ "kec") as [kec|e]; simpl.
    + split; [intros _; split; by eexists|by eexists].
    + split; [by intros [? ?]|by intros [_ [? ?]]].
  - split; [by intros [? ?]|by intros [[? ?] _]].
Qed.

Lemma has_match_cols kws t col :
  has_match kws t col ↔ Tab.matching_cols col kws t ≠ [].
Proof.
  unfold has_match, Tab.matching_cols, matching_cols. split.
  - intros (c & Hc & Hm) Hnil.
    assert (c ∈ filter (λ c, matches (animal_of col) kws c) (Pd.columns t)) as H.
    { apply list_elem_of_filter. split; [by apply Is_true_true|done]. }
    rewrite Hnil in H. by apply elem_of_nil in H.
  - destruct (filter _ _) as [|c l] eqn:E; [done|]. intros _.
    assert (c ∈ filter (λ c, matches (animal_of col) kws c) (Pd.columns t)) as H.
    { rewrite E. apply list_elem_of_here. }
    apply list_elem_of_filter in H as [Hm%Is_true_true Hc]. by exists c.
Qed.

Lemma has_match_columns kws t t' col :
  Pd.columns t' = Pd.columns t → has_match kws t' col ↔ has_match kws t col.
Proof. unfold has_match. by intros ->. Qed.

Lemma mask_family_needs ref kws t col t' :
  Tab.mask_family ref kws t col = Ok t' →
  Str.startswith col "n_rtup_ternak_usaha_" = true → has_match kws t col →
  is_Ok (Tab.matched_kec ref col) ∧ "kec" ∈ Pd.columns t.
Proof.
  unfold Tab.mask_family. intros Hrun Hfam Hm. rewrite Hfam in Hrun.
  apply has_match_cols in Hm.
  destruct (Tab.matching_cols col kws t) as [|mc l] eqn:E; [done|].
  assert (mc ∈ Pd.columns t) as Hmc.
  { assert (mc ∈ Tab.matching_cols col kws t) as H by (rewrite E; apply list_elem_of_here).
    by apply list_elem_of_filter in H as [_ ?]. }
  simpl in Hrun.
  destruct (Tab.mask_column ref col t mc) as [t1|e] eqn:E1; [|done].
  apply (mask_column_ok ref col t mc Hmc). by eexists.
Qed.

Lemma mask_family_ok ref kws t col :
  (Str.startswith col "n_rtup_ternak_usaha_" = true → has_match kws t col →
   is_Ok (Tab.matched_kec ref col) ∧ "kec" ∈ Pd.columns t) →
  ∃ t', Tab.mask_family ref kws t col = Ok t' ∧ Pd.columns t' = Pd.columns t.
Proof.
  intros Hneeds. unfold Tab.mask_family.
  destruct (Str.startswith col "n_rtup_ternak_usaha_") eqn:Hfam; [|by eauto].
  destruct (Tab.matching_cols col kws t) as [|mc0 l0] eqn:E; [by exists t|].
  rewrite <-E.
  destruct Hneeds as [Hset Hkec]; [done|apply has_match_cols; by rewrite E|].
  apply (foldM_total _ (λ t1, Pd.columns t1 = Pd.columns t)); [|done].
  intros mc t1 Hmc Ht1.
  assert (mc ∈ Pd.columns t1) as Hmc1.
  { rewrite Ht1. by apply list_elem_of_filter in Hmc as [_ ?]. }
  destruct (proj2 (mask_column_ok ref col t1 mc Hmc1)) as [t2 Ht2].
  { split; [done|]. by rewrite Ht1. }
  exists t2. split; [done|]. rewrite <-Ht1. by eapply mask_column_columns.
Qed.

Lemma apply_rule_ok ref kws tpl :
  is_Ok (Tab.apply_rule ref kws tpl) ↔
  ∀ col, family ref col → has_match kws tpl col → maskable ref tpl col.
Proof.
  unfold maskable. split.
  - intros [t' Hrun] col [Hcol Hfam] Hm.
    pose proof (apply_rule_invariant _ _ _ _ Hrun) as [Hcols _].
    assert (is_Ok (Tab.matched_kec ref col) ∧ "kec" ∈ Pd.columns t') as [Hset Hkec].
    { refine (foldM_each _ (λ _, True)
                (λ c t, Str.startswith c "n_rtup_ternak_usaha_" = true →
                        has_match kws t c →
                        is_Ok (Tab.matched_kec ref c) ∧ "kec" ∈ Pd.columns t)
                _ _ _ _ _ _ Hrun col Hcol Hfam _).
      - intros t1 c t2 _ H12 Hc Hm2.
        rewrite (mask_family_columns _ _ _ _ _ H12).
        apply (mask_family_needs _ _ _ _ _ H12 Hc).
        by apply (has_match_columns _ _ _ _ (mask_family_columns _ _ _ _ _ H12)).
      - intros t1 c y t2 _ _ Hy H12 Hc Hm2.
        rewrite (mask_family_columns _ _ _ _ _ H12). apply Hy; [done|].
        by apply (has_match_columns _ _ _ _ (mask_family_columns _ _ _ _ _ H12)).
      - by apply Forall_forall.
      - by apply (has_match_columns _ _ _ _ Hcols). }
    apply (matched_kec_ok _ _ Hcol) in Hset as [? ?].
    split_and!; [done| |done]. by rewrite <-Hcols.
  - intros Hneeds.
    destruct (foldM_total (Tab.mask_family ref kws)
                (λ t, Pd.columns t = Pd.columns tpl) (Pd.columns ref)) with (t := tpl)
      as (t' & Ht' & _); [|done|by eexists].
    intros col t Hcol Ht.
    destruct (mask_family_ok ref kws t col) as (t' & Hrun & Hcols).
    + intros Hfam Hm. rewrite Ht.
      destruct (Hneeds col) as (Hk1 & Hk2 & Hnum); [done| |].
      { by apply (has_match_columns _ _ _ _ Ht). }
      split; [|done]. by apply (matched_kec_ok _ _ Hcol).
    + exists t'. split; [done|]. by rewrite Hcols.
Qed.

(** The pass returns exactly when every family column that has a
    column to mask can be used: the reference rows and the template
    both have a [kec] column, and the family column holds numbers and
    missing values only.  A family column with nothing to mask is
    passed over, whatever it holds. *)
Theorem apply_rule_returns_iff w df_ref_filtered df_template ref tpl kws :
  df_ref_filtered ≠ df_template →
  frames w !! df_ref_filtered = Some ref →
  frames w !! df_template = Some tpl →
  fst (apply_rule df_ref_filtered df_template kws w) = Ok () ↔
  ∀ col, family ref col → has_match kws tpl col → maskable ref tpl col.
Proof.
  intros Hne Hr Ht.
  destruct (apply_rule_run _ _ _ Hne kws _ _ Hr Ht) as (w' & -> & _). simpl.
  rewrite <-apply_rule_ok. unfold is_Ok.
  destruct (Tab.apply_rule ref kws tpl); simpl; split; eauto; try done.
  by intros [? ?].
Qed.

Lemma apply_rule_returns_iff_witness :
  let w := Example.sheets Sample.ref_dash Sample.der_two in
  fst (apply_rule Example.df_ref Example.df_derived ["rerata"] w) = Ok () ↔
  ∀ col, family Sample.ref_dash col → has_match ["rerata"] Sample.der_two col →
         maskable Sample.ref_dash Sample.der_two col.
Proof.
  intros w.
  apply (apply_rule_returns_iff w Example.df_ref Example.df_derived
           Sample.ref_dash Sample.der_two ["rerata"]); [done|reflexivity..].
Defined.

(** Where no family column has a column to mask, the pass returns and
    leaves every frame, the template among them, as it was. *)
Theorem apply_rule_no_match w df_ref_filtered df_template ref tpl kws :
  df_ref_filtered ≠ df_template →
  frames w !! df_ref_filtered = Some ref →
  frames w !! df_template = Some tpl →
  (∀ col, family ref col → ¬ has_match kws tpl col) →
  ∃ w', apply_rule df_ref_filtered df_template kws w = (Ok (), w') ∧
        frames w' = frames w.
Proof.
  intros Hne Hr Ht Hno.
  destruct (apply_rule_run _ _ _ Hne kws _ _ Hr Ht) as (w' & Hrun & [Honly Htpl] & _).
  assert (Tab.apply_rule ref kws tpl = Ok tpl) as Hpass.
  { unfold Tab.apply_rule. apply foldM_fixed. intros col Hcol.
    unfold Tab.mask_family.
    destruct (Str.startswith col "n_rtup_ternak_usaha_") eqn:Hfam; [|done].
    destruct (Tab.matching_cols col kws tpl) as [|mc l] eqn:E; [done|].
    destruct (Hno col); [done|]. apply has_match_cols. by rewrite E. }
  rewrite Hpass in Hrun, Htpl. exists w'. split; [done|].
  apply map_eq. intros l. destruct (decide (l = df_template)) as [->|Hl]; [congruence|].
  destruct Honly as [H _]. by apply H.
Qed.

Lemma apply_rule_no_match_witness :
  let w := Example.sheets Sample.ref_dash Sample.der_two in
  ∃ w', apply_rule Example.df_ref Example.df_derived ["rerata"] w = (Ok (), w') ∧
        frames w' = frames w.
Proof.
  intros w.
  apply (apply_rule_no_match w Example.df_ref Example.df_derived
           Sample.ref_dash Sample.der_two ["rerata"]); [done|reflexivity..|].
  intros col [Hcol Hfam] (c & Hc & Hm).
  unfold Pd.columns in Hcol, Hc. simpl in Hcol, Hc.
  repeat (apply elem_of_cons in Hcol as [->|Hcol]; [discriminate Hfam|]).
  apply elem_of_cons in Hcol as [->|Hcol]; [|by apply elem_of_nil in Hcol].
  repeat (apply elem_of_cons in Hc as [->|Hc]; [discriminate Hm|]).
  by apply elem_of_nil in Hc.
Defined.

(** ** What the pass leaves in a matched column *)

(** Where the sub-region column is not itself matched, the pass leaves
    in each matched column exactly this: the sentinel in the rows
    whose sub-region code is in the masked set of a family column
    matching that column, be there one such family or several, and
    the text of the former value in all the other rows. *)
Theorem apply_rule_matched_column w df_ref_filtered df_template ref tpl kws w'
    name s :
  df_ref_filtered ≠ df_template →
  frames w !! df_ref_filtered = Some ref →
  frames w !! df_template = Some tpl →
  kec_unmatched ref kws →
  apply_rule df_ref_filtered df_template kws w = (Ok (), w') →
  matched ref kws name →
  Pd.getitem tpl name = Ok s →
  ∃ tpl' s',
    frames w' !! df_template = Some tpl' ∧
    Pd.getitem tpl' name = Ok s' ∧ length s' = length s ∧
    ∀ i x, s !! i = Some x →
      (masked_by ref kws tpl name i → s' !! i = Some (Text "NA")) ∧
      (¬ masked_by ref kws tpl name i → s' !! i = Some (Text (Pd.cell_str x))).
Proof.
  intros Hne Hr Ht Hkec Hrun Hmatched Hs.
  destruct (apply_rule_run _ _ _ Hne kws _ _ Hr Ht) as (w1 & Hrun1 & [_ Htpl1] & _).
  rewrite Hrun in Hrun1.
  destruct (Tab.apply_rule ref kws tpl) as [tpl'|e] eqn:Hpass; simpl in Hrun1; [|done].
  injection Hrun1 as <-. 
  destruct (apply_rule_invariant_by _ _ _ Hkec _ Hpass) as (Hcols & Hkecs & Hcells).
  destruct (Hcells _ _ Hs) as (s' & Hs' & Hlen & Hrel).
  exists tpl', s'. split_and!; [done..|]. intros i x Hx.
  destruct (Hrel _ _ Hx) as (y & Hy & Hcase). split.
  - intros (col & kecs & k0 & Hfam & Hm & Hk & Hk0 & Hin).
    apply (apply_rule_sentinel _ _ _ Hkec _ col name Hpass Hfam) with (kecs := kecs) (k0 := k0);
      try done.
    + apply getitem_columns. by eexists.
    + by rewrite Hkecs.
    + rewrite Hlen. by apply lookup_lt_Some in Hx.
  - intros Hno. rewrite Hy. f_equal.
    destruct Hcase as [->|[->|[_ ?]]]; [|done..].
    destruct (apply_rule_textual _ _ _ _ name Hpass Hmatched) as (s0 & Hs0 & Htext).
    { apply getitem_columns. by eexists. }
    assert (s0 = s') as -> by congruence.
    unfold textual in Htext. rewrite <-Htext, astype_str_lookup in Hy.
    destruct (s' !! i) as [y0|] eqn:E; simpl in Hy; [|done].
    injection Hy as <-. by rewrite cell_str_text.
Qed.

Lemma apply_rule_matched_column_witness :
  let w := Example.sheets Sample.ref_two Sample.der_same in
  ∃ w' tpl' s',
    apply_rule Example.df_ref Example.df_derived ["populasi"] w = (Ok (), w') ∧
    frames w' !! Example.df_derived = Some tpl' ∧
    Pd.getitem tpl' "populasi_ayam_kampung" = Ok s' ∧
    ∀ i x, [Int 10; Int 20; Int 30] !! i = Some x →
      (masked_by Sample.ref_two ["populasi"] Sample.der_same "populasi_ayam_kampung" i →
       s' !! i = Some (Text "NA")) ∧
      (¬ masked_by Sample.ref_two ["populasi"] Sample.der_same "populasi_ayam_kampung" i →
       s' !! i = Some (Text (Pd.cell_str x))).
Proof.
  intros w.
  destruct (apply_rule Example.df_ref Example.df_derived ["populasi"] w)
    as [r w'] eqn:Hrun.
  assert (r = Ok ()) as ->.
  { by vm_compute in Hrun; injection Hrun as <- _. }
  destruct (apply_rule_matched_column w Example.df_ref Example.df_derived
              Sample.ref_two Sample.der_same ["populasi"] w'
              "populasi_ayam_kampung" [Int 10; Int 20; Int 30])
    as (tpl' & s' & Htpl & Hs' & _ & Hcells); try done.
  - intros col [Hcol _]. unfold Pd.columns in Hcol. simpl in Hcol.
    repeat (apply elem_of_cons in Hcol as [->|Hcol]; [reflexivity|]).
    by apply elem_of_nil in Hcol.
  - exists "n_rtup_ternak_usaha_ayam". split; [split|]; try reflexivity.
    unfold Pd.columns. simpl. apply list_elem_of_further, list_elem_of_here.
  - by exists w', tpl', s'.
Defined.

(** ** The lines printed *)

Lemma processing_log_eq cols :
  Tab.processing_log cols =
  (λ col, "Processing: " +:+ format_animal_name (animal_of col)) <$>
  filter (λ col, Str.startswith col "n_rtup_ternak_usaha_" = true) cols.
Proof.
  unfold Tab.processing_log. induction cols as [|c cols IH]; [done|].
  rewrite bind_cons, filter_cons, IH. unfold Tab.family_line.
  destruct (Str.startswith c "n_rtup_ternak_usaha_").
  - by rewrite decide_True.
  - by rewrite decide_False.
Qed.

(** A pass that returns has printed one line for each family column of
    the reference rows, in the order of the columns, whether or not
    the family has a column to mask, and nothing else. *)
Theorem apply_rule_prints w df_ref_filtered df_template ref tpl kws w' :
  df_ref_filtered ≠ df_template →
  frames w !! df_ref_filtered = Some ref →
  frames w !! df_template = Some tpl →
  apply_rule df_ref_filtered df_template kws w = (Ok (), w') →
  stdout w' = stdout w ++
    ((λ col, "Processing: " +:+ format_animal_name (animal_of col)) <$>
     filter (λ col, Str.startswith col "n_rtup_ternak_usaha_" = true) (Pd.columns ref)).
Proof.
  intros Hne Hr Ht Hrun.
  destruct (apply_rule_run _ _ _ Hne kws _ _ Hr Ht) as (w1 & Hrun1 & _ & Hout).
  rewrite Hrun in Hrun1.
  destruct (Tab.apply_rule ref kws tpl) as [tpl'|e]; simpl in Hrun1; [|done].
  injection Hrun1 as <-. rewrite <-processing_log_eq. apply Hout. by eexists.
Qed.

Lemma apply_rule_prints_witness :
  let w := Example.sheets Sample.ref_two Sample.der_same in
  ∃ w', apply_rule Example.df_ref Example.df_derived ["rerata"] w = (Ok (), w') ∧
        stdout w' = stdout w ++ ["Processing: Ayam"; "Processing: Ayam Kampung"].
Proof.
  intros w.
  destruct (apply_rule Example.df_ref Example.df_derived ["rerata"] w)
    as [r w'] eqn:Hrun.
  assert (r = Ok ()) as ->.
  { by vm_compute in Hrun; injection Hrun as <- _. }
  exists w'. split; [done|].
  by rewrite (apply_rule_prints w Example.df_ref Example.df_derived
                Sample.ref_two Sample.der_same ["rerata"] w').
Defined.

(** ** The name of the animal *)

Lemma split_app sep a b :
  Str.split sep (a +:+ String sep b) = Str.split sep a ++ Str.split sep b.
Proof.
  induction a as [|c a IH]; rewrite ?app_cons_s, ?app_nil_s; simpl.
  - by rewrite Ascii.eqb_refl.
  - rewrite IH. destruct (Ascii.eqb c sep); [done|].
    by destruct (split_cons sep a) as (w & ws & ->).
Qed.

Lemma split_word sep w :
  Str.any (λ c, Ascii.eqb c sep) w = false → Str.split sep w = [w].
Proof.
  induction w as [|c w IH]; simpl; [done|].
  intros [-> Hw]%orb_false_iff. by rewrite IH.
Qed.

Lemma join_app sep (l1 l2 : list string) :
  l1 ≠ [] → l2 ≠ [] →
  Str.join sep (l1 ++ l2) = Str.join sep l1 +:+ sep +:+ Str.join sep l2.
Proof.
  unfold Str.join. intros H1 H2. induction l1 as [|x l1 IH]; [done|].
  destruct l1 as [|y l1].
  - simpl. by destruct l2.
  - specialize (IH ltac:(done)).
    change ((y :: l1) ++ l2) with (y :: (l1 ++ l2)) in IH.
    change ((x :: y :: l1) ++ l2) with (x :: y :: (l1 ++ l2)).
    rewrite (concat_cons2 sep x y (l1 ++ l2)), IH, (concat_cons2 sep x y l1).
    by rewrite !app_assoc_s.
Qed.

Lemma format_animal_name_app a b :
  format_animal_name (a +:+ "_" +:+ b) =
  format_animal_name a +:+ " " +:+ format_animal_name b.
Proof.
  unfold format_animal_name. rewrite app_cons_s, app_nil_s, split_app, fmap_app.
  destruct (split_cons "_" a) as (w & ws & ->).
  destruct (split_cons "_" b) as (w' & ws' & ->).
  by apply join_app.
Qed.

Lemma upper_char_lower c : Str.lower_char (Str.upper_char c) = Str.lower_char c.
Proof. by destruct c as [[] [] [] [] [] [] [] []]. Qed.

Lemma map_length f s : String.length (Str.map f s) = String.length s.
Proof. induction s as [|c s IH]; simpl; [done|]. by rewrite IH. Qed.

Lemma capitalize_length w : String.length (Str.capitalize w) = String.length w.
Proof. destruct w; simpl; [done|]. unfold Str.lower. by rewrite map_length. Qed.

Lemma lower_char_underscore c :
  Ascii.eqb (Str.lower_char c) "_" = Ascii.eqb c "_".
Proof. by destruct c as [[] [] [] [] [] [] [] []]. Qed.

Lemma upper_char_underscore c :
  Ascii.eqb (Str.upper_char c) "_" = Ascii.eqb c "_".
Proof. by destruct c as [[] [] [] [] [] [] [] []]. Qed.

Lemma capitalize_underscore w :
  Str.any (λ c, Ascii.eqb c "_") (Str.capitalize w) = Str.any (λ c, Ascii.eqb c "_") w.
Proof.
  destruct w as [|c w]; simpl; [done|]. rewrite upper_char_underscore. f_equal.
  unfold Str.lower. induction w as [|d w IH]; simpl; [done|].
  by rewrite lower_char_underscore, IH.
Qed.

(** [format_animal_name] works word by word: a name without
    underscore is capitalized, and an underscore between two names
    becomes a space between their formatted names.  The result has the
    length of the name and no underscore. *)
Theorem format_animal_name_words :
  (∀ w, Str.any (λ c, Ascii.eqb c "_") w = false →
        format_animal_name w = Str.capitalize w) ∧
  (∀ a b, format_animal_name (a +:+ "_" +:+ b) =
          format_animal_name a +:+ " " +:+ format_animal_name b) ∧
  (∀ name, String.length (format_animal_name name) = String.length name) ∧
  (∀ name, Str.any (λ c, Ascii.eqb c "_") (format_animal_name name) = false).
Proof.
  assert (∀ w, Str.any (λ c, Ascii.eqb c "_") w = false →
               format_animal_name w = Str.capitalize w) as Hword.
  { intros w Hw. unfold format_animal_name. by rewrite split_word. }
  (* every name is a word, or a word, an underscore and a name *)
  assert (∀ name, Str.any (λ c, Ascii.eqb c "_") name = false ∨
                  ∃ w rest, name = w +:+ "_" +:+ rest ∧
                            Str.any (λ c, Ascii.eqb c "_") w = false ∧
                            (String.length rest < String.length name)%nat) as Hcut.
  { induction name as [|c name IH]; [by left|]. simpl.
    destruct (Ascii.eqb_spec c "_") as [->|Hc].
    - right. exists "", name. split_and!; [done..|]. lia.
    - destruct IH as [->|(w & rest & -> & Hw & Hlen)]; [by left|].
      right. exists (String c w), rest. split_and!; [done| |].
      + simpl. rewrite Hw. by apply Ascii.eqb_neq in Hc as ->.
      + rewrite length_app_s in *. simpl in *. lia. }
  split_and!; [done|apply format_animal_name_app|..].
  - intros name. remember (String.length name) as n eqn:Hn.
    revert name Hn. induction (lt_wf n) as [n _ IH]. intros name ->.
    destruct (Hcut name) as [Hw|(w & rest & -> & Hw & Hlen)].
    + by rewrite Hword, capitalize_length.
    + rewrite format_animal_name_app, Hword by done.
      rewrite !length_app_s, capitalize_length, (IH _ Hlen rest eq_refl). done.
  - intros name. remember (String.length name) as n eqn:Hn.
    revert name Hn. induction (lt_wf n) as [n _ IH]. intros name ->.
    destruct (Hcut name) as [Hw|(w & rest & -> & Hw & Hlen)].
    + by rewrite Hword, capitalize_underscore.
    + rewrite format_animal_name_app, Hword by done.
      rewrite !any_app, capitalize_underscore, Hw, (IH _ Hlen rest eq_refl). done.
Qed.

Lemma format_animal_name_words_witness :
  format_animal_name "puyuh" = Str.capitalize "puyuh".
Proof.
  destruct format_animal_name_words as [Hword _]. by apply Hword.
Defined.

(** ** The keywords *)

Lemma lower_char_space c : Str.is_space (Str.lower_char c) = Str.is_space c.
Proof. by destruct c as [[] [] [] [] [] [] [] []]. Qed.

Lemma lower_starts s :
  Str.starts Str.not_space (Str.lower s) = Str.starts Str.not_space s.
Proof. destruct s; simpl; [done|]. unfold Str.not_space. by rewrite lower_char_space. Qed.

Lemma lower_ends s :
  Str.ends Str.not_space (Str.lower s) = Str.ends Str.not_space s.
Proof.
  unfold Str.lower. induction s as [|c s IH]; simpl; [done|].
  destruct s as [|d s]; simpl in *; [|done].
  unfold Str.not_space. by rewrite lower_char_space.
Qed.

Lemma keyword_normal k :
  let k' := Str.lower (Str.strip k) in Str.lower k' = k' ∧ Str.strip k' = k'.
Proof.
  intros k'. split; [apply lower_idem|].
  destruct (strip_spec k) as (l & r & _ & _ & _ & Hs & He).
  apply strip_id; unfold k'; by rewrite ?lower_starts, ?lower_ends.
Qed.

(** The keywords that the prompt returns are never none, and each is
    lower-cased and trimmed, whatever option and whatever line of
    custom keywords were typed. *)
Theorem get_column_keywords_normal choice keywords :
  get_column_keywords choice keywords ≠ [] ∧
  Forall (λ k, Str.lower k = k ∧ Str.strip k = k) (get_column_keywords choice keywords).
Proof.
  unfold get_column_keywords.
  repeat (destruct (String.eqb choice _); [by split; [|repeat constructor]|]).
  destruct (String.eqb choice _); [|by split; [|repeat constructor]].
  split.
  - destruct (split_cons "," keywords) as (w & ws & ->). done.
  - apply Forall_fmap, Forall_forall. intros k _. apply keyword_normal.
Qed.

Lemma strip_blank s : Str.all Str.is_space s = true → Str.strip s = "".
Proof.
  intros Hs. unfold Str.strip.
  assert (Str.rstrip s = "") as ->; [|done].
  induction s as [|c s IH]; simpl; [done|]. simpl in Hs.
  apply andb_true_iff in Hs as [Hc Hs]. by rewrite IH, Hc.
Qed.

Lemma space_not_comma c : Str.is_space c = true → Ascii.eqb c "," = false.
Proof. by destruct c as [[] [] [] [] [] [] [] []]. Qed.

Lemma contains_empty s : Str.contains "" s = true.
Proof. destruct s; [done|]. by rewrite contains_cons. Qed.

(** An empty keyword matches every name.  Under option 3 a blank line
    of custom keywords gives the empty keyword alone, and a line that
    ends in a comma gives it among the others; with the empty keyword
    in the list, a column is matched as soon as its name contains the
    animal. *)
Theorem empty_keyword_matches_all :
  (∀ line, Str.all Str.is_space line = true → get_column_keywords "3" line = [""]) ∧
  (∀ line, "" ∈ get_column_keywords "3" (line +:+ ",")) ∧
  (∀ kws animal c, "" ∈ kws → matches animal kws c = Str.contains animal c).
Proof.
  split_and!.
  - intros line Hline. unfold get_column_keywords. simpl.
    rewrite split_word.
    + simpl. by rewrite strip_blank.
    + clear -Hline. induction line as [|c line IH]; simpl in *; [done|].
      apply andb_true_iff in Hline as [Hc Hl]. by rewrite (space_not_comma _ Hc), IH.
  - intros line. unfold get_column_keywords. simpl.
    rewrite split_app, fmap_app. apply elem_of_app. right. simpl.
    apply list_elem_of_here.
  - intros kws animal c Hin. unfold matches.
    assert (existsb (λ keyword, Str.contains keyword (Str.lower c)) kws = true) as ->.
    { apply existsb_elem. exists "". split; [done|]. apply contains_empty. }
    apply andb_true_r.
Qed.

Lemma empty_keyword_matches_all_witness :
  get_column_keywords "3" "  " = [""] ∧
  matches "ayam" (get_column_keywords "3" "rerata,") "jumlah_ayam" =
    Str.contains "ayam" "jumlah_ayam".
Proof.
  destruct empty_keyword_matches_all as (Hblank & Hcomma & Hall). split.
  - by apply Hblank.
  - apply Hall. apply (Hcomma "rerata").
Defined.

(** ** The prompts *)

Lemma get_input_loop {A} prompt (default : A) ty bad line rest scr a :
  Forall (λ l, Console.answer default ty l = None) bad →
  Console.answer default ty line = Some a →
  Console.get_input_with_default_from prompt default ty (bad ++ line :: rest) scr =
  (Console.Returned a,
   Console.Terminal rest
     (scr ++ (bad ≫= λ _, [Console.prompt_line prompt default ty; Console.invalid_line ty])
          ++ [Console.prompt_line prompt default ty])).
Proof.
  intros Hbad Hline. revert scr.
  induction Hbad as [|l bad Hl _ IH]; intros scr.
  - simpl. unfold Console.answer in Hline.
    destruct (String.eqb line ""); [by injection Hline as ->|].
    by rewrite Hline.
  - rewrite <-app_comm_cons, bind_cons. simpl. unfold Console.answer in Hl.
    destruct (String.eqb l ""); [done|]. rewrite Hl, IH.
    by rewrite <-!(assoc_L (++)).
Qed.

Lemma get_input_eof {A} prompt (default : A) ty bad scr :
  Forall (λ l, Console.answer default ty l = None) bad →
  Console.get_input_with_default_from prompt default ty bad scr =
  (Console.EOFError,
   Console.Terminal []
     (scr ++ (bad ≫= λ _, [Console.prompt_line prompt default ty; Console.invalid_line ty])
          ++ [Console.prompt_line prompt default ty])).
Proof.
  intros Hbad. revert scr. induction Hbad as [|l bad Hl _ IH]; intros scr; [done|].
  rewrite bind_cons. simpl. unfold Console.answer in Hl.
  destruct (String.eqb l ""); [done|]. rewrite Hl, IH.
  by rewrite <-!(assoc_L (++)).
Qed.

(** [get_input_with_default] asks until it has an answer.  Lines that
    are neither empty nor convertible are passed over, each with the
    prompt before it and the complaint after it; the first line that
    is empty or convertible ends the loop, with the default for an
    empty line and the converted value otherwise, and the lines after
    it are left unread.  If the input ends before, [EOFError] is
    raised. *)
Theorem get_input_with_default_loop {A} prompt (default : A) ty bad scr :
  Forall (λ l, Console.answer default ty l = None) bad →
  (∀ line rest a, Console.answer default ty line = Some a →
     Console.get_input_with_default prompt default ty
       (Console.Terminal (bad ++ line :: rest) scr) =
     (Console.Returned a,
      Console.Terminal rest
        (scr ++ (bad ≫= λ _, [Console.prompt_line prompt default ty;
                               Console.invalid_line ty])
             ++ [Console.prompt_line prompt default ty]))) ∧
  fst (Console.get_input_with_default prompt default ty (Console.Terminal bad scr)) =
    Console.EOFError.
Proof.
  intros Hbad. split.
  - intros line rest a Hline. by apply get_input_loop.
  - unfold Console.get_input_with_default. simpl. by rewrite get_input_eof.
Qed.

Lemma get_input_with_default_loop_witness :
  let ty := Console.int (λ s, if String.eqb s "7201" then Some 7201 else None) in
  Console.get_input_with_default "Masukkan kode kabupaten (contoh: 7205): " 7205 ty
    (Console.Terminal (["abc"; " "] ++ "" :: ["6_06"]) []) =
  (Console.Returned 7205,
   Console.Terminal ["6_06"]
     ([] ++ (["abc"; " "] ≫= λ _,
               [Console.prompt_line "Masukkan kode kabupaten (contoh: 7205): " 7205 ty;
                Console.invalid_line ty])
         ++ [Console.prompt_line "Masukkan kode kabupaten (contoh: 7205): " 7205 ty])).
Proof.
  intros ty.
  apply (get_input_with_default_loop "Masukkan kode kabupaten (contoh: 7205): "
           7205 ty ["abc"; " "] []).
  - by repeat constructor.
  - reflexivity.
Defined.

Lemma io_bind_run {A B} (m : Console.IO A) (f : A → Console.IO B) t :
  (m ≫= f) t = match m t with
               | (Console.Returned a, t') => f a t'
               | (Console.EOFError, t') => (Console.EOFError, t')
               end.
Proof. reflexivity. Qed.

Lemma get_input_str prompt default line rest scr :
  Console.get_input_with_default prompt default Console.str
    (Console.Terminal (line :: rest) scr) =
  (Console.Returned (if String.eqb line "" then default else line),
   Console.Terminal rest (scr ++ [Console.prompt_line prompt default Console.str])).
Proof.
  unfold Console.get_input_with_default. simpl.
  by destruct (String.eqb line "").
Qed.

Lemma prompt_column_keywords_run choice keywords rest scr :
  let opt := if String.eqb choice "" then "1" else choice in
  ∃ scr',
    Console.get_column_keywords (Console.Terminal (choice :: keywords :: rest) scr) =
    (Console.Returned (get_column_keywords opt keywords),
     Console.Terminal (if String.eqb opt "3" then rest else keywords :: rest) scr').
Proof.
  intros opt. unfold Console.get_column_keywords.
  do 4 (rewrite io_bind_run; cbv [Console.print]; cbv beta iota;
        cbn [Console.stdin Console.screen]).
  rewrite io_bind_run, get_input_str. fold opt. cbv beta iota.
  unfold get_column_keywords. clearbody opt.
  destruct (String.eqb_spec opt "1") as [->|_]; [by eexists|].
  destruct (String.eqb_spec opt "2") as [->|_]; [by eexists|].
  destruct (String.eqb opt "3"); [|by eexists].
  rewrite io_bind_run. by eexists.
Qed.

(** The prompt for the keywords reads one line for the option, where
    an empty line stands for option 1, and under option 3 a second
    line for the custom keywords; it returns what [get_column_keywords]
    gives for the option and that line.  An option it does not know is
    not asked for again: it gives [rerata]. *)
Theorem prompt_column_keywords_reads choice keywords rest scr :
  let opt := if String.eqb choice "" then "1" else choice in
  let out := Console.get_column_keywords
               (Console.Terminal (choice :: keywords :: rest) scr) in
  fst out = Console.Returned (get_column_keywords opt keywords) ∧
  Console.stdin (snd out) =
    (if String.eqb opt "3" then rest else keywords :: rest) ∧
  (opt ≠ "2" → opt ≠ "3" → fst out = Console.Returned ["rerata"]).
Proof.
  intros opt out.
  destruct (prompt_column_keywords_run choice keywords rest scr) as [scr' Hrun].
  unfold out. rewrite Hrun. fold opt. simpl. split_and!; [done..|].
  intros H2 H3. unfold get_column_keywords.
  destruct (String.eqb_spec opt "1"); [done|].
  destruct (String.eqb_spec opt "2"); [done|].
  by destruct (String.eqb_spec opt "3").
Qed.

Lemma prompt_column_keywords_reads_witness :
  let out := Console.get_column_keywords (Console.Terminal ["9"; "x"; "y"] []) in
  fst out = Console.Returned ["rerata"].
Proof.
  intros out.
  destruct (prompt_column_keywords_reads "9" "x" ["y"] []) as (_ & _ & H).
  by apply H.
Defined.

(** [get_user_input] reads the region code, the two table
    identifiers and the option, in this order, and under option 3 the
    custom keywords.  A line that is no answer for the region code is
    asked for again; the identifiers and the option are taken as
    typed, white space included, and never asked for again.  An empty
    line stands for the default: 7205, 6_06, 6_30, option 1. *)
Theorem get_user_input_answers of_string bad kab ref_table derived_table choice
    keywords rest scr kab_code :
  Forall (λ l, Console.answer 7205 (Console.int of_string) l = None) bad →
  Console.answer 7205 (Console.int of_string) kab = Some kab_code →
  let opt := if String.eqb choice "" then "1" else choice in
  let out := Console.get_user_input of_string
               (Console.Terminal
                  (bad ++ kab :: ref_table :: derived_table :: choice :: keywords :: rest)
                  scr) in
  fst out =
    Console.Returned
      (kab_code,
       (if String.eqb ref_table "" then "6_06" else ref_table),
       (if String.eqb derived_table "" then "6_30" else derived_table),
       get_column_keywords opt keywords) ∧
  Console.stdin (snd out) =
    (if String.eqb opt "3" then rest else keywords :: rest).
Proof.
  intros Hbad Hkab opt out.
  assert (∃ scr', out =
            (Console.Returned
               (kab_code,
                (if String.eqb ref_table "" then "6_06" else ref_table),
                (if String.eqb derived_table "" then "6_30" else derived_table),
                get_column_keywords opt keywords),
             Console.Terminal
               (if String.eqb opt "3" then rest else keywords :: rest) scr'))
    as [scr' ->]; [|done].
  unfold out, Console.get_user_input.
  rewrite io_bind_run. unfold Console.get_input_with_default at 1.
  cbn [Console.stdin Console.screen].
  rewrite (get_input_loop _ _ _ bad kab _ scr kab_code Hbad Hkab).
  rewrite io_bind_run, get_input_str, io_bind_run, get_input_str, io_bind_run.
  match goal with
  | |- context [Console.get_column_keywords (Console.Terminal _ ?s)] =>
      destruct (prompt_column_keywords_run choice keywords rest s) as [scr' ->]
  end.
  fold opt. by eexists.
Qed.

Lemma get_user_input_answers_witness :
  let of_string := λ s, if String.eqb s "7201" then Some 7201 else None in
  let out := Console.get_user_input of_string
               (Console.Terminal (["72x"] ++ ["7201"; ""; " 6_31"; "3"; "Populasi, rerata"]) []) in
  fst out = Console.Returned (7201, "6_06", " 6_31", get_column_keywords "3" "Populasi, rerata") ∧
  Console.stdin (snd out) = [].
Proof.
  intros of_string out.
  apply (get_user_input_answers of_string ["72x"] "7201" "" " 6_31" "3"
           "Populasi, rerata" [] [] 7201).
  - by repeat constructor.
  - reflexivity.
Defined.

(** ** Families whose animals overlap *)

Lemma substring_trans a b c : substring a b → substring b c → substring a c.
Proof.
  intros (p & q & ->) (p' & q' & ->). exists (p' +:+ p), (q +:+ q').
  by rewrite !app_assoc_s.
Qed.

(** The animal is looked for as a substring, so a family whose animal
    occurs in the animal of another family matches every column that
    the other matches: the columns of [ayam_kampung] are matched by
    the family [ayam] as well. *)
Theorem matches_overlap animal animal' kws c :
  substring animal animal' →
  matches animal' kws c = true →
  matches animal kws c = true.
Proof.
  intros Hsub. unfold matches.
  intros [Hc%contains_spec ->]%andb_true_iff. rewrite andb_true_r.
  apply contains_spec. by eapply substring_trans.
Qed.

Lemma matches_overlap_witness :
  matches "ayam" ["populasi"] "populasi_ayam_kampung" = true.
Proof.
  apply (matches_overlap "ayam" "ayam_kampung" ["populasi"] "populasi_ayam_kampung").
  - by exists "", "_kampung".
  - reflexivity.
Defined.

(** ** The label in the name of the workbook *)

Lemma upper_word c : Str.is_word c = true → label_char (Str.upper_char c) = true.
Proof. by destruct c as [[] [] [] [] [] [] [] []]. Qed.

(** A label is cleaned once and for all: cleaning a cleaned label
    changes nothing, and neither does cleaning a label made of
    letters, digits and underscores.  Upper-cased for the name of the
    workbook, a cleaned label holds upper-case letters, digits and
    underscores only. *)
Theorem clean_kabupaten_name_stable s :
  clean_kabupaten_name (clean_kabupaten_name s) = clean_kabupaten_name s ∧
  (Str.all Str.is_word s = true → clean_kabupaten_name s = s) ∧
  Str.all label_char (Str.upper (clean_kabupaten_name s)) = true.
Proof.
  split_and!.
  - apply clean_words, sub_nonword_all_word.
  - apply clean_words.
  - pose proof (sub_nonword_all_word false (Str.strip (Re.sub_bracketed s))) as H.
    fold (Re.sub_nonword (Str.strip (Re.sub_bracketed s))) in H.
    fold (clean_kabupaten_name s) in H. revert H.
    generalize (clean_kabupaten_name s). intros l. unfold Str.upper.
    induction l as [|c l IH]; simpl; [done|].
    intros [Hc Hl]%andb_true_iff. by rewrite (upper_word _ Hc), IH.
Qed.

Lemma clean_kabupaten_name_stable_witness :
  clean_kabupaten_name "Tojo_Una_Una" = "Tojo_Una_Una".
Proof.
  destruct (clean_kabupaten_name_stable "Tojo_Una_Una") as (_ & H & _). by apply H.
Defined.
